(** * xlsqlite: the SQLITE(query, params...) pipeline

    A shallow embedding of the query compilation and execution pipeline of
    xlsqlite (src/xlsqlite/ext/sqlite): the error taxonomy (errors.py), the
    reference lexer, parser and rewriter (parser.py), header validation
    (schema.py), statement splitting, query-type detection and execution
    (executor.py), the output shaper (output.py) and the orchestrator
    (main.py).

    Text model.  A Python [str] is a [string] of 8-bit characters: the code
    points 0 to 255.  The character classes are Python's on these code
    points: [isspace], [str.strip] and the regex class \s take the codes
    9-13, 28-32, 133 and 160; [isalnum] and the regex class \w take the
    letters and numerals above 127 as well; [lower], [upper] and the regex
    flag IGNORECASE fold the letters 192-222 with 224-254.  The classes a
    pattern spells out ([a-zA-Z0-9_], [A-Z] and the like) have their own
    definitions.  Text with code points above 255 is outside the model.

    Python integers are [Z]; [len] of a list is [Z.of_nat (length l)].
    Exceptions are values of [exn] carried by the [outcome] monad.  pandas,
    sqlite3 and the spreadsheet host are not part of the repository: the
    orchestrator takes them as an environment record [Env]. *)

From Stdlib Require Import String Ascii List ZArith Lia Bool Arith.
From Stdlib Require Import DecimalString Permutation Sorted.
From Stdlib Require PrimFloat.
Import ListNotations.

Local Open Scope list_scope.
Local Open Scope string_scope.

(* ================================================================== *)
(** ** Python string primitives *)
(* ================================================================== *)

Module PyStr.

(** The characters the sources name explicitly. *)
Definition squote : ascii := "'"%char.
Definition dquote : ascii := "034"%char.
Definition newline : ascii := "010"%char.
Definition backslash : ascii := "092"%char.

Definition code (c : ascii) : nat := nat_of_ascii c.

Definition in_range (lo hi : nat) (c : ascii) : bool :=
  (lo <=? code c)%nat && (code c <=? hi)%nat.

(** [c.isspace()], the characters [s.strip()] removes, and the regex class
    \s: the ASCII blanks and separators, NEL (133) and the no-break space
    (160). *)
Definition isspace (c : ascii) : bool :=
  in_range 9 13 c || in_range 28 32 c
  || Nat.eqb (code c) 133 || Nat.eqb (code c) 160.

(** The classes a pattern spells out: [A-Z], [a-z], [a-zA-Z] (which is also
    [A-Z] under IGNORECASE on these code points), [0-9] (which is also the
    regex class \d), [a-zA-Z0-9] and [a-zA-Z0-9_]. *)
Definition isupper (c : ascii) : bool := in_range 65 90 c.
Definition islower (c : ascii) : bool := in_range 97 122 c.
Definition isalpha (c : ascii) : bool := isupper c || islower c.
Definition isdigit (c : ascii) : bool := in_range 48 57 c.
Definition ascii_alnum (c : ascii) : bool := isalpha c || isdigit c.
Definition ascii_word (c : ascii) : bool :=
  ascii_alnum c || Ascii.eqb c "_"%char.

(** The letters above 127: the ordinal indicators (170, 186), the micro
    sign (181) and 192-255 without the two arithmetic signs (215, 247). *)
Definition latin_letter (c : ascii) : bool :=
  Nat.eqb (code c) 170 || Nat.eqb (code c) 181 || Nat.eqb (code c) 186
  || in_range 192 214 c || in_range 216 246 c || in_range 248 255 c.

(** The superscript digits (178, 179, 185) and the fractions (188-190). *)
Definition superscript_digit (c : ascii) : bool :=
  in_range 178 179 c || Nat.eqb (code c) 185.
Definition latin_numeral (c : ascii) : bool :=
  superscript_digit c || in_range 188 190 c.

(** [c.isdigit()]. *)
Definition str_isdigit (c : ascii) : bool := isdigit c || superscript_digit c.
(** [c.isalnum()]. *)
Definition isalnum (c : ascii) : bool :=
  ascii_alnum c || latin_letter c || latin_numeral c.
(** The regex class \w, which also decides \b. *)
Definition isword (c : ascii) : bool := isalnum c || Ascii.eqb c "_"%char.

(** The capitals and the small letters above 127 that have their other case
    within the code points: 192-222 and 224-254, without the two signs. *)
Definition latin_upper (c : ascii) : bool :=
  in_range 192 214 c || in_range 216 222 c.
Definition latin_lower (c : ascii) : bool :=
  in_range 224 246 c || in_range 248 254 c.

(** [c.lower()]; the regex flag IGNORECASE compares what it gives. *)
Definition lower_char (c : ascii) : ascii :=
  if isupper c || latin_upper c then ascii_of_nat (code c + 32) else c.

(** [c.upper()]: the sharp s (223) becomes two letters.  The capitals of
    the micro sign (181) and of the y with diaeresis (255) lie above code
    point 255; the two characters are kept.  The sources upper-case a text
    either to compare it with keywords in A-Z or when it is a cell range,
    in [A-Za-z0-9$:]: neither tells the two characters from their
    capitals. *)
Definition upper_chars (c : ascii) : string :=
  if Nat.eqb (code c) 223 then "SS"
  else if islower c || latin_lower c
       then String (ascii_of_nat (code c - 32)) EmptyString
       else String c EmptyString.

Fixpoint map_chars (f : ascii -> ascii) (s : string) : string :=
  match s with
  | EmptyString => EmptyString
  | String c r => String (f c) (map_chars f r)
  end.

Definition lower (s : string) : string := map_chars lower_char s.

Fixpoint upper (s : string) : string :=
  match s with
  | EmptyString => EmptyString
  | String c r => upper_chars c ++ upper r
  end.

(** Truthiness of a string: [if s:]. *)
Definition nonempty (s : string) : bool :=
  match s with EmptyString => false | String _ _ => true end.

Fixpoint lstrip_by (p : ascii -> bool) (s : string) : string :=
  match s with
  | EmptyString => EmptyString
  | String c r => if p c then lstrip_by p r else s
  end.

Fixpoint rstrip_by (p : ascii -> bool) (s : string) : string :=
  match s with
  | EmptyString => EmptyString
  | String c r =>
      match rstrip_by p r with
      | EmptyString => if p c then EmptyString else String c EmptyString
      | String d t => String c (String d t)
      end
  end.

Definition strip_by (p : ascii -> bool) (s : string) : string :=
  rstrip_by p (lstrip_by p s).

(** [s.strip()]. *)
Definition strip (s : string) : string := strip_by isspace s.
(** [s.strip('_')]. *)
Definition strip_underscore (s : string) : string :=
  strip_by (fun c => Ascii.eqb c "_"%char) s.

(** [s.startswith(p)]. *)
Fixpoint startswith (p s : string) : bool :=
  match p, s with
  | EmptyString, _ => true
  | String _ _, EmptyString => false
  | String a p', String b s' => Ascii.eqb a b && startswith p' s'
  end.

(** [s.endswith(p)]. *)
Definition endswith (p s : string) : bool :=
  (String.length p <=? String.length s)%nat
  && String.eqb (substring (String.length s - String.length p) (String.length p) s) p.

(** [s[n:]]. *)
Fixpoint drop (n : nat) (s : string) : string :=
  match n, s with
  | O, _ => s
  | S _, EmptyString => EmptyString
  | S k, String _ r => drop k r
  end.

(** [s[:n]]. *)
Fixpoint take (n : nat) (s : string) : string :=
  match n, s with
  | O, _ => EmptyString
  | S _, EmptyString => EmptyString
  | S k, String c r => String c (take k r)
  end.

(** [sub in s]. *)
Fixpoint contains (sub s : string) : bool :=
  startswith sub s
  || match s with
     | EmptyString => false
     | String _ r => contains sub r
     end.

(** [s.find(c)] for a one-character needle: the offset of its first
    occurrence, [None] for Python's -1. *)
Fixpoint find_char (c : ascii) (s : string) : option nat :=
  match s with
  | EmptyString => None
  | String d r =>
      if Ascii.eqb d c then Some O
      else option_map S (find_char c r)
  end.

(** What follows the first occurrence of [sep] in [s], when there is one. *)
Fixpoint after_first (sep s : string) : option string :=
  if startswith sep s then Some (drop (String.length sep) s)
  else match s with
       | EmptyString => None
       | String _ r => after_first sep r
       end.

(** What precedes the first occurrence of [sep] in [s]; all of [s] when
    there is none.  This is [s.split(sep)[0]]. *)
Fixpoint before_first (sep s : string) : string :=
  if startswith sep s then EmptyString
  else match s with
       | EmptyString => EmptyString
       | String c r => String c (before_first sep r)
       end.

(** [s.replace(old, new)] for a two-character [old] and a one-character
    [new], the only shape the sources use. *)
Fixpoint replace2 (a b n : ascii) (s : string) : string :=
  match s with
  | String c ((String d r) as t) =>
      if Ascii.eqb c a && Ascii.eqb d b then String n (replace2 a b n r)
      else String c (replace2 a b n t)
  | _ => s
  end.

(** [str(n)] for a Python int. *)
Definition str_of_Z (n : Z) : string := NilZero.string_of_int (Z.to_int n).

(** The digits of [s] grouped in threes from the right:
    the body of [format(n, ',')]. *)
Fixpoint group3 (rev_digits : string) : string :=
  match rev_digits with
  | String a (String b (String c ((String _ _) as r))) =>
      String a (String b (String c (String ","%char (group3 r))))
  | _ => rev_digits
  end.

Fixpoint rev_string (s : string) : string :=
  match s with
  | EmptyString => EmptyString
  | String c r => rev_string r ++ String c EmptyString
  end.

(** [f"{n:,}"] for a non-negative [n]. *)
Definition format_thousands (n : Z) : string :=
  rev_string (group3 (rev_string (str_of_Z n))).

(** [sep.join(parts)]. *)
Fixpoint join (sep : string) (parts : list string) : string :=
  match parts with
  | [] => EmptyString
  | [p] => p
  | p :: rest => p ++ sep ++ join sep rest
  end.

(** Case-insensitive equality, as a regex literal compares under
    [re.IGNORECASE]. *)
Definition eqb_ci (a b : string) : bool := String.eqb (lower a) (lower b).

(** [p] is a prefix of [s] up to letter case. *)
Fixpoint startswith_ci (p s : string) : bool :=
  match p, s with
  | EmptyString, _ => true
  | String _ _, EmptyString => false
  | String a p', String b s' =>
      Ascii.eqb (lower_char a) (lower_char b) && startswith_ci p' s'
  end.

End PyStr.
Import PyStr.

(* ================================================================== *)
(** ** errors.py: the failure kinds and their canonical text *)
(* ================================================================== *)

Module Errors.

(** One constructor per exception class of errors.py; [SQLiteExcel] is the
    base class raised directly. *)
Inductive error_kind : Type :=
| SQLiteExcel | TableNotFound | ColumnNotFound | DuplicateColumn
| EmptyColumnName | QuerySyntax | RangeResolution | EmptyRange
| TypeInference | Execution | OutputLimit.

(** An instance of [SQLiteExcelError]: its class and [self.message]. *)
Record SQLiteExcelError : Type := mkError
  { kind : error_kind; message : string }.

(** [str(e)]: the constructor passes [f"Error: {message}"] to [Exception]. *)
Definition str_error (e : SQLiteExcelError) : string :=
  "Error: " ++ message e.

Definition TableNotFoundError (table_name : string) : SQLiteExcelError :=
  mkError TableNotFound ("no such table: " ++ table_name).

Definition ColumnNotFoundError (column_name : string) : SQLiteExcelError :=
  mkError ColumnNotFound ("no such column: " ++ column_name).

Definition DuplicateColumnError (column_name : string) : SQLiteExcelError :=
  mkError DuplicateColumn ("duplicate column name: " ++ column_name).

Definition EmptyColumnNameError (position : option Z) : SQLiteExcelError :=
  match position with
  | Some p =>
      mkError EmptyColumnName
        ("column name cannot be empty (position " ++ str_of_Z p ++ ")")
  | None => mkError EmptyColumnName "column name cannot be empty"
  end.

(** [if near_token: ... elif details: ... else: ...], each test being the
    truthiness of an optional string. *)
Definition truthy (s : option string) : bool :=
  match s with Some t => nonempty t | None => false end.

Definition text_of (s : option string) : string :=
  match s with Some t => t | None => EmptyString end.

Definition QuerySyntaxError (near_token details : option string)
  : SQLiteExcelError :=
  if truthy near_token then
    mkError QuerySyntax
      ("near " ++ String dquote (text_of near_token)
               ++ String dquote ": syntax error")
  else if truthy details then mkError QuerySyntax (text_of details)
  else mkError QuerySyntax "syntax error".

Definition RangeResolutionError (range_ref : string) (reason : option string)
  : SQLiteExcelError :=
  if truthy reason then
    mkError RangeResolution
      ("cannot resolve range: " ++ range_ref ++ " (" ++ text_of reason ++ ")")
  else mkError RangeResolution ("cannot resolve range: " ++ range_ref).

Definition EmptyRangeError (range_ref : string) : SQLiteExcelError :=
  mkError EmptyRange ("range contains no data: " ++ range_ref).

Definition TypeInferenceError (column_name : string) (reason : option string)
  : SQLiteExcelError :=
  if truthy reason then
    mkError TypeInference
      ("cannot infer type for column '" ++ column_name ++ "': "
         ++ text_of reason)
  else mkError TypeInference
         ("cannot infer type for column '" ++ column_name ++ "'").

Definition ExecutionError (msg : string) : SQLiteExcelError :=
  mkError Execution msg.

Definition OutputLimitError (row_count limit : Z) : SQLiteExcelError :=
  mkError OutputLimit
    ("result set too large: " ++ str_of_Z row_count ++ " rows (limit: "
       ++ str_of_Z limit ++ "). " ++ "Use LIMIT clause to reduce output.").

(** The classes [normalize_sqlite_error] tells apart by [isinstance].
    [DatabaseError] stands for sqlite3.DatabaseError and its subclasses other
    than the three named before it; [OtherException] for every other
    subclass of [Exception]. *)
Inductive py_class : Type :=
| OperationalError | IntegrityError | ProgrammingError | DatabaseError
| OtherException.

(** A raised exception: one of the package's own, or a foreign one with its
    class and [str(error)]. *)
Inductive exn : Type :=
| Excel (e : SQLiteExcelError)
| Foreign (c : py_class) (text : string).

Definition str_exn (error : exn) : string :=
  match error with
  | Excel e => str_error e
  | Foreign _ text => text
  end.

Definition class_of (error : exn) : py_class :=
  match error with
  | Excel _ => OtherException
  | Foreign c _ => c
  end.

(** [parts = msg.split(sep); parts[1].strip()] when [len(parts) > 1]. *)
Definition second_part (sep msg : string) : option string :=
  match after_first sep msg with
  | Some rest => Some (strip (before_first sep rest))
  | None => None
  end.

Definition normalize_operational (error_msg : string) : SQLiteExcelError :=
  let fallthrough_syntax :=
    if contains "syntax error" (lower error_msg)
    then QuerySyntaxError None (Some error_msg)
    else ExecutionError error_msg in
  let fallthrough_column :=
    if contains "no such column" error_msg then
      match second_part "no such column:" error_msg with
      | Some column_name => ColumnNotFoundError column_name
      | None => fallthrough_syntax
      end
    else fallthrough_syntax in
  if contains "no such table" error_msg then
    match second_part "no such table:" error_msg with
    | Some table_name => TableNotFoundError table_name
    | None => fallthrough_column
    end
  else fallthrough_column.

Definition normalize_sqlite_error (error : exn) : SQLiteExcelError :=
  let error_msg := str_exn error in
  match class_of error with
  | OperationalError => normalize_operational error_msg
  | IntegrityError => ExecutionError ("integrity error: " ++ error_msg)
  | ProgrammingError => ExecutionError ("programming error: " ++ error_msg)
  | DatabaseError => ExecutionError error_msg
  | OtherException => ExecutionError error_msg
  end.

Definition format_error_for_excel (error : exn) : string :=
  match error with
  | Excel e => str_error e
  | Foreign _ _ => str_error (normalize_sqlite_error error)
  end.

(** A computation that returns or raises. *)
Inductive outcome (A : Type) : Type :=
| Return (a : A)
| Raise (e : exn).

Arguments Return {A} a.
Arguments Raise {A} e.

Definition bind {A B : Type} (m : outcome A) (k : A -> outcome B)
  : outcome B :=
  match m with
  | Return a => k a
  | Raise e => Raise e
  end.

End Errors.
Import Errors.

Notation "x <- m ;; k" := (bind m (fun x => k))
  (at level 61, m at next level, right associativity).

(* ================================================================== *)
(** ** parser.py: reference extraction, parsing and rewriting *)
(* ================================================================== *)

Module Parser.

Record TableReference : Type := mkRef
  { original : string;
    sheet_name : option string;
    table_name : option string;
    range_ref : option string;
    sqlite_name : string }.

Definition is_named_table (r : TableReference) : bool :=
  match table_name r with Some _ => true | None => false end.

Definition is_range (r : TableReference) : bool :=
  match range_ref r with Some _ => true | None => false end.

Definition is_quote (c : ascii) : bool :=
  Ascii.eqb c squote || Ascii.eqb c dquote.

(** *** count_parameters

    The loop of [count_parameters] over the text that is left.  The source
    keeps [in_string] and [string_char] in step ([in_string] holds exactly
    when [string_char] is a character); [string_char : option ascii] carries
    both.  The escaped-quote branch consumes two characters. *)
Fixpoint count_parameters_loop (string_char : option ascii) (query : string)
  : Z :=
  match query with
  | EmptyString => 0
  | String char rest =>
      match string_char with
      | None =>
          if is_quote char then count_parameters_loop (Some char) rest
          else if Ascii.eqb char "?"%char
               then 1 + count_parameters_loop None rest
               else count_parameters_loop None rest
      | Some q =>
          if Ascii.eqb char q then
            match rest with
            | String next rest' =>
                if Ascii.eqb next q
                then count_parameters_loop (Some q) rest'
                else count_parameters_loop None rest
            | EmptyString => count_parameters_loop None rest
            end
          else count_parameters_loop (Some q) rest
      end
  end.

Definition count_parameters (query : string) : Z :=
  count_parameters_loop None query.

Definition is_parameterized_query (query : string) : bool :=
  (count_parameters query >? 0)%Z.

(** *** _remove_string_literals *)

(** The inner [while j < len(query)] loop: the offset, in the text after an
    opening single quote, of the first quote that is not followed by another
    quote. *)
Fixpoint closing_quote (s : string) : option nat :=
  match s with
  | EmptyString => None
  | String c r =>
      if Ascii.eqb c squote then
        match r with
        | String d _ =>
            if Ascii.eqb d squote then option_map S (closing_quote r)
            else Some O
        | EmptyString => Some O
        end
      else option_map S (closing_quote r)
  end.

Definition is_sheet_separator (c : ascii) : bool :=
  Ascii.eqb c "."%char || Ascii.eqb c "!"%char.

(** [j + 1 < len(query) and query[j + 1] in ('.', '!')], with [s] the text
    after the opening quote and [k] the offset of the closing quote in it. *)
Definition followed_by_separator (k : nat) (s : string) : bool :=
  match drop (S k) s with
  | String c _ => is_sheet_separator c
  | EmptyString => false
  end.

(** What a character inside a quoted run becomes: kept inside double quotes,
    a space inside single quotes. *)
Definition masked (q char : ascii) : ascii :=
  if Ascii.eqb q dquote then char else " "%char.

(** The main loop.  [copy] counts the characters still to be appended
    verbatim by the sheet-reference branch
    ([while i <= j + 1: result.append(query[i])]). *)
Fixpoint remove_string_literals_loop
  (copy : nat) (string_char : option ascii) (query : string) : string :=
  match query with
  | EmptyString => EmptyString
  | String char rest =>
      match copy with
      | S n => String char (remove_string_literals_loop n string_char rest)
      | O =>
          match string_char with
          | None =>
              if Ascii.eqb char squote then
                match closing_quote rest with
                | Some k =>
                    if followed_by_separator k rest
                    then String char
                           (remove_string_literals_loop (k + 2) None rest)
                    else String " "%char
                           (remove_string_literals_loop 0 (Some char) rest)
                | None =>
                    String " "%char
                      (remove_string_literals_loop 0 (Some char) rest)
                end
              else if Ascii.eqb char dquote then
                String char (remove_string_literals_loop 0 (Some char) rest)
              else String char (remove_string_literals_loop 0 None rest)
          | Some q =>
              if Ascii.eqb char q then
                match rest with
                | String next rest' =>
                    if Ascii.eqb next q then
                      String (masked q char)
                        (String (masked q char)
                           (remove_string_literals_loop 0 (Some q) rest'))
                    else String (masked q char)
                           (remove_string_literals_loop 0 None rest)
                | EmptyString =>
                    String (masked q char)
                      (remove_string_literals_loop 0 None rest)
                end
              else String (masked q char)
                     (remove_string_literals_loop 0 (Some q) rest)
          end
      end
  end.

Definition _remove_string_literals (query : string) : string :=
  remove_string_literals_loop 0 None query.

(** *** _remove_comments *)

(** [re.sub(r'--[^\n]*', ' ', query)]. *)
Fixpoint remove_line_comments (in_comment : bool) (s : string) : string :=
  match s with
  | EmptyString => EmptyString
  | String c r =>
      if in_comment then
        if Ascii.eqb c newline then String c (remove_line_comments false r)
        else remove_line_comments true r
      else
        match r with
        | String d r' =>
            if Ascii.eqb c "-"%char && Ascii.eqb d "-"%char
            then String " "%char (remove_line_comments true r')
            else String c (remove_line_comments false r)
        | EmptyString => String c EmptyString
        end
  end.

(** The offset of the first occurrence of [sub] in [s]. *)
Fixpoint find_sub (sub s : string) : option nat :=
  if startswith sub s then Some O
  else match s with
       | EmptyString => None
       | String _ r => option_map S (find_sub sub r)
       end.

(** [re.sub(r'/\*.*?\*/', ' ', query, flags=re.DOTALL)]; [skip] counts the
    characters of the current match still to be dropped. *)
Fixpoint remove_block_comments (skip : nat) (s : string) : string :=
  match s with
  | EmptyString => EmptyString
  | String c r =>
      match skip with
      | S n => remove_block_comments n r
      | O =>
          if startswith "/*" s then
            match find_sub "*/" (drop 2 s) with
            | Some k => String " "%char (remove_block_comments (k + 3) r)
            | None => String c (remove_block_comments 0 r)
            end
          else String c (remove_block_comments 0 r)
      end
  end.

Definition _remove_comments (query : string) : string :=
  remove_block_comments 0 (remove_line_comments false query).

(** *** Regular-expression scans *)

(** [re.finditer] for a pattern with no empty match.  The matcher is given
    whether the character before the position is a word character (for \b)
    and the text from the position on; it answers the length of the match
    and what the loop body reads from it. *)
Fixpoint finditer {A : Type} (m : bool -> string -> option (nat * A))
  (prev_word : bool) (skip : nat) (s : string) : list A :=
  match s with
  | EmptyString => []
  | String c r =>
      match skip with
      | S n => finditer m (isword c) n r
      | O =>
          match m prev_word s with
          | Some (len, a) => a :: finditer m (isword c) (len - 1) r
          | None => finditer m (isword c) 0 r
          end
      end
  end.

Fixpoint span_length (p : ascii -> bool) (s : string) : nat :=
  match s with
  | String c r => if p c then S (span_length p r) else O
  | EmptyString => O
  end.

(** \b before a keyword that starts with a letter, then the keyword in any
    case: what is left after it. *)
Definition keyword (kw : string) (prev_word : bool) (s : string)
  : option string :=
  if negb prev_word && startswith_ci kw s
  then Some (drop (String.length kw) s) else None.

(** \s+ : the number of blanks consumed, at least one. *)
Definition blanks (s : string) : option nat :=
  match span_length isspace s with
  | O => None
  | n => Some n
  end.

(** [\b(?:FROM|JOIN)\s+]: the match length and the text from [match.end()]. *)
Definition from_join_pattern (prev_word : bool) (s : string)
  : option (nat * string) :=
  match (match keyword "FROM" prev_word s with
         | Some t => Some t
         | None => keyword "JOIN" prev_word s
         end) with
  | Some t =>
      match blanks t with
      | Some n => Some (4 + n, drop n t)
      | None => None
      end
  | None => None
  end.

(** A group [[^\s,;]+] or [[^\s,;(]+]: the longest run, not empty. *)
Definition group_run (stop : ascii -> bool) (s : string)
  : option (nat * string) :=
  match span_length (fun c => negb (stop c)) s with
  | O => None
  | n => Some (n, take n s)
  end.

Definition update_stop (c : ascii) : bool :=
  isspace c || Ascii.eqb c ","%char || Ascii.eqb c ";"%char.

Definition insert_stop (c : ascii) : bool :=
  update_stop c || Ascii.eqb c "("%char.

(** [\bUPDATE\s+([^\s,;]+)]: the match length and [match.group(1)]. *)
Definition update_pattern (prev_word : bool) (s : string)
  : option (nat * string) :=
  match keyword "UPDATE" prev_word s with
  | Some t =>
      match blanks t with
      | Some n =>
          match group_run update_stop (drop n t) with
          | Some (g, text) => Some (6 + n + g, text)
          | None => None
          end
      | None => None
      end
  | None => None
  end.

(** [\bINSERT\s+INTO\s+([^\s,;(]+)]. *)
Definition insert_pattern (prev_word : bool) (s : string)
  : option (nat * string) :=
  match keyword "INSERT" prev_word s with
  | Some t =>
      match blanks t with
      | Some n =>
          if startswith_ci "INTO" (drop n t) then
            let u := drop 4 (drop n t) in
            match blanks u with
            | Some k =>
                match group_run insert_stop (drop k u) with
                | Some (g, text) => Some (6 + n + 4 + k + g, text)
                | None => None
                end
            | None => None
            end
          else None
      | None => None
      end
  | None => None
  end.

(** *** _extract_identifier and _extract_reference_at_position

    Both read the query from [start_pos] on only; they take that text. *)

(** The text after an opening quote [q] up to and including the closing one,
    a doubled [q] not closing the run; [None] when the run has no end. *)
Fixpoint quoted_run (q : ascii) (s : string) : option string :=
  match s with
  | EmptyString => None
  | String c r =>
      if Ascii.eqb c q then
        match r with
        | String d r' =>
            if Ascii.eqb d q
            then option_map (fun t => String c (String d t)) (quoted_run q r')
            else Some (String c EmptyString)
        | EmptyString => Some (String c EmptyString)
        end
      else option_map (String c) (quoted_run q r)
  end.

Definition ident_char (c : ascii) : bool :=
  isalnum c || Ascii.eqb c "_"%char || Ascii.eqb c "$"%char
  || Ascii.eqb c ":"%char.

Definition _extract_identifier (s : string) : option string :=
  match s with
  | EmptyString => None
  | String c r =>
      if is_quote c then option_map (String c) (quoted_run c r)
      else
        match span_length ident_char s with
        | O => None
        | n => Some (take n s)
        end
  end.

(** [if rest:] on an optional string. *)
Definition truthy_text (o : option string) : option string :=
  match o with
  | Some t => if nonempty t then Some t else None
  | None => None
  end.

Definition _extract_reference_at_position (s : string) : option string :=
  match lstrip_by isspace s with
  | EmptyString => None
  | String c r as q =>
      if Ascii.eqb c squote then
        match find_char squote r with
        | None => None
        | Some k =>
            match drop (S k) r with
            | String sep after =>
                if is_sheet_separator sep then
                  match truthy_text (_extract_identifier after) with
                  | Some rest =>
                      Some (String c (take (S k) r) ++ String sep rest)
                  | None => None
                  end
                else None
            | EmptyString => None
            end
        end
      else
        match truthy_text (_extract_identifier q) with
        | None => None
        | Some identifier =>
            match drop (String.length identifier) q with
            | String sep after =>
                if is_sheet_separator sep then
                  let more := lstrip_by isspace after in
                  let rest :=
                    match more with
                    | String c' r' =>
                        if Ascii.eqb c' squote then
                          match find_char squote r' with
                          | Some k => Some (String c' (take (S k) r'))
                          | None => _extract_identifier more
                          end
                        else _extract_identifier more
                    | EmptyString => _extract_identifier more
                    end in
                  match truthy_text rest with
                  | Some rest' => Some (identifier ++ String sep rest')
                  | None => Some identifier
                  end
                else Some identifier
            | EmptyString => Some identifier
            end
        end
  end.

(** *** _generate_sqlite_name *)

(** [re.sub(r'[^...]+', '_', s)]: every maximal run of characters outside
    [keep] becomes one underscore. *)
Fixpoint collapse_runs (keep : ascii -> bool) (in_run : bool) (s : string)
  : string :=
  match s with
  | EmptyString => EmptyString
  | String c r =>
      if keep c then String c (collapse_runs keep false r)
      else if in_run then collapse_runs keep true r
      else String "_"%char (collapse_runs keep true r)
  end.

Definition sanitize_part (keep : ascii -> bool) (part : string) : string :=
  strip_underscore (collapse_runs keep false (lower part)).

(** [if part: parts.append(...)] for an optional component. *)
Definition name_part (keep : ascii -> bool) (part : option string)
  : list string :=
  match part with
  | Some p => if nonempty p then [sanitize_part keep p] else []
  | None => []
  end.

Definition _generate_sqlite_name
  (sheet_name table_name range_ref : option string) : string :=
  let parts := (name_part ascii_word sheet_name
                  ++ name_part ascii_word table_name
                  ++ name_part ascii_alnum range_ref)%list in
  let name := join "_" parts in
  let name :=
    match name with
    | String c _ => if str_isdigit c then "r_" ++ name else name
    | EmptyString => name
    end in
  if nonempty name then name else "table_ref".

(** *** parse_reference *)

(** [\$?[A-Z]+\$?\d+] under IGNORECASE at the head of [s]: what is left. *)
Definition optional_dollar (s : string) : string :=
  match s with
  | String c r => if Ascii.eqb c "$"%char then r else s
  | EmptyString => s
  end.

Definition cell_address (s : string) : option string :=
  let s1 := optional_dollar s in
  match span_length isalpha s1 with
  | O => None
  | n =>
      let s2 := optional_dollar (drop n s1) in
      match span_length isdigit s2 with
      | O => None
      | k => Some (drop k s2)
      end
  end.

(** [^\$?[A-Z]+\$?\d+:\$?[A-Z]+\$?\d+$] under IGNORECASE. *)
Definition matches_range (s : string) : bool :=
  match cell_address s with
  | Some (String c t) =>
      Ascii.eqb c ":"%char
      && match cell_address t with
         | Some EmptyString => true
         | _ => false
         end
  | _ => false
  end.

(** The head [(?:'([^']+)'|([^X]+))X] of the two sheet patterns, [X] being
    the separator: the first alternative, a quoted sheet name. *)
Definition quoted_sheet (sep : ascii) (s : string) : option (string * string) :=
  match s with
  | String c r =>
      if Ascii.eqb c squote then
        match find_char squote r with
        | Some (S k) =>
            match drop (S (S k)) r with
            | String d tail =>
                if Ascii.eqb d sep then Some (take (S k) r, tail) else None
            | EmptyString => None
            end
        | _ => None
        end
      else None
  | EmptyString => None
  end.

(** The second alternative: everything before the first separator. *)
Definition plain_sheet (sep : ascii) (s : string) : option (string * string) :=
  match find_char sep s with
  | Some (S k) => Some (take (S k) s, drop (S (S k)) s)
  | _ => None
  end.

(** The alternatives in order, each followed by [accept] on the tail. *)
Definition sheet_pattern (sep : ascii) (accept : string -> bool) (s : string)
  : option (string * string) :=
  match quoted_sheet sep s with
  | Some (sheet, tail) =>
      if accept tail then Some (sheet, tail)
      else match plain_sheet sep s with
           | Some (sheet', tail') =>
               if accept tail' then Some (sheet', tail') else None
           | None => None
           end
  | None =>
      match plain_sheet sep s with
      | Some (sheet', tail') =>
          if accept tail' then Some (sheet', tail') else None
      | None => None
      end
  end.

(** [(.+)$] without DOTALL on a stripped string. *)
Definition one_line (s : string) : bool :=
  nonempty s && negb (contains (String newline EmptyString) s).

(** [if t.startswith(dq) and t.endswith(dq): t = t[1:-1].replace(dq dq, dq)]. *)
Definition unquote_table (t : string) : string :=
  let dq := String dquote EmptyString in
  if startswith dq t && endswith dq t
  then replace2 dquote dquote dquote (take (String.length t - 2) (drop 1 t))
  else t.

Definition ValueError (msg : string) : exn := Foreign OtherException msg.

Definition parse_reference (ref : string) : outcome TableReference :=
  if negb (nonempty ref) || negb (nonempty (strip ref)) then
    Raise (ValueError "Reference cannot be empty")
  else
    let ref := strip ref in
    let original := ref in
    match sheet_pattern "!"%char matches_range ref with
    | Some (sheet, rng) =>
        let range_ref := upper rng in
        Return (mkRef original (Some sheet) None (Some range_ref)
                  (_generate_sqlite_name (Some sheet) None (Some range_ref)))
    | None =>
        if matches_range ref then
          let range_ref := upper ref in
          Return (mkRef original None None (Some range_ref)
                    (_generate_sqlite_name None None (Some range_ref)))
        else
          match sheet_pattern "."%char one_line ref with
          | Some (sheet, tbl) =>
              let table_name := unquote_table tbl in
              Return (mkRef original (Some sheet) (Some table_name) None
                        (_generate_sqlite_name (Some sheet) (Some table_name)
                           None))
          | None =>
              let table_name := unquote_table ref in
              Return (mkRef original None (Some table_name) None
                        (_generate_sqlite_name None (Some table_name) None))
          end
    end.

(** *** extract_table_references *)

(** The loop state: [references] and the set [seen]. *)
Definition extraction_state : Type := (list TableReference * list string)%type.

Definition in_seen (ref_text : string) (seen : list string) : bool :=
  existsb (String.eqb ref_text) seen.

(** The body shared by the three loops:
    [if ref_text and ref_text not in seen: try: ... except ValueError: pass]. *)
Definition register (ref_text : string) (st : extraction_state)
  : extraction_state :=
  let '(references, seen) := st in
  if nonempty ref_text && negb (in_seen ref_text seen) then
    match parse_reference ref_text with
    | Return ref => ((references ++ [ref])%list, ref_text :: seen)
    | Raise _ => st
    end
  else st.

Definition register_from_join (st : extraction_state) (after : string)
  : extraction_state :=
  match _extract_reference_at_position after with
  | Some ref_text => register ref_text st
  | None => st
  end.

Definition register_group (st : extraction_state) (group : string)
  : extraction_state :=
  register (strip group) st.

Definition extraction_loops (cleaned_query : string) : extraction_state :=
  let st := fold_left register_from_join
              (finditer from_join_pattern false 0 cleaned_query) ([], []) in
  let st := fold_left register_group
              (finditer update_pattern false 0 cleaned_query) st in
  fold_left register_group
    (finditer insert_pattern false 0 cleaned_query) st.

Definition extract_table_references (query : string) : list TableReference :=
  let cleaned_query := _remove_string_literals query in
  let cleaned_query := _remove_comments cleaned_query in
  fst (extraction_loops cleaned_query).

(** *** substitute_references *)

(** \b at a position: the characters on its two sides differ in being word
    characters, the ends of the text counting as non-word. *)
Definition boundary (prev_word : bool) (s : string) : bool :=
  xorb prev_word
    (match s with String c _ => isword c | EmptyString => false end).

Fixpoint last_is_word (prev_word : bool) (s : string) : bool :=
  match s with
  | EmptyString => prev_word
  | String c r => last_is_word (isword c) r
  end.

(** The pattern built for one key: [re.escape(original_ref)] between two \b,
    or alone when the key holds a single quote; matched under IGNORECASE.
    The answer is the length of the match at this position. *)
Definition reference_pattern (original_ref : string)
  (prev_word : bool) (s : string) : option nat :=
  let n := String.length original_ref in
  if startswith_ci original_ref s then
    if contains (String squote EmptyString) original_ref then Some n
    else if boundary prev_word s
            && boundary (last_is_word prev_word (take n s)) (drop n s)
         then Some n else None
  else None.

(** [re.sub(pattern, repl, s)] for a replacement text without backslash (a
    template with one is expanded by [re.sub]; no engine name has one).
    An empty match inserts [repl] and copies the next character. *)
Fixpoint re_sub (m : bool -> string -> option nat) (repl : string)
  (prev_word : bool) (skip : nat) (s : string) : string :=
  match s with
  | EmptyString =>
      match skip, m prev_word EmptyString with
      | O, Some _ => repl
      | _, _ => EmptyString
      end
  | String c r =>
      match skip with
      | S n => re_sub m repl (isword c) n r
      | O =>
          match m prev_word s with
          | Some (S n) => repl ++ re_sub m repl (isword c) n r
          | Some O => repl ++ String c (re_sub m repl (isword c) 0 r)
          | None => String c (re_sub m repl (isword c) 0 r)
          end
      end
  end.

(** [sorted(mapping.keys(), key=len, reverse=True)]: longest key first, keys
    of one length in the order of the dict.  The dict is the list of its
    items in insertion order. *)
Fixpoint insert_by_length (item : string * string)
  (sorted : list (string * string)) : list (string * string) :=
  match sorted with
  | [] => [item]
  | other :: rest =>
      if (String.length (fst other) <=? String.length (fst item))%nat
      then item :: sorted
      else other :: insert_by_length item rest
  end.

Fixpoint sorted_refs (mapping : list (string * string))
  : list (string * string) :=
  match mapping with
  | [] => []
  | item :: rest => insert_by_length item (sorted_refs rest)
  end.

Definition substitute_one (result : string) (item : string * string)
  : string :=
  let '(original_ref, sqlite_name) := item in
  re_sub (reference_pattern original_ref) sqlite_name false 0 result.

Definition substitute_references (query : string)
  (mapping : list (string * string)) : string :=
  match mapping with
  | [] => query
  | _ => fold_left substitute_one (sorted_refs mapping) query
  end.

(** *** sanitize_identifier *)

(** [re.match(r'^[a-zA-Z_][a-zA-Z0-9_]*$', name)]; the dollar also matches
    before a newline that ends the text. *)
Definition valid_identifier (name : string) : bool :=
  match name with
  | String c r =>
      (isalpha c || Ascii.eqb c "_"%char)
      && match drop (span_length ascii_word r) r with
         | EmptyString => true
         | String d EmptyString => Ascii.eqb d newline
         | _ => false
         end
  | EmptyString => false
  end.

Fixpoint double_quotes (s : string) : string :=
  match s with
  | EmptyString => EmptyString
  | String c r =>
      if Ascii.eqb c dquote then String c (String c (double_quotes r))
      else String c (double_quotes r)
  end.

Definition quote_identifier (name : string) : string :=
  String dquote (double_quotes name ++ String dquote EmptyString).

Definition sanitize_identifier (name : string) : string :=
  if valid_identifier name then name else quote_identifier name.

End Parser.
Import Parser.

(* ================================================================== *)
(** ** Values, frames and the environment *)
(* ================================================================== *)

Module Host.

(** A cell value, a bound parameter or a result field. *)
Inductive value : Type :=
| VNone
| VInt (n : Z)
| VFloat (f : PrimFloat.float)
| VStr (s : string)
| VBytes (b : string).

(** A column label of a frame handed over by the host: [None], a [str], or
    any other object, known by its [str(...)]. *)
Inductive header : Type :=
| HNone
| HStr (s : string)
| HOther (text : string).

(** The frame the host resolver returns: labels and data rows. *)
Record DataFrame : Type := mkFrame
  { labels : list header; records : list (list value) }.

(** The frame returned to the spreadsheet: named columns and rows. *)
Record Table : Type := mkTable
  { table_columns : list string; table_rows : list (list value) }.

(** What [xl(ref, headers=True)] does: raise (known by [str(e)]), or return
    [None], an object that is not a frame (known by its type name), or a
    frame. *)
Inductive xl_result : Type :=
| XlRaises (text : string)
| XlNone
| XlOther (type_name : string)
| XlFrame (df : DataFrame).

(** What [cursor.execute] leaves on the cursor. *)
Record Cursor : Type := mkCursor
  { description : option (list string);
    fetchall : list (list value);
    cursor_rowcount : Z;
    cursor_lastrowid : option Z }.

(** The collaborators that are not code of the repository: the spreadsheet
    host, sqlite3 and pandas.  [conn] is the state of one in-memory engine;
    an operation that changes it returns the new state.  [conn.close()] in
    the [finally] of the orchestrator has no effect on the value returned
    and is not represented. *)
Record Env : Type := mkEnv
  { conn : Type;
    (** [from xl import xl] succeeds. *)
    xl_available : bool;
    xl : option string -> xl_result;
    (** [sqlite3.connect(":memory:")] and the foreign-key pragma. *)
    connect : outcome conn;
    (** [cursor.execute(query, params)]. *)
    cursor_execute : conn -> string -> list value -> outcome (conn * Cursor);
    (** [build_table_schema] after header validation, then
        [load_data_to_sqlite]: type inference over pandas series, the DDL
        and the bulk insert. *)
    load_table : conn -> string -> list string -> DataFrame -> outcome conn;
    (** [pd.DataFrame(rows, columns=columns)]. *)
    frame_of_rows : list (list value) -> list string -> outcome Table;
    (** [convert_types_for_excel]: the pandas dtype coercion. *)
    convert_types_for_excel : Table -> Table }.

End Host.
Import Host.

(* ================================================================== *)
(** ** schema.py: reference resolution and header validation *)
(* ================================================================== *)

Module Schema.

(** [header is None or (isinstance(header, str) and header.strip() == "")]. *)
Definition is_blank (h : header) : bool :=
  match h with
  | HNone => true
  | HStr s => negb (nonempty (strip s))
  | HOther _ => false
  end.

(** [str(header)]. *)
Definition str_of_header (h : header) : string :=
  match h with
  | HNone => "None"
  | HStr s => s
  | HOther text => text
  end.

(** [lower in seen] for the dict [seen] of lower-cased name to name. *)
Definition seen_has (lower_name : string) (seen : list (string * string))
  : bool :=
  existsb (fun kv => String.eqb (fst kv) lower_name) seen.

(** The loop of [validate_headers]; [i] is the index of [enumerate]. *)
Fixpoint validate_headers_loop (i : Z) (validated : list string)
  (seen : list (string * string)) (headers : list header)
  : outcome (list string) :=
  match headers with
  | [] => Return validated
  | h :: rest =>
      if is_blank h then Raise (Excel (EmptyColumnNameError (Some (i + 1)%Z)))
      else
        let header_str := strip (str_of_header h) in
        if negb (nonempty header_str)
        then Raise (Excel (EmptyColumnNameError (Some (i + 1)%Z)))
        else
          let lower_name := lower header_str in
          if seen_has lower_name seen
          then Raise (Excel (DuplicateColumnError header_str))
          else validate_headers_loop (i + 1)%Z
                 (validated ++ [header_str])%list
                 ((lower_name, header_str) :: seen) rest
  end.

Definition validate_headers (headers : list header) : outcome (list string) :=
  validate_headers_loop 0%Z [] [] headers.

(** An optional text inside an f-string: [None] prints as its name. *)
Definition format_optional (s : option string) : string :=
  match s with Some t => t | None => "None" end.

(** The reference string handed to [xl]. *)
Definition excel_ref (ref : TableReference) : option string :=
  if is_named_table ref then
    if truthy (sheet_name ref)
    then Some (format_optional (sheet_name ref) ++ "."
                 ++ format_optional (table_name ref))
    else table_name ref
  else
    if truthy (sheet_name ref)
    then Some (format_optional (sheet_name ref) ++ "!"
                 ++ format_optional (range_ref ref))
    else range_ref ref.

Definition resolve_reference (E : Env) (ref : TableReference)
  : outcome DataFrame :=
  if negb (xl_available E) then
    Raise (Excel (RangeResolutionError (original ref)
      (Some "xl() function not available - must run in Python in Excel environment")))
  else
    match xl E (excel_ref ref) with
    | XlRaises text =>
        Raise (Excel (RangeResolutionError (original ref)
          (Some ("failed to resolve Excel reference: " ++ text))))
    | XlNone =>
        Raise (Excel (RangeResolutionError (original ref)
          (Some "xl() returned None - reference may not exist")))
    | XlOther type_name =>
        Raise (Excel (RangeResolutionError (original ref)
          (Some ("xl() returned unexpected type: " ++ type_name
                   ++ " (expected DataFrame)"))))
    | XlFrame df =>
        match records df, labels df with
        | [], _ => Raise (Excel (EmptyRangeError (original ref)))
        | _, [] =>
            Raise (Excel (RangeResolutionError (original ref)
              (Some "range contains no columns")))
        | _, _ => Return df
        end
    end.

End Schema.
Import Schema.

(* ================================================================== *)
(** ** executor.py: query types, statement splitting, execution *)
(* ================================================================== *)

Module Executor.

(** [ExecutionResult] without [execution_time_ms], a wall-clock float that
    no shaping step reads. *)
Record ExecutionResult : Type := mkResult
  { columns : list string;
    rows : list (list value);
    rowcount : Z;
    lastrowid : option Z;
    query_type : string }.

Definition is_select (r : ExecutionResult) : bool :=
  String.eqb (upper (query_type r)) "SELECT".

Definition has_results (r : ExecutionResult) : bool :=
  (Z.of_nat (List.length (rows r)) >? 0)%Z.

Definition statement_keywords : list string :=
  ["SELECT"; "INSERT"; "UPDATE"; "DELETE"; "CREATE"; "DROP"; "PRAGMA";
   "EXPLAIN"].

Definition detect_query_type (query : string) : string :=
  let stripped := upper (strip query) in
  if startswith "WITH" stripped then
    if contains "SELECT" stripped then "SELECT" else "OTHER"
  else
    match find (fun keyword => startswith keyword stripped)
               statement_keywords with
    | Some keyword => keyword
    | None => "OTHER"
    end.

(** [stmt = ''.join(current).strip(); if stmt: statements.append(stmt)]. *)
Definition flush (statements : list string) (current : string)
  : list string :=
  let stmt := strip current in
  if nonempty stmt then (statements ++ [stmt])%list else statements.

Definition push (current : string) (char : ascii) : string :=
  current ++ String char EmptyString.

(** The loop of [split_statements]; [string_char] is [None] exactly when
    [in_string] is false. *)
Fixpoint split_statements_loop (statements : list string) (current : string)
  (string_char : option ascii) (sql : string) : list string :=
  match sql with
  | EmptyString => flush statements current
  | String char rest =>
      match string_char with
      | None =>
          if is_quote char then
            split_statements_loop statements (push current char) (Some char)
              rest
          else if Ascii.eqb char ";"%char then
            split_statements_loop (flush statements current) EmptyString None
              rest
          else split_statements_loop statements (push current char) None rest
      | Some q =>
          if Ascii.eqb char q then
            match rest with
            | String next rest' =>
                if Ascii.eqb next q then
                  split_statements_loop statements
                    (push (push current char) char) (Some q) rest'
                else
                  split_statements_loop statements (push current char) None
                    rest
            | EmptyString =>
                split_statements_loop statements (push current char) None rest
            end
          else
            split_statements_loop statements (push current char) (Some q) rest
      end
  end.

Definition split_statements (sql : string) : list string :=
  split_statements_loop [] EmptyString None sql.

Definition row_producing (query_type : string) : bool :=
  existsb (String.eqb query_type) ["SELECT"; "PRAGMA"; "EXPLAIN"].

Definition execute_query (E : Env) (c : conn E) (query : string)
  (params : list value) : outcome (conn E * ExecutionResult) :=
  let query_type := detect_query_type query in
  r <- cursor_execute E c query params ;;
  let '(c', cursor) := r in
  if row_producing query_type then
    let columns :=
      match description cursor with
      | Some names => names
      | None => []
      end in
    let rows := fetchall cursor in
    Return (c', mkResult columns rows (Z.of_nat (List.length rows)) None
                  query_type)
  else
    Return (c', mkResult [] [] (cursor_rowcount cursor)
                  (cursor_lastrowid cursor) query_type).

Definition empty_result : ExecutionResult := mkResult [] [] 0%Z None "EMPTY".

(** [last_select_result or last_result]. *)
Definition first_some {A : Type} (a b : option A) : option A :=
  match a with Some _ => a | None => b end.

(** The [for] loop of [execute_multiple_statements], called without
    [params_list]: every statement runs with the empty tuple. *)
Fixpoint run_statements (E : Env) (c : conn E) (statements : list string)
  (last_select_result last_result : option ExecutionResult)
  : outcome (conn E * option ExecutionResult) :=
  match statements with
  | [] => Return (c, first_some last_select_result last_result)
  | stmt :: rest =>
      let stmt := strip stmt in
      if negb (nonempty stmt) then
        run_statements E c rest last_select_result last_result
      else
        r <- execute_query E c stmt [] ;;
        let '(c', result) := r in
        run_statements E c' rest
          (if is_select result then Some result else last_select_result)
          (Some result)
  end.

Definition execute_multiple_statements (E : Env) (c : conn E) (sql : string)
  : outcome (conn E * ExecutionResult) :=
  match split_statements sql with
  | [] => Return (c, empty_result)
  | statements =>
      r <- run_statements E c statements None None ;;
      let '(c', final_result) := r in
      match final_result with
      | Some result => Return (c', result)
      | None => Return (c', empty_result)
      end
  end.

End Executor.
Import Executor.

(* ================================================================== *)
(** ** output.py: shaping and output limits *)
(* ================================================================== *)

Module Output.

Definition EXCEL_MAX_ROWS : Z := 1048576.
Definition EXCEL_MAX_COLS : Z := 16384.
Definition RECOMMENDED_MAX_ROWS : Z := 100000.

Definition is_dml (query_type : string) : bool :=
  existsb (String.eqb query_type) ["INSERT"; "UPDATE"; "DELETE"].

Definition is_ddl (query_type : string) : bool :=
  existsb (String.eqb query_type) ["CREATE"; "DROP"].

(** [pd.DataFrame([{"Result": text}])]. *)
Definition result_frame (text : string) : Table :=
  mkTable ["Result"] [[VStr text]].

(** [pd.DataFrame()]. *)
Definition empty_frame : Table := mkTable [] [].

Definition is_nil {A : Type} (l : list A) : bool :=
  match l with [] => true | _ :: _ => false end.

Definition format_result (E : Env) (result : ExecutionResult)
  : outcome Table :=
  if is_nil (columns result) || is_nil (rows result) then
    if is_dml (query_type result) then
      Return (result_frame (str_of_Z (rowcount result) ++ " rows affected"))
    else if is_ddl (query_type result) then Return (result_frame "OK")
    else Return empty_frame
  else
    df <- frame_of_rows E (rows result) (columns result) ;;
    Return (convert_types_for_excel E df).

Definition check_output_limits (result : ExecutionResult) : option string :=
  let row_count := Z.of_nat (List.length (rows result)) in
  let col_count := Z.of_nat (List.length (columns result)) in
  if (row_count >? EXCEL_MAX_ROWS)%Z then
    Some ("Result has " ++ format_thousands row_count
            ++ " rows, exceeding Excel's limit of "
            ++ format_thousands EXCEL_MAX_ROWS
            ++ ". Use LIMIT clause to reduce output.")
  else if (col_count >? EXCEL_MAX_COLS)%Z then
    Some ("Result has " ++ format_thousands col_count
            ++ " columns, exceeding Excel's limit of "
            ++ format_thousands EXCEL_MAX_COLS ++ ".")
  else if (row_count >? RECOMMENDED_MAX_ROWS)%Z then
    Some ("Warning: Result has " ++ format_thousands row_count
            ++ " rows. Large outputs may "
            ++ "impact Excel performance. Consider using LIMIT clause.")
  else None.

End Output.
Import Output.

(* ================================================================== *)
(** ** main.py: the orchestrator *)
(* ================================================================== *)

Module Main.

(** What [SQLITE] hands back to the cell: a frame or a string. *)
Inductive cell_result : Type :=
| Frame (t : Table)
| Text (s : string).

(** [ref_mapping[key] = name] on a dict kept in insertion order. *)
Fixpoint dict_set (mapping : list (string * string)) (key name : string)
  : list (string * string) :=
  match mapping with
  | [] => [(key, name)]
  | (k, v) :: rest =>
      if String.eqb k key then (k, name) :: rest
      else (k, v) :: dict_set rest key name
  end.

(** [if params: ...]: the parameter-count check, made for a non-empty
    tuple only. *)
Definition check_parameter_count (query : string) (params : list value)
  : outcome unit :=
  match params with
  | [] => Return tt
  | _ :: _ =>
      let expected := count_parameters query in
      let got := Z.of_nat (List.length params) in
      if negb (got =? expected)%Z then
        Raise (Excel (QuerySyntaxError None
          (Some ("expected " ++ str_of_Z expected ++ " parameters, got "
                   ++ str_of_Z got))))
      else Return tt
  end.

(** The [for ref in references] loop. *)
Fixpoint load_references (E : Env) (c : conn E)
  (references : list TableReference) (ref_mapping : list (string * string))
  : outcome (conn E * list (string * string)) :=
  match references with
  | [] => Return (c, ref_mapping)
  | ref :: rest =>
      df <- resolve_reference E ref ;;
      validated_headers <- validate_headers (labels df) ;;
      c' <- load_table E c (sqlite_name ref) validated_headers df ;;
      load_references E c' rest
        (dict_set ref_mapping (original ref) (sqlite_name ref))
  end.

Inductive branch : Type := MultipleStatements | SingleStatement.

(** [if ';' in query]. *)
Definition dispatch (query : string) : branch :=
  if contains ";" query then MultipleStatements else SingleStatement.

Definition run_branch (E : Env) (c : conn E) (query rewritten_query : string)
  (params : list value) : outcome (conn E * ExecutionResult) :=
  match dispatch query with
  | MultipleStatements => execute_multiple_statements E c rewritten_query
  | SingleStatement => execute_query E c rewritten_query params
  end.

(** The steps from reference extraction to the execution result. *)
Definition execute_stage (E : Env) (query : string) (params : list value)
  : outcome ExecutionResult :=
  let references := extract_table_references query in
  c <- connect E ;;
  loaded <- load_references E c references [] ;;
  let '(c', ref_mapping) := loaded in
  let rewritten_query := substitute_references query ref_mapping in
  r <- run_branch E c' query rewritten_query params ;;
  Return (snd r).

(** The last steps: the output limits, then the shaping. *)
Definition shape_stage (E : Env) (result : ExecutionResult) : outcome Table :=
  match check_output_limits result with
  | Some warning =>
      if nonempty warning && contains "exceeding" warning
      then Raise (Excel (mkError SQLiteExcel warning))
      else format_result E result
  | None => format_result E result
  end.

(** The two validations that open [_execute_sqlite]. *)
Definition validate_call (query : string) (params : list value)
  : outcome unit :=
  if negb (nonempty query) || negb (nonempty (strip query)) then
    Raise (Excel (QuerySyntaxError None (Some "empty query")))
  else check_parameter_count query params.

(** Everything up to [result = ...]. *)
Definition execution_result (E : Env) (query : string) (params : list value)
  : outcome ExecutionResult :=
  _ <- validate_call query params ;;
  execute_stage E query params.

Definition _execute_sqlite (E : Env) (query : string) (params : list value)
  : outcome Table :=
  result <- execution_result E query params ;;
  shape_stage E result.

Definition SQLITE (E : Env) (query : string) (params : list value)
  : cell_result :=
  match _execute_sqlite E query params with
  | Return t => Frame t
  | Raise (Excel e) => Text (str_error e)
  | Raise (Foreign c text) => Text (format_error_for_excel (Foreign c text))
  end.

End Main.
Import Main.

(* ================================================================== *)
(** ** A small environment, after the fixtures of the test suite *)
(* ================================================================== *)

Module Fixture.

Definition orders : DataFrame :=
  mkFrame [HStr "OrderID"; HStr "CustomerID"; HStr "Total"]
    [[VInt 1; VInt 101; VInt 150]; [VInt 2; VInt 102; VInt 200];
     [VInt 3; VInt 101; VInt 75]].

(** The host knows one table, Orders. *)
Definition xl (ref : option string) : xl_result :=
  match ref with
  | Some name =>
      if String.eqb name "Orders" then XlFrame orders
      else XlRaises ("unknown reference " ++ name)
  | None => XlRaises "no reference"
  end.

(** An engine that answers every statement with the cursor [answer], after
    the one check sqlite3 makes on the bindings: as many values as the
    statement has placeholders. *)
Definition cursor_execute (answer : Cursor) (c : unit) (query : string)
  (params : list value) : outcome (unit * Cursor) :=
  let uses := count_parameters query in
  let supplied := Z.of_nat (List.length params) in
  if (uses =? supplied)%Z then Return (c, answer)
  else Raise (Foreign ProgrammingError
         ("Incorrect number of bindings supplied. The current statement uses "
            ++ str_of_Z uses ++ ", and there are " ++ str_of_Z supplied
            ++ " supplied.")).

Definition env (answer : Cursor) : Env :=
  mkEnv unit true xl (Return tt) (cursor_execute answer)
    (fun c _ _ _ => Return c)
    (fun rows columns => Return (mkTable columns rows))
    (fun t => t).

Definition two_orders : Cursor :=
  mkCursor (Some ["OrderID"; "CustomerID"; "Total"])
    [[VInt 1; VInt 101; VInt 150]; [VInt 3; VInt 101; VInt 75]]
    (-1)%Z None.

(** A cursor with more columns than a sheet has, and no row. *)
Definition too_wide : Cursor :=
  mkCursor (Some (repeat "c" (Z.to_nat 16385))) [] (-1)%Z None.

(** A cursor with one row more than a sheet has. *)
Definition too_long : Cursor :=
  mkCursor (Some ["n"]) (repeat [VInt 1] (Z.to_nat 1048577)) (-1)%Z None.

End Fixture.

(* ================================================================== *)
(** ** Notions used to state the properties *)
(* ================================================================== *)

(** The error a raised exception is rendered from: itself when it is one of
    the package's, its normal form otherwise. *)
Definition canonical (e : exn) : SQLiteExcelError :=
  match e with
  | Excel x => x
  | Foreign _ _ => normalize_sqlite_error e
  end.

(** [len(params)]. *)
Definition len {A : Type} (l : list A) : Z := Z.of_nat (List.length l).

(** The detail of the parameter-count failure. *)
Definition count_mismatch (expected got : Z) : string :=
  "expected " ++ str_of_Z expected ++ " parameters, got " ++ str_of_Z got.

(** The text [check_output_limits] produces for a result over a hard
    limit, the rows being looked at first. *)
Definition hard_limit_text (result : ExecutionResult) : string :=
  if (len (rows result) >? 1048576)%Z then
    "Result has " ++ format_thousands (len (rows result))
      ++ " rows, exceeding Excel's limit of 1,048,576. Use LIMIT clause to reduce output."
  else
    "Result has " ++ format_thousands (len (columns result))
      ++ " columns, exceeding Excel's limit of 16,384.".

(** [p] is a prefix of [s]; [p] occurs in [s]. *)
Definition starts (p s : string) : Prop := exists t, s = p ++ t.
Definition occurs (p s : string) : Prop := exists a b, s = a ++ p ++ b.

(** A statement that opens with a CTE and whose main verb is DELETE. *)
Definition cte_delete_query : string :=
  "WITH c(x) AS (VALUES (1)) DELETE FROM t WHERE id IN c".

(** The first word of a text: its longest prefix of letters, digits and
    underscores. *)
Definition first_word (s : string) : string :=
  take (span_length isword s) s.

(** The name of a header entry: stringified, then trimmed. *)
Definition entry_name (h : header) : string := strip (str_of_header h).

(** An entry is empty when it is null or its name is empty. *)
Definition entry_empty (h : header) : Prop :=
  h = HNone \/ entry_name h = EmptyString.

(** The key under which names are compared. *)
Definition folded_name (h : header) : string := lower (entry_name h).

(** No entry is empty and no two entries have the same name up to case. *)
Definition acceptable (hs : list header) : Prop :=
  Forall (fun h => ~ entry_empty h) hs /\ NoDup (map folded_name hs).

(** A semicolon outside string literals, with the literal tracking of
    [split_statements]: single and double quotes, a doubled quote not
    closing the run. *)
Fixpoint semicolon_outside_literals_loop (string_char : option ascii)
  (sql : string) : bool :=
  match sql with
  | EmptyString => false
  | String char rest =>
      match string_char with
      | None =>
          if is_quote char
          then semicolon_outside_literals_loop (Some char) rest
          else if Ascii.eqb char ";"%char then true
          else semicolon_outside_literals_loop None rest
      | Some q =>
          if Ascii.eqb char q then
            match rest with
            | String next rest' =>
                if Ascii.eqb next q
                then semicolon_outside_literals_loop (Some q) rest'
                else semicolon_outside_literals_loop None rest
            | EmptyString => false
            end
          else semicolon_outside_literals_loop (Some q) rest
      end
  end.

Definition semicolon_outside_literals (sql : string) : bool :=
  semicolon_outside_literals_loop None sql.

(** A query with one placeholder and a semicolon inside a string literal. *)
Definition literal_semicolon_query : string :=
  "SELECT * FROM Orders WHERE Note = 'a;b' AND CustomerID = ?".

(** The search projection as section 4.1 of the specification words it: a
    length-preserving copy of the query in which single-line comments,
    block comments and single-quoted literals are spaces, a single-quoted
    run followed by a dot or an exclamation mark and double-quoted
    identifiers are kept.  A quote inside a comment opens nothing, a
    comment marker inside a quoted run opens nothing, and a block comment
    is one that is closed. *)
Inductive lexical_state : Type :=
| InCode | InSingle | InDouble | InLineComment | InBlockComment.

Fixpoint search_projection_loop (keep : nat) (st : lexical_state)
  (query : string) : string :=
  match query with
  | EmptyString => EmptyString
  | String c r =>
      match keep with
      | S n => String c (search_projection_loop n st r)
      | O =>
          let blank := " "%char in
          match st, r with
          | InCode, String d r' =>
              if Ascii.eqb c squote then
                match closing_quote r with
                | Some k =>
                    if followed_by_separator k r
                    then String c (search_projection_loop (k + 2) InCode r)
                    else String blank (search_projection_loop 0 InSingle r)
                | None => String blank (search_projection_loop 0 InSingle r)
                end
              else if Ascii.eqb c dquote
              then String c (search_projection_loop 0 InDouble r)
              else if Ascii.eqb c "-"%char && Ascii.eqb d "-"%char
              then String blank
                     (String blank (search_projection_loop 0 InLineComment r'))
              else if Ascii.eqb c "/"%char && Ascii.eqb d "*"%char then
                match find_sub "*/" r' with
                | Some _ =>
                    String blank
                      (String blank
                         (search_projection_loop 0 InBlockComment r'))
                | None => String c (search_projection_loop 0 InCode r)
                end
              else String c (search_projection_loop 0 InCode r)
          | InCode, EmptyString =>
              if Ascii.eqb c squote then String blank EmptyString
              else String c EmptyString
          | InSingle, String d r' =>
              if Ascii.eqb c squote then
                if Ascii.eqb d squote
                then String blank
                       (String blank (search_projection_loop 0 InSingle r'))
                else String blank (search_projection_loop 0 InCode r)
              else String blank (search_projection_loop 0 InSingle r)
          | InSingle, EmptyString => String blank EmptyString
          | InDouble, String d r' =>
              if Ascii.eqb c dquote then
                if Ascii.eqb d dquote
                then String c (String d (search_projection_loop 0 InDouble r'))
                else String c (search_projection_loop 0 InCode r)
              else String c (search_projection_loop 0 InDouble r)
          | InDouble, EmptyString => String c EmptyString
          | InLineComment, _ =>
              if Ascii.eqb c newline
              then String c (search_projection_loop 0 InCode r)
              else String blank (search_projection_loop 0 InLineComment r)
          | InBlockComment, String d r' =>
              if Ascii.eqb c "*"%char && Ascii.eqb d "/"%char
              then String blank
                     (String blank (search_projection_loop 0 InCode r'))
              else String blank (search_projection_loop 0 InBlockComment r)
          | InBlockComment, EmptyString => String blank EmptyString
          end
      end
  end.

Definition search_projection (query : string) : string :=
  search_projection_loop 0 InCode query.

(** The references the three extraction loops find in a search string. *)
Definition references_in (search : string) : list string :=
  map original (fst (extraction_loops search)).

(** Three queries in which a comment holds an apostrophe. *)
Definition apostrophe_then_literal : string :=
  "/* don't use old data */ SELECT * FROM Orders WHERE Note = 'moved FROM Archive'".

Definition apostrophe_then_line_comment : string :=
  "/* don't */ SELECT * FROM Orders -- it's copied FROM Archive".

Definition apostrophe_then_block_comment : string :=
  "SELECT * FROM Orders -- don't" ++ String newline
    "/* isn't read" ++ String newline " FROM Archive */".







(** The mappings the pipeline builds: no empty key, and no backslash in an
    engine name (so the replacement text is not a template). *)
Definition plain_mapping (mapping : list (string * string)) : Prop :=
  forall key name,
    In (key, name) mapping ->
    key <> EmptyString /\ contains (String backslash EmptyString) name = false.

(** What the loop answers from a state reached after the entries [before]. *)
Definition loop_state (before : list header) (i : Z) (validated : list string)
  (seen : list (string * string)) : Prop :=
  i = len before
  /\ validated = map entry_name before
  /\ (forall x, seen_has x seen = true <-> In x (map folded_name before))
  /\ acceptable before.

(** How a rejection reads: the entries [before] pass, and [h] is the first
    one that does not. *)
Definition rejected_at (before : list header) (h : header) (e : exn) : Prop :=
  (entry_empty h
   /\ e = Excel (EmptyColumnNameError (Some (len before + 1)%Z)))
  \/ (~ entry_empty h
      /\ (exists a, In a before /\ folded_name a = folded_name h)
      /\ e = Excel (DuplicateColumnError (entry_name h))).

(** A text with no blank at either end is left alone by [strip]. *)
Definition head_ok (t : string) : Prop :=
  match t with
  | String c _ => isspace c = false
  | EmptyString => False
  end.

Definition tail_ok (t : string) : Prop := rstrip_by isspace t = t.

Definition tight (t : string) : Prop :=
  lstrip_by isspace t = t /\ rstrip_by isspace t = t.

(** The invariant of the three loops: the originals of the references are
    the texts in [seen], in the order of their registration, each one once
    and each one without a blank at either end; every reference is the
    parse of its own original. *)
Definition extraction_invariant (st : extraction_state) : Prop :=
  map original (fst st) = rev (snd st)
  /\ NoDup (snd st)
  /\ Forall tight (snd st)
  /\ Forall (fun r => parse_reference (original r) = Return r) (fst st).

(** Every character of [s] satisfies [p]. *)
Fixpoint all_chars (p : ascii -> bool) (s : string) : bool :=
  match s with
  | EmptyString => true
  | String c r => p c && all_chars p r
  end.

(** The characters of an engine name: lower-case letters, digits and the
    underscore. *)
Definition name_char (c : ascii) : bool :=
  islower c || isdigit c || Ascii.eqb c "_"%char.

(** A valid unquoted identifier of the engine made of such characters: not
    empty, and not starting with a digit. *)
Definition engine_identifier (name : string) : Prop :=
  all_chars name_char name = true
  /\ match name with
     | String c _ => isdigit c = false
     | EmptyString => False
     end.

(* ================================================================== *)
(** ** schema.py: identifiers, DDL and the table schema *)
(* ================================================================== *)

Module SchemaBuilder.

Definition SQLITE_INTEGER : string := "INTEGER".
Definition SQLITE_REAL : string := "REAL".
Definition SQLITE_TEXT : string := "TEXT".

Record ColumnSchema : Type := mkColumn
  { col_name : string;
    col_sqlite_name : string;
    col_sqlite_type : string;
    col_nullable : bool }.

Record TableSchema : Type := mkSchema
  { tbl_name : string;
    tbl_sqlite_name : string;
    tbl_columns : list ColumnSchema;
    tbl_row_count : Z }.

Definition reserved : list string :=
  ["select"; "from"; "where"; "and"; "or"; "not"; "null"; "true"; "false";
   "insert"; "update"; "delete"; "create"; "drop"; "table"; "index";
   "order"; "by"; "group"; "having"; "join"; "left"; "right"; "inner";
   "outer"; "on"; "as"; "in"; "between"; "like"; "is"; "case"; "when";
   "then"; "else"; "end"; "distinct"; "limit"; "offset"; "union"; "all"].

Definition is_reserved (name : string) : bool :=
  existsb (String.eqb (lower name)) reserved.

Definition sanitize_column_name (name : string) : string :=
  if valid_identifier name && negb (is_reserved name) then name
  else quote_identifier name.

(** One line of the column list. *)
Definition col_def (col : ColumnSchema) : string :=
  let nullable := if col_nullable col then EmptyString else " NOT NULL" in
  "    " ++ col_sqlite_name col ++ " " ++ col_sqlite_type col ++ nullable.

Definition create_table_ddl (table_name : string)
  (columns : list ColumnSchema) : string :=
  let cols_sql := join ("," ++ String newline EmptyString)
                    (map col_def columns) in
  "CREATE TABLE " ++ table_name ++ " (" ++ String newline EmptyString
    ++ cols_sql ++ String newline ")".

(** The statement [load_data_to_sqlite] builds for the bulk insert. *)
Definition insert_sql (schema : TableSchema) : string :=
  let placeholders := join ", " (map (fun _ => "?") (tbl_columns schema)) in
  let col_names := join ", " (map col_sqlite_name (tbl_columns schema)) in
  "INSERT INTO " ++ tbl_sqlite_name schema ++ " (" ++ col_names
    ++ ") VALUES (" ++ placeholders ++ ")".

(** [repr(s)] of a Python string, as [str(KeyError(s))] prints it. *)
Definition hex_digit (n : nat) : ascii :=
  if (n <? 10)%nat then ascii_of_nat (48 + n) else ascii_of_nat (87 + n).

Definition printable (c : ascii) : bool :=
  in_range 32 126 c
  || (in_range 161 255 c && negb (Nat.eqb (code c) 173)).

Definition repr_char (quote c : ascii) : string :=
  if Ascii.eqb c quote || Ascii.eqb c backslash
  then String backslash (String c EmptyString)
  else if Nat.eqb (code c) 9 then String backslash "t"
  else if Nat.eqb (code c) 10 then String backslash "n"
  else if Nat.eqb (code c) 13 then String backslash "r"
  else if printable c then String c EmptyString
  else String backslash
         (String "x"
            (String (hex_digit (code c / 16))
               (String (hex_digit (code c mod 16)) EmptyString))).

Fixpoint repr_body (quote : ascii) (s : string) : string :=
  match s with
  | EmptyString => EmptyString
  | String c r => repr_char quote c ++ repr_body quote r
  end.

Definition repr (s : string) : string :=
  let quote :=
    if contains (String squote EmptyString) s
       && negb (contains (String dquote EmptyString) s)
    then dquote else squote in
  String quote (repr_body quote s ++ String quote EmptyString).

Definition KeyError (key : string) : exn := Foreign OtherException (repr key).

(** [types[col_name]] for the dict [types] of [infer_column_types], whose
    keys are the labels of the frame: a string finds the label equal to
    it.  [infer_column_type], which reads pandas dtypes, is a parameter: it
    is given the frame and the label of the column. *)
Definition lookup_type (infer_column_type : DataFrame -> header -> string)
  (df : DataFrame) (col_name : string) : outcome string :=
  if existsb (fun h => match h with
                       | HStr s => String.eqb s col_name
                       | _ => false
                       end) (labels df)
  then Return (infer_column_type df (HStr col_name))
  else Raise (KeyError col_name).

(** The loop that builds the column schemas. *)
Fixpoint column_schemas (infer_column_type : DataFrame -> header -> string)
  (df : DataFrame) (validated_headers : list string)
  : outcome (list ColumnSchema) :=
  match validated_headers with
  | [] => Return []
  | col_name :: rest =>
      sqlite_type <- lookup_type infer_column_type df col_name ;;
      columns <- column_schemas infer_column_type df rest ;;
      Return (mkColumn col_name (sanitize_column_name col_name) sqlite_type
                true :: columns)
  end.

Definition build_table_schema
  (infer_column_type : DataFrame -> header -> string)
  (df : DataFrame) (table_name : string) : outcome TableSchema :=
  validated_headers <- validate_headers (labels df) ;;
  columns <- column_schemas infer_column_type df validated_headers ;;
  Return (mkSchema table_name (sanitize_column_name table_name) columns
            (Z.of_nat (List.length (records df)))).

End SchemaBuilder.

(* ================================================================== *)
(** ** output.py and main.py: the remaining pure operations *)
(* ================================================================== *)

Module More.

(** [result_to_list_of_lists]; the header row holds the column names. *)
Definition result_to_list_of_lists (result : ExecutionResult)
  (include_headers : bool) : list (list value) :=
  match columns result with
  | [] => []
  | _ :: _ =>
      ((if include_headers then [map VStr (columns result)] else [])
         ++ rows result)%list
  end.

(** [get_table_info]. *)
Definition get_table_info (E : Env) (c : conn E) (table_name : string)
  : outcome (conn E * ExecutionResult) :=
  execute_query E c ("PRAGMA table_info(" ++ table_name ++ ")") [].

Definition SQLITE_EXPLAIN (E : Env) (query : string) : cell_result :=
  SQLITE E ("EXPLAIN QUERY PLAN " ++ query) [].

End More.

(* ================================================================== *)
(** ** Notions used to state the further properties *)
(* ================================================================== *)

(** The number of occurrences of a character. *)
Fixpoint count_char (c : ascii) (s : string) : Z :=
  match s with
  | EmptyString => 0%Z
  | String d r =>
      ((if Ascii.eqb d c then 1 else 0) + count_char c r)%Z
  end.

(** [out] is [s] with some characters replaced by a space. *)
Inductive masks : string -> string -> Prop :=
| masks_end : masks EmptyString EmptyString
| masks_keep : forall c s out, masks s out -> masks (String c s) (String c out)
| masks_blank : forall c s out,
    masks s out -> masks (String c s) (String " "%char out).

(** [key] occurs in [s] up to letter case. *)
Fixpoint contains_ci (key s : string) : bool :=
  startswith_ci key s
  || match s with
     | EmptyString => false
     | String _ r => contains_ci key r
     end.

Definition no_quote (c : ascii) : bool := negb (is_quote c).

(** An entry of the mapping whose key does not occur in the query, and
    whose name is a plain replacement text. *)
Definition unused_entry (query : string) (item : string * string) : Prop :=
  contains_ci (fst item) query = false
  /\ contains (String backslash EmptyString) (snd item) = false.

(** A header that [validate_headers] returns as it is: a string with no
    blank at either end. *)
Definition trimmed_string (h : header) : bool :=
  match h with
  | HStr s => String.eqb (strip s) s
  | _ => false
  end.

(** The column built for a label. *)
Definition column_of (infer_column_type : DataFrame -> header -> string)
  (df : DataFrame) (h : header) : SchemaBuilder.ColumnSchema :=
  SchemaBuilder.mkColumn (entry_name h)
    (SchemaBuilder.sanitize_column_name (entry_name h))
    (infer_column_type df h) true.

(** A statement as [split_statements] returns it: not empty, and with no
    blank at either end. *)
Definition statement_shape (stmt : string) : Prop :=
  nonempty stmt = true /\ strip stmt = stmt.

(** What the loop of [split_statements] knows about [current]: scanning it
    from outside a literal leads to the state [st]; [avoid] is the quote
    that has just closed a literal, which the next character is not. *)
Definition respects (avoid : option ascii) (tail : string) : Prop :=
  match avoid, tail with
  | Some q, String d _ => d <> q
  | _, _ => True
  end.

Definition scanned (current : string) (st avoid : option ascii) : Prop :=
  forall tail,
    respects avoid tail ->
    semicolon_outside_literals_loop None (current ++ tail)
    = semicolon_outside_literals_loop st tail.

Definition single_statement (stmt : string) : Prop :=
  statement_shape stmt /\ semicolon_outside_literals stmt = false.

(** The characters of a number grouped in thousands. *)
Definition numeral_char (c : ascii) : bool :=
  isdigit c || Ascii.eqb c ","%char || Ascii.eqb c "-"%char.

(** What [format_result] shows for a statement that produces no rows. *)
Definition status_frame (query_type : string) (affected : Z) : Table :=
  if is_dml query_type
  then result_frame (str_of_Z affected ++ " rows affected")
  else if is_ddl query_type then result_frame "OK"
  else empty_frame.

(** The entry the orchestrator records for a reference. *)
Definition mapping_entry (r : TableReference) : string * string :=
  (original r, sqlite_name r).

(** The environment of [Fixture.env] outside Python in Excel: the import of
    [xl] fails. *)
Definition offline_env (answer : Cursor) : Env :=
  mkEnv unit false Fixture.xl (Return tt) (Fixture.cursor_execute answer)
    (fun c _ _ _ => Return c)
    (fun rows columns => Return (mkTable columns rows))
    (fun t => t).

(** The failure of [resolve_reference] when [xl] cannot be imported. *)
Definition xl_unavailable (original_ref : string) : SQLiteExcelError :=
  RangeResolutionError original_ref
    (Some "xl() function not available - must run in Python in Excel environment").

(** A character that no scanner of the package reads: not a quote, not a
    semicolon, not a question mark. *)
Definition plain_char (c : ascii) : bool :=
  negb (is_quote c) && negb (Ascii.eqb c ";"%char)
  && negb (Ascii.eqb c "?"%char).

(** A scanner that is outside a literal before [p] is outside a literal
    after it, and has read nothing: whatever follows [p], as long as it does
    not open with a double quote. *)
Definition passes {A : Type} (scan : option ascii -> string -> A)
  (p : string) : Prop :=
  forall rest,
    respects (Some dquote) rest -> scan None (p ++ rest) = scan None rest.

(** The type names [infer_column_type] returns. *)
Definition sqlite_types : list string :=
  [SchemaBuilder.SQLITE_INTEGER; SchemaBuilder.SQLITE_REAL;
   SchemaBuilder.SQLITE_TEXT].

(** The text [SQLITE_EXPLAIN] puts before the query. *)
Definition explain_prefix : string := "EXPLAIN QUERY PLAN ".

(** A character that opens neither a literal nor a comment. *)
Definition inert_char (c : ascii) : bool :=
  negb (is_quote c) && negb (Ascii.eqb c "-"%char)
  && negb (Ascii.eqb c "/"%char).

(** The statements run one after the other on the engine, each with no
    parameters, up to the first that raises: the results in order. *)
Fixpoint run_each (E : Env) (c : conn E) (statements : list string)
  : outcome (conn E * list ExecutionResult) :=
  match statements with
  | [] => Return (c, [])
  | stmt :: rest =>
      r <- execute_query E c stmt [] ;;
      let '(c', result) := r in
      rs <- run_each E c' rest ;;
      Return (fst rs, result :: snd rs)
  end.

(** The last element of a list. *)
Fixpoint last_opt {A : Type} (l : list A) : option A :=
  match l with
  | [] => None
  | x :: rest => first_some (last_opt rest) (Some x)
  end.

(** Of the results of a batch, the one that is reported: the last one typed
    SELECT, the last one when none is, the EMPTY result for no result. *)
Definition reported (results : list ExecutionResult) : ExecutionResult :=
  match first_some (last_opt (filter is_select results)) (last_opt results) with
  | Some result => result
  | None => empty_result
  end.

(* ================================================================== *)
(** ** Properties *)
(* ================================================================== *)

(** *** Strings *)

Lemma append_empty_r (s : string) : s ++ EmptyString = s.
Proof. induction s as [|c s IH]; simpl; [reflexivity | now rewrite IH]. Qed.

Lemma append_assoc (a b c : string) : (a ++ b) ++ c = a ++ (b ++ c).
Proof. induction a as [|x a IH]; simpl; [reflexivity | now rewrite IH]. Qed.

Lemma length_append (a b : string) :
  String.length (a ++ b) = String.length a + String.length b.
Proof. induction a as [|x a IH]; simpl; [reflexivity | now rewrite IH]. Qed.

Lemma startswith_append (p s : string) : startswith p (p ++ s) = true.
Proof.
  induction p as [|c p IH]; simpl; [reflexivity|].
  now rewrite Ascii.eqb_refl, IH.
Qed.

Lemma startswith_spec (p s : string) :
  startswith p s = true <-> exists t, s = p ++ t.
Proof.
  split.
  - revert s; induction p as [|c p IH]; intros s H.
    + now exists s.
    + destruct s as [|d s]; simpl in H; [discriminate|].
      apply andb_true_iff in H as [Hc Hs].
      apply Ascii.eqb_eq in Hc; subst d.
      destruct (IH _ Hs) as [t ->]. now exists t.
  - intros [t ->]. apply startswith_append.
Qed.

Lemma contains_here (sub s : string) :
  startswith sub s = true -> contains sub s = true.
Proof. intros H; destruct s; simpl in *; rewrite H; reflexivity. Qed.

Lemma contains_append_r (sub a b : string) :
  contains sub b = true -> contains sub (a ++ b) = true.
Proof.
  intros H; induction a as [|c a IH]; simpl; [exact H|].
  rewrite IH. apply orb_true_r.
Qed.

Lemma contains_spec (sub s : string) :
  contains sub s = true <-> exists a b, s = a ++ sub ++ b.
Proof.
  split.
  - induction s as [|c s IH]; simpl; intros H.
    + rewrite orb_false_r in H. apply startswith_spec in H as [t Ht].
      now exists EmptyString, t.
    + apply orb_true_iff in H as [H|H].
      * apply startswith_spec in H as [t Ht]. now exists EmptyString, t.
      * destruct (IH H) as (a & b & ->). now exists (String c a), b.
  - intros (a & b & ->). apply contains_append_r, contains_here,
      startswith_append.
Qed.

(** *** The tests of the repository, run on the model *)

Example test_parse_reference :
  parse_reference "Orders"
  = Return (mkRef "Orders" None (Some "Orders") None "orders")
  /\ parse_reference "Sheet1.Orders"
     = Return (mkRef "Sheet1.Orders" (Some "Sheet1") (Some "Orders") None
                 "sheet1_orders")
  /\ parse_reference "'Sheet Name'.Orders"
     = Return (mkRef "'Sheet Name'.Orders" (Some "Sheet Name") (Some "Orders")
                 None "sheet_name_orders")
  /\ parse_reference "A1:M100"
     = Return (mkRef "A1:M100" None None (Some "A1:M100") "a1_m100")
  /\ parse_reference "Sheet2!A1:B50"
     = Return (mkRef "Sheet2!A1:B50" (Some "Sheet2") None (Some "A1:B50")
                 "sheet2_a1_b50")
  /\ parse_reference "$A$1:$M$100"
     = Return (mkRef "$A$1:$M$100" None None (Some "$A$1:$M$100") "a_1_m_100")
  /\ parse_reference "'My Sheet'!A1:B10"
     = Return (mkRef "'My Sheet'!A1:B10" (Some "My Sheet") None (Some "A1:B10")
                 "my_sheet_a1_b10")
  /\ parse_reference (String dquote ("My Table" ++ String dquote EmptyString))
     = Return (mkRef (String dquote ("My Table" ++ String dquote EmptyString))
                 None (Some "My Table") None "my_table").
Proof. repeat split. Qed.

Example test_extract_table_references :
  map original (extract_table_references "SELECT * FROM Orders") = ["Orders"]
  /\ map original
       (extract_table_references
          "SELECT * FROM Orders JOIN Customers ON Orders.customer_id = Customers.id")
     = ["Orders"; "Customers"]
  /\ map original
       (extract_table_references
          "SELECT * FROM Sheet1.Orders JOIN Sheet2.Customers ON Orders.id = Customers.order_id")
     = ["Sheet1.Orders"; "Sheet2.Customers"]
  /\ map original
       (extract_table_references
          "UPDATE Orders SET status = 'completed' WHERE id = 1")
     = ["Orders"]
  /\ map original
       (extract_table_references
          "INSERT INTO Orders (customer_id, total) VALUES (1, 100.00)")
     = ["Orders"]
  /\ map original
       (extract_table_references
          "select * from Orders join Customers on Orders.id = Customers.order_id")
     = ["Orders"; "Customers"]
  /\ map original
       (extract_table_references
          "SELECT * FROM Orders WHERE status = 'FROM pending'")
     = ["Orders"].
Proof. repeat split. Qed.

Example test_count_parameters :
  count_parameters "SELECT * FROM Orders" = 0%Z
  /\ count_parameters "SELECT * FROM Orders WHERE id = ?" = 1%Z
  /\ count_parameters "SELECT * FROM Orders WHERE id = ? AND status = ?" = 2%Z
  /\ count_parameters "SELECT * FROM Orders WHERE note = 'What? Why?'" = 0%Z
  /\ count_parameters
       "SELECT * FROM Orders WHERE name = 'O''Brien' AND id = ?" = 1%Z
  /\ is_parameterized_query "SELECT * FROM Orders WHERE id = ?" = true
  /\ is_parameterized_query "SELECT * FROM Orders" = false.
Proof. repeat split. Qed.

Example test_split_statements :
  split_statements "SELECT * FROM t" = ["SELECT * FROM t"]
  /\ split_statements "SELECT 1; SELECT 2" = ["SELECT 1"; "SELECT 2"]
  /\ split_statements "SELECT 'a;b' FROM t" = ["SELECT 'a;b' FROM t"]
  /\ split_statements "SELECT 'it''s' FROM t" = ["SELECT 'it''s' FROM t"]
  /\ split_statements "SELECT 1; ; SELECT 2" = ["SELECT 1"; "SELECT 2"]
  /\ split_statements "SELECT 1;" = ["SELECT 1"]
  /\ split_statements "SELECT 'a;b'; SELECT 1" = ["SELECT 'a;b'"; "SELECT 1"].
Proof. repeat split. Qed.

Example test_detect_query_type :
  detect_query_type "SELECT * FROM t" = "SELECT"
  /\ detect_query_type "  SELECT * FROM t" = "SELECT"
  /\ detect_query_type "select * from t" = "SELECT"
  /\ detect_query_type "INSERT INTO t VALUES (1)" = "INSERT"
  /\ detect_query_type "UPDATE t SET x = 1" = "UPDATE"
  /\ detect_query_type "DELETE FROM t" = "DELETE"
  /\ detect_query_type "CREATE TABLE t (x INT)" = "CREATE"
  /\ detect_query_type "DROP TABLE t" = "DROP"
  /\ detect_query_type "PRAGMA table_info(t)" = "PRAGMA"
  /\ detect_query_type "EXPLAIN QUERY PLAN SELECT * FROM t" = "EXPLAIN"
  /\ detect_query_type "WITH cte AS (SELECT 1) SELECT * FROM cte" = "SELECT".
Proof. repeat split. Qed.

Example test_validate_headers :
  validate_headers [HStr "id"; HStr "name"; HStr "email"; HStr "age"]
  = Return ["id"; "name"; "email"; "age"]
  /\ validate_headers [HStr "id"; HStr "name"; HStr "ID"]
     = Raise (Excel (mkError DuplicateColumn "duplicate column name: ID"))
  /\ validate_headers [HStr "id"; HStr EmptyString; HStr "name"]
     = Raise (Excel (mkError EmptyColumnName
                       "column name cannot be empty (position 2)"))
  /\ validate_headers [HStr "id"; HNone; HStr "name"]
     = Raise (Excel (mkError EmptyColumnName
                       "column name cannot be empty (position 2)"))
  /\ validate_headers [HOther "1"; HOther "2"; HOther "3"; HStr "name"]
     = Return ["1"; "2"; "3"; "name"]
  /\ validate_headers [HStr "id"; HStr "name"; HStr "id"; HStr "email"]
     = Raise (Excel (mkError DuplicateColumn "duplicate column name: id"))
  /\ validate_headers [HStr "  id  "; HStr "name"; HStr "  email  "]
     = Return ["id"; "name"; "email"].
Proof. repeat split. Qed.

Example test_error_text :
  str_error (OutputLimitError 200000 100000)
  = "Error: result set too large: 200000 rows (limit: 100000). Use LIMIT clause to reduce output."
  /\ format_error_for_excel (Foreign OperationalError "no such table: foo")
     = "Error: no such table: foo"
  /\ format_error_for_excel
       (Foreign IntegrityError "UNIQUE constraint failed: t.id")
     = "Error: integrity error: UNIQUE constraint failed: t.id".
Proof. repeat split. Qed.

Example test_SQLITE_scenarios :
  SQLITE (Fixture.env Fixture.two_orders)
    "SELECT * FROM Orders WHERE CustomerID = ?" [VInt 101]
  = Frame (mkTable ["OrderID"; "CustomerID"; "Total"]
             [[VInt 1; VInt 101; VInt 150]; [VInt 3; VInt 101; VInt 75]])
  /\ SQLITE (Fixture.env Fixture.two_orders) "SELECT * FROM NoSuchThing" []
     = Text "Error: cannot resolve range: NoSuchThing (failed to resolve Excel reference: unknown reference NoSuchThing)"
  /\ SQLITE (Fixture.env Fixture.two_orders) EmptyString []
     = Text "Error: empty query".
Proof. repeat split. Qed.

(** *** C10: an empty row-producing result is shaped into an empty frame *)

(** C10.  For every execution result of a row-producing statement (SELECT,
    PRAGMA or EXPLAIN) that has zero rows, whatever its column names are,
    [format_result] returns the completely empty frame [pd.DataFrame()]:
    no columns and no rows. *)
Theorem format_result_drops_columns_of_empty_result :
  forall (E : Env) (result : ExecutionResult),
    row_producing (query_type result) = true ->
    columns result <> [] ->
    rows result = [] ->
    format_result E result = Return empty_frame
    /\ table_columns empty_frame = []
    /\ table_rows empty_frame = [].
Proof.
  intros E result Hkind _ Hrows.
  unfold format_result. rewrite Hrows. simpl is_nil. rewrite orb_true_r.
  assert (Hq : is_dml (query_type result) = false
               /\ is_ddl (query_type result) = false).
  { unfold row_producing in Hkind. simpl in Hkind.
    rewrite orb_false_r in Hkind.
    repeat (apply orb_true_iff in Hkind as [Hkind|Hkind]);
      apply String.eqb_eq in Hkind; rewrite Hkind; split; reflexivity. }
  destruct Hq as [-> ->]. repeat split.
Qed.

Lemma format_result_drops_columns_witness :
  format_result (Fixture.env Fixture.two_orders)
    (mkResult ["OrderID"; "Total"] [] 0%Z None "SELECT")
  = Return empty_frame
  /\ table_columns empty_frame = []
  /\ table_rows empty_frame = [].
Proof.
  apply (format_result_drops_columns_of_empty_result
           (Fixture.env Fixture.two_orders)
           (mkResult ["OrderID"; "Total"] [] 0%Z None "SELECT")).
  - reflexivity.
  - discriminate.
  - reflexivity.
Defined.

(** *** C1: the entry point returns a frame or an error text *)

(** C1.  For every environment, query and parameter tuple, [SQLITE] returns
    a value: the frame [_execute_sqlite] returned, or, for every exception
    it raised, the text "Error: " followed by the message of the canonical
    error of that exception. *)
Theorem SQLITE_returns_frame_or_error_text :
  forall (E : Env) (query : string) (params : list value),
    match SQLITE E query params with
    | Frame t => _execute_sqlite E query params = Return t
    | Text s =>
        exists e, _execute_sqlite E query params = Raise e
                  /\ s = "Error: " ++ message (canonical e)
                  /\ startswith "Error: " s = true
    end.
Proof.
  intros E query params. unfold SQLITE.
  destruct (_execute_sqlite E query params) as [t|[x|c text]].
  - reflexivity.
  - exists (Excel x). repeat split.
  - exists (Foreign c text). repeat split.
Qed.

(** *** C2: the parameter count *)

Lemma strip_empty : strip EmptyString = EmptyString.
Proof. reflexivity. Qed.

Lemma not_blank_nonempty (query : string) :
  nonempty (strip query) = true -> nonempty query = true.
Proof. destruct query; [discriminate | reflexivity]. Qed.

Lemma validate_call_not_blank (query : string) (params : list value) :
  nonempty (strip query) = true ->
  validate_call query params = check_parameter_count query params.
Proof.
  intros H. unfold validate_call.
  now rewrite (not_blank_nonempty _ H), H.
Qed.

(** C2 (as amended).  For every query that is not blank and every non-empty
    parameter tuple whose length differs from the number of placeholders
    counted in the query, in either direction, the invocation fails with a
    QuerySyntax error whose detail is "expected N parameters, got M", and
    [SQLITE] returns that detail after "Error: ". *)
Theorem parameter_count_mismatch_is_rejected :
  forall (E : Env) (query : string) (params : list value),
    nonempty (strip query) = true ->
    params <> [] ->
    len params <> count_parameters query ->
    _execute_sqlite E query params
    = Raise (Excel (mkError QuerySyntax
               (count_mismatch (count_parameters query) (len params))))
    /\ SQLITE E query params
       = Text ("Error: "
                 ++ count_mismatch (count_parameters query) (len params)).
Proof.
  intros E query params Hq Hp Hne.
  assert (H : _execute_sqlite E query params
              = Raise (Excel (mkError QuerySyntax
                  (count_mismatch (count_parameters query) (len params))))).
  { unfold _execute_sqlite, execution_result.
    rewrite (validate_call_not_blank _ _ Hq).
    unfold check_parameter_count.
    destruct params as [|p ps]; [contradiction|].
    fold (len (p :: ps)).
    destruct (Z.eqb_spec (len (p :: ps)) (count_parameters query)) as [He|_];
      [contradiction|].
    reflexivity. }
  split; [exact H|].
  unfold SQLITE. rewrite H. reflexivity.
Qed.

Lemma parameter_count_mismatch_witness :
  _execute_sqlite (Fixture.env Fixture.two_orders)
    "SELECT * FROM Orders WHERE CustomerID = ?" [VInt 101; VInt 102]
  = Raise (Excel (mkError QuerySyntax "expected 1 parameters, got 2"))
  /\ SQLITE (Fixture.env Fixture.two_orders)
       "SELECT * FROM Orders WHERE CustomerID = ?" [VInt 101; VInt 102]
     = Text "Error: expected 1 parameters, got 2".
Proof.
  apply (parameter_count_mismatch_is_rejected
           (Fixture.env Fixture.two_orders)
           "SELECT * FROM Orders WHERE CustomerID = ?" [VInt 101; VInt 102]).
  - reflexivity.
  - discriminate.
  - vm_compute. discriminate.
Defined.

(** C2 as stated fails in two places.  With an empty tuple the count is not
    checked: the query has one placeholder and no parameter, the check
    returns, and the failure is the engine's binding error.  A blank query
    with one parameter fails as an empty query, not as a count mismatch. *)
Lemma parameter_count_unchecked_without_params :
  count_parameters "SELECT * FROM Orders WHERE CustomerID = ?" = 1%Z
  /\ len (@nil value) = 0%Z
  /\ check_parameter_count "SELECT * FROM Orders WHERE CustomerID = ?" []
     = Return tt
  /\ SQLITE (Fixture.env Fixture.two_orders)
       "SELECT * FROM Orders WHERE CustomerID = ?" []
     = Text "Error: programming error: Incorrect number of bindings supplied. The current statement uses 1, and there are 0 supplied."
  /\ count_parameters "   " = 0%Z
  /\ SQLITE (Fixture.env Fixture.two_orders) "   " [VInt 101]
     = Text "Error: empty query".
Proof. repeat split. Qed.

(** *** C6: the hard output limits *)

Lemma hard_limit_warning (result : ExecutionResult) :
  (len (rows result) > EXCEL_MAX_ROWS
   \/ len (columns result) > EXCEL_MAX_COLS)%Z ->
  check_output_limits result = Some (hard_limit_text result).
Proof.
  intros H. unfold check_output_limits, hard_limit_text, len,
    EXCEL_MAX_ROWS, EXCEL_MAX_COLS in *.
  destruct (Z.gtb_spec (Z.of_nat (List.length (rows result))) 1048576)
    as [Hr|Hr]; [reflexivity|].
  destruct (Z.gtb_spec (Z.of_nat (List.length (columns result))) 16384)
    as [Hc|Hc]; [reflexivity|lia].
Qed.

Lemma hard_limit_text_exceeding (result : ExecutionResult) :
  nonempty (hard_limit_text result) = true
  /\ contains "exceeding" (hard_limit_text result) = true.
Proof.
  unfold hard_limit_text.
  destruct (len (rows result) >? 1048576)%Z; (split; [reflexivity|]).
  - apply (contains_append_r "exceeding" "Result has ").
    apply contains_append_r.
    apply (contains_append_r "exceeding" " rows, ").
    reflexivity.
  - apply (contains_append_r "exceeding" "Result has ").
    apply contains_append_r.
    apply (contains_append_r "exceeding" " columns, ").
    reflexivity.
Qed.

Lemma shape_stage_over_limit (E : Env) (result : ExecutionResult) :
  (len (rows result) > EXCEL_MAX_ROWS
   \/ len (columns result) > EXCEL_MAX_COLS)%Z ->
  shape_stage E result
  = Raise (Excel (mkError SQLiteExcel (hard_limit_text result))).
Proof.
  intros H. unfold shape_stage. rewrite (hard_limit_warning _ H).
  destruct (hard_limit_text_exceeding result) as [-> ->]. reflexivity.
Qed.

(** C6 (as amended).  If the execution result has more than 1,048,576 rows
    or more than 16,384 columns, the invocation fails and no frame is
    returned: [_execute_sqlite] raises the base error with the text of
    [check_output_limits], and [SQLITE] returns "Error: Result has <n> rows,
    exceeding Excel's limit of 1,048,576. Use LIMIT clause to reduce
    output." with <n> grouped in thousands, or, when only the columns are
    too many, "Error: Result has <n> columns, exceeding Excel's limit of
    16,384.". *)
Theorem output_over_hard_limit_fails :
  forall (E : Env) (query : string) (params : list value)
         (result : ExecutionResult),
    execution_result E query params = Return result ->
    (len (rows result) > EXCEL_MAX_ROWS
     \/ len (columns result) > EXCEL_MAX_COLS)%Z ->
    _execute_sqlite E query params
    = Raise (Excel (mkError SQLiteExcel (hard_limit_text result)))
    /\ SQLITE E query params = Text ("Error: " ++ hard_limit_text result)
    /\ (forall t, SQLITE E query params <> Frame t).
Proof.
  intros E query params result Hrun Hover.
  assert (H : _execute_sqlite E query params
              = Raise (Excel (mkError SQLiteExcel (hard_limit_text result)))).
  { unfold _execute_sqlite. rewrite Hrun. simpl.
    apply shape_stage_over_limit, Hover. }
  assert (HS : SQLITE E query params = Text ("Error: " ++ hard_limit_text result)).
  { unfold SQLITE. rewrite H. reflexivity. }
  repeat split; [exact H | exact HS |].
  intros t Ht. rewrite HS in Ht. discriminate.
Qed.

Lemma output_over_hard_limit_witness :
  _execute_sqlite (Fixture.env Fixture.too_wide) "SELECT * FROM Orders" []
  = Raise (Excel (mkError SQLiteExcel
      "Result has 16,385 columns, exceeding Excel's limit of 16,384."))
  /\ SQLITE (Fixture.env Fixture.too_wide) "SELECT * FROM Orders" []
     = Text "Error: Result has 16,385 columns, exceeding Excel's limit of 16,384."
  /\ (forall t, SQLITE (Fixture.env Fixture.too_wide) "SELECT * FROM Orders" []
                <> Frame t).
Proof.
  apply (output_over_hard_limit_fails
           (Fixture.env Fixture.too_wide) "SELECT * FROM Orders" []
           (mkResult (repeat "c" (Z.to_nat 16385)) [] 0%Z None "SELECT")).
  - vm_compute. reflexivity.
  - right. vm_compute. reflexivity.
Defined.

(** C6 as stated fails on the rendering and on the error kind: a result of
    1,048,577 rows fails with the base error, and the text returned is not
    the one of [OutputLimitError]. *)
Lemma output_limit_text_is_not_canonical :
  _execute_sqlite (Fixture.env Fixture.too_long) "SELECT * FROM Orders" []
  = Raise (Excel (mkError SQLiteExcel
      "Result has 1,048,577 rows, exceeding Excel's limit of 1,048,576. Use LIMIT clause to reduce output."))
  /\ SQLITE (Fixture.env Fixture.too_long) "SELECT * FROM Orders" []
     = Text "Error: Result has 1,048,577 rows, exceeding Excel's limit of 1,048,576. Use LIMIT clause to reduce output."
  /\ str_error (OutputLimitError 1048577 EXCEL_MAX_ROWS)
     = "Error: result set too large: 1048577 rows (limit: 1048576). Use LIMIT clause to reduce output."
  /\ SQLITE (Fixture.env Fixture.too_long) "SELECT * FROM Orders" []
     <> Text (str_error (OutputLimitError 1048577 EXCEL_MAX_ROWS)).
Proof.
  repeat split; try (vm_compute; reflexivity).
  vm_compute. discriminate.
Qed.

(** *** C8: detect_query_type *)

Lemma prefixes_comparable (p p' s : string) :
  startswith p s = true -> startswith p' s = true ->
  startswith p p' = true \/ startswith p' p = true.
Proof.
  revert p' s; induction p as [|a p IH]; intros p' s Hp Hp'.
  - now left.
  - destruct p' as [|b p']; [now right|].
    destruct s as [|c s]; simpl in Hp, Hp'; [discriminate|].
    apply andb_true_iff in Hp as [Ha Hp].
    apply andb_true_iff in Hp' as [Hb Hp'].
    apply Ascii.eqb_eq in Ha, Hb. subst a b. simpl.
    rewrite Ascii.eqb_refl. simpl. eapply IH; eassumption.
Qed.

Lemma statement_keywords_apart (k k' : string) :
  In k statement_keywords -> In k' statement_keywords ->
  startswith k k' = true \/ startswith k' k = true -> k = k'.
Proof.
  unfold statement_keywords; simpl. intros Hk Hk' H.
  repeat (destruct Hk as [Hk|Hk]; [subst k|]); try contradiction;
    repeat (destruct Hk' as [Hk'|Hk']; [subst k'|]); try contradiction;
    try reflexivity; destruct H as [H|H]; vm_compute in H; discriminate.
Qed.

Lemma startswith_first_word (k s : string) :
  all_chars isword k = true ->
  startswith k (first_word s) = startswith k s.
Proof.
  unfold first_word. revert s.
  induction k as [|a k IH]; intros s Hk; [reflexivity|].
  cbn [all_chars] in Hk. apply andb_true_iff in Hk as [Ha Hk].
  destruct s as [|b s]; [reflexivity|].
  cbn [span_length]. destruct (isword b) eqn:Hb.
  - cbn [take startswith]. now rewrite (IH s Hk).
  - cbn [take startswith].
    destruct (Ascii.eqb_spec a b) as [->|_]; [congruence | reflexivity].
Qed.

Lemma statement_keywords_words (k : string) :
  In k ("WITH" :: statement_keywords) -> all_chars isword k = true.
Proof.
  unfold statement_keywords; simpl. intros H.
  repeat (destruct H as [<-|H]; [reflexivity|]). contradiction.
Qed.

Lemma starts_first_word (k s : string) :
  In k ("WITH" :: statement_keywords) ->
  first_word s = k -> startswith k s = true.
Proof.
  intros Hk Hw.
  rewrite <- (startswith_first_word k s (statement_keywords_words k Hk)), Hw.
  rewrite <- (append_empty_r k) at 2. apply startswith_append.
Qed.

Lemma detect_query_type_keyword (query k : string) :
  startswith "WITH" (upper (strip query)) = false ->
  In k statement_keywords ->
  startswith k (upper (strip query)) = true ->
  detect_query_type query = k.
Proof.
  intros Hw Hk Hs. unfold detect_query_type. rewrite Hw.
  destruct (find (fun keyword => startswith keyword (upper (strip query)))
              statement_keywords) as [k'|] eqn:Hf.
  - apply find_some in Hf as [Hin Hk'].
    symmetry. apply statement_keywords_apart; try assumption.
    eapply prefixes_comparable; eassumption.
  - apply (find_none _ _ Hf) in Hk. simpl in Hk. congruence.
Qed.

(** C8 (as amended).  Let [s] be the statement trimmed and upper-cased.
    When the first word of [s] is WITH, [detect_query_type] returns SELECT
    if SELECT occurs anywhere in [s] and OTHER if it does not.  When the
    first word of [s] is one of the recognized kinds (SELECT, INSERT,
    UPDATE, DELETE, CREATE, DROP, PRAGMA, EXPLAIN), it returns that word.
    It returns OTHER when the first word begins with none of WITH and the
    recognized kinds. *)
Theorem detect_query_type_by_first_word :
  forall query : string,
    let s := upper (strip query) in
    (first_word s = "WITH" ->
       (occurs "SELECT" s -> detect_query_type query = "SELECT")
       /\ (~ occurs "SELECT" s -> detect_query_type query = "OTHER"))
    /\ (forall k, In k statement_keywords -> first_word s = k ->
                   detect_query_type query = k)
    /\ ((forall k, In k ("WITH" :: statement_keywords) ->
                    ~ starts k (first_word s)) ->
         detect_query_type query = "OTHER").
Proof.
  intros query s. refine (conj _ (conj _ _)).
  - intros Hw.
    assert (Hs : startswith "WITH" s = true)
      by (apply starts_first_word; [now left | exact Hw]).
    unfold detect_query_type. fold s. rewrite Hs. split; intros Hc.
    + apply contains_spec in Hc. now rewrite Hc.
    + destruct (contains "SELECT" s) eqn:Hc'; [|reflexivity].
      apply contains_spec in Hc'. contradiction.
  - intros k Hk Hw.
    assert (Hs : startswith k s = true)
      by (apply starts_first_word; [now right | exact Hw]).
    apply detect_query_type_keyword; [|exact Hk | exact Hs].
    change (startswith "WITH" s = false).
    destruct (startswith "WITH" s) eqn:Hwith; [|reflexivity].
    exfalso.
    assert (Hcmp : startswith k "WITH" = true \/ startswith "WITH" k = true)
      by (eapply prefixes_comparable; eassumption).
    revert Hcmp. clear - Hk. unfold statement_keywords in Hk. simpl in Hk.
    repeat (destruct Hk as [<-|Hk]; [vm_compute; intuition discriminate|]).
    contradiction.
  - intros Hnone.
    assert (Hno : forall k, In k ("WITH" :: statement_keywords) ->
                            startswith k s = false).
    { intros k Hk. destruct (startswith k s) eqn:Hs; [|reflexivity].
      exfalso. apply (Hnone k Hk). apply startswith_spec.
      now rewrite (startswith_first_word k s (statement_keywords_words k Hk)). }
    unfold detect_query_type. fold s. rewrite (Hno "WITH") by now left.
    destruct (find (fun keyword => startswith keyword s) statement_keywords)
      as [k'|] eqn:Hf; [|reflexivity].
    apply find_some in Hf as [Hin Hk'].
    rewrite (Hno k') in Hk' by now right. discriminate.
Qed.

Lemma detect_query_type_by_first_word_witness :
  detect_query_type "WITH cte AS (SELECT 1) SELECT * FROM cte" = "SELECT"
  /\ detect_query_type "  update t set x = 1" = "UPDATE".
Proof.
  split.
  - apply (proj1 (detect_query_type_by_first_word
                    "WITH cte AS (SELECT 1) SELECT * FROM cte")).
    + reflexivity.
    + now exists "WITH CTE AS (", " 1) SELECT * FROM CTE".
  - apply (proj1 (proj2 (detect_query_type_by_first_word
                           "  update t set x = 1"))).
    + simpl. tauto.
    + reflexivity.
Defined.

(** C8 as stated fails in two places.  For a CTE followed by DELETE the
    first word is WITH, DELETE is the only one of SELECT, INSERT, UPDATE and
    DELETE that occurs, and the answer is OTHER.  And a first word that is
    no recognized kind does not always give OTHER: SELECTED is answered
    SELECT, the first word being compared by its beginning. *)
Lemma detect_query_type_cte_delete_is_other :
  first_word (upper (strip cte_delete_query)) = "WITH"
  /\ contains "SELECT" (upper (strip cte_delete_query)) = false
  /\ contains "INSERT" (upper (strip cte_delete_query)) = false
  /\ contains "UPDATE" (upper (strip cte_delete_query)) = false
  /\ contains "DELETE" (upper (strip cte_delete_query)) = true
  /\ detect_query_type cte_delete_query = "OTHER"
  /\ detect_query_type cte_delete_query <> "DELETE"
  /\ first_word (upper (strip "SELECTED rows")) = "SELECTED"
  /\ ~ In "SELECTED" ("WITH" :: statement_keywords)
  /\ detect_query_type "SELECTED rows" = "SELECT".
Proof.
  repeat split; try (vm_compute; discriminate).
  vm_compute. intuition discriminate.
Qed.

(** *** C7: header validation *)

Local Open Scope list_scope.

Lemma nonempty_false (s : string) : nonempty s = false <-> s = EmptyString.
Proof. destruct s; simpl; split; congruence. Qed.

Lemma is_blank_empty (h : header) : is_blank h = true -> entry_empty h.
Proof.
  destruct h as [|s|t]; simpl; intros H.
  - now left.
  - right. unfold entry_name. simpl.
    apply negb_true_iff in H. now apply nonempty_false.
  - discriminate.
Qed.

Lemma entry_empty_dec (h : header) :
  entry_empty h <->
  is_blank h = true \/ nonempty (entry_name h) = false.
Proof.
  split.
  - intros [->|H]; [now left|]. right. now apply nonempty_false.
  - intros [H|H]; [now apply is_blank_empty|].
    right. now apply nonempty_false.
Qed.

Lemma seen_has_cons (x k v : string) (seen : list (string * string)) :
  seen_has x ((k, v) :: seen) = true <-> k = x \/ seen_has x seen = true.
Proof.
  unfold seen_has. simpl. rewrite orb_true_iff, String.eqb_eq. tauto.
Qed.

Lemma acceptable_snoc (before : list header) (h : header) :
  acceptable before -> ~ entry_empty h ->
  ~ In (folded_name h) (map folded_name before) ->
  acceptable (before ++ [h]).
Proof.
  intros [Hne Hnd] Hh Hin. split.
  - apply Forall_app. split; [assumption | now constructor].
  - rewrite map_app. simpl.
    apply NoDup_rev in Hnd.
    assert (Hr : NoDup (folded_name h :: rev (map folded_name before))).
    { constructor; [|assumption]. now rewrite <- in_rev. }
    apply NoDup_rev in Hr. simpl in Hr. now rewrite rev_involutive in Hr.
Qed.

Lemma acceptable_middle (before after : list header) (h : header) :
  acceptable (before ++ h :: after) ->
  ~ entry_empty h /\ ~ In (folded_name h) (map folded_name before).
Proof.
  intros [Hne Hnd]. split.
  - apply Forall_app in Hne as [_ Hne]. now inversion Hne.
  - rewrite map_app in Hnd. simpl in Hnd.
    apply NoDup_remove_2 in Hnd. intros Hin. apply Hnd.
    apply in_or_app. now left.
Qed.

Lemma validate_headers_loop_spec (hs : list header) :
  forall before i validated seen,
    loop_state before i validated seen ->
    match validate_headers_loop i validated seen hs with
    | Return names =>
        acceptable (before ++ hs) /\ names = map entry_name (before ++ hs)
    | Raise e =>
        exists mid h after,
          hs = mid ++ h :: after
          /\ acceptable (before ++ mid)
          /\ rejected_at (before ++ mid) h e
    end.
Proof.
  induction hs as [|h hs IH]; intros before i validated seen
    (Hi & Hv & Hseen & Hacc).
  - simpl. rewrite app_nil_r. now split.
  - simpl.
    destruct (is_blank h) eqn:Hb.
    { exists [], h, hs. rewrite app_nil_r.
      refine (conj eq_refl (conj Hacc _)).
      left. split; [now apply is_blank_empty | now subst i]. }
    fold (entry_name h).
    destruct (nonempty (entry_name h)) eqn:Hn; simpl.
    2:{ exists [], h, hs. rewrite app_nil_r.
        refine (conj eq_refl (conj Hacc _)).
        left. split; [right; now apply nonempty_false | now subst i]. }
    assert (Hne : ~ entry_empty h).
    { intros He. apply entry_empty_dec in He as [He|He]; congruence. }
    fold (folded_name h).
    destruct (seen_has (folded_name h) seen) eqn:Hs.
    { exists [], h, hs. rewrite app_nil_r.
      refine (conj eq_refl (conj Hacc _)).
      right. refine (conj Hne (conj _ eq_refl)).
      apply Hseen in Hs. apply in_map_iff in Hs as (a & Ha & Hin).
      now exists a. }
    assert (Hfresh : ~ In (folded_name h) (map folded_name before)).
    { intros Hin. apply Hseen in Hin. congruence. }
    specialize (IH (before ++ [h]) (i + 1)%Z
                  (validated ++ [entry_name h])
                  ((folded_name h, entry_name h) :: seen)).
    assert (Hst : loop_state (before ++ [h]) (i + 1)
                    (validated ++ [entry_name h])
                    ((folded_name h, entry_name h) :: seen)).
    { refine (conj _ (conj _ (conj _ (acceptable_snoc _ _ Hacc Hne Hfresh)))).
      - subst i. unfold len. rewrite length_app. simpl. lia.
      - subst validated. now rewrite map_app.
      - intros x. rewrite seen_has_cons, map_app, in_app_iff, Hseen.
        simpl. tauto. }
    specialize (IH Hst).
    destruct (validate_headers_loop (i + 1) (validated ++ [entry_name h])
                ((folded_name h, entry_name h) :: seen) hs) as [names|e].
    + now rewrite <- app_assoc in IH.
    + destruct IH as (mid & g & after & -> & Hmid & Hrej).
      exists (h :: mid), g, after.
      rewrite <- app_assoc in Hmid, Hrej.
      exact (conj eq_refl (conj Hmid Hrej)).
Qed.

Lemma loop_state_initial : loop_state [] 0 [] [].
Proof.
  refine (conj eq_refl (conj eq_refl (conj _ (conj _ _)))).
  - intros x. simpl. split; [discriminate | contradiction].
  - constructor.
  - constructor.
Qed.

(** C7.  [validate_headers] accepts a header list exactly when no entry is
    empty (null, or empty once stringified and trimmed) and no two entries
    have the same trimmed name up to letter case; it then returns the
    trimmed names.  When it rejects, the error is about the first entry that
    breaks one of the two rules, every entry before it passing: an
    EmptyColumnName error carrying the 1-based position of that entry, or a
    DuplicateColumn error naming that entry, the repeat, as it is written
    (trimmed, in its own casing). *)
Theorem validate_headers_accepts_iff_acceptable :
  forall hs : list header,
    (forall names,
        validate_headers hs = Return names
        <-> acceptable hs /\ names = map entry_name hs)
    /\ (forall e,
           validate_headers hs = Raise e ->
           exists before h after,
             hs = before ++ h :: after
             /\ acceptable before
             /\ rejected_at before h e).
Proof.
  intros hs.
  pose proof (validate_headers_loop_spec hs [] 0%Z [] [] loop_state_initial)
    as H.
  unfold validate_headers. simpl in H.
  destruct (validate_headers_loop 0 [] [] hs) as [names|e].
  - destruct H as [Hacc Hnames]. split.
    + intros names'. split.
      * intros Heq. injection Heq as <-. now split.
      * intros [_ ->]. now rewrite Hnames.
    + intros e He. discriminate.
  - destruct H as (mid & h & after & Hhs & Hmid & Hrej). split.
    + intros names. split; [discriminate|].
      intros [Hacc _]. exfalso. subst hs.
      apply acceptable_middle in Hacc as [Hne Hfresh].
      destruct Hrej as [[He _]|(_ & (a & Ha & Hsame) & _)];
        [contradiction|].
      apply Hfresh. rewrite <- Hsame. now apply in_map.
    + intros e' He. injection He as <-. now exists mid, h, after.
Qed.

Lemma validate_headers_accepts_witness :
  validate_headers [HStr "id"; HStr " Name "; HOther "3"]
  = Return ["id"; "Name"; "3"].
Proof.
  apply (proj1 (validate_headers_accepts_iff_acceptable
                  [HStr "id"; HStr " Name "; HOther "3"])).
  split; [|reflexivity]. split.
  - repeat constructor; intros [H|H]; discriminate.
  - vm_compute. repeat constructor; simpl; intuition discriminate.
Defined.

(** Scenario 6 of the specification: the header row id, Name, NAME is
    rejected for its third entry, in that entry's casing. *)
Lemma validate_headers_duplicate_example :
  validate_headers [HStr "id"; HStr "Name"; HStr "NAME"]
  = Raise (Excel (DuplicateColumnError "NAME"))
  /\ str_error (DuplicateColumnError "NAME")
     = "Error: duplicate column name: NAME"
  /\ validate_headers [HStr "id"; HStr "  "; HStr "id"]
     = Raise (Excel (EmptyColumnNameError (Some 2%Z))).
Proof. repeat split. Qed.

Local Open Scope string_scope.

(** *** C3: the dispatch between one statement and several *)

Lemma dispatch_iff_semicolon (query : string) :
  dispatch query = MultipleStatements <-> occurs ";" query.
Proof.
  unfold dispatch, occurs. rewrite <- contains_spec.
  destruct (contains ";" query); split; congruence.
Qed.

Lemma contains_tail (sub : string) (c : ascii) (s : string) :
  contains sub s = true -> contains sub (String c s) = true.
Proof. intros H. simpl. rewrite H. apply orb_true_r. Qed.

Lemma semicolon_outside_literals_contains (n : nat) :
  forall (st : option ascii) (sql : string),
    (String.length sql <= n)%nat ->
    semicolon_outside_literals_loop st sql = true ->
    contains ";" sql = true.
Proof.
  induction n as [|n IH]; intros st sql Hlen H.
  - destruct sql; [discriminate | simpl in Hlen; lia].
  - destruct sql as [|c rest]; [discriminate|].
    simpl in Hlen. simpl in H.
    destruct st as [q|].
    + destruct (Ascii.eqb c q).
      * destruct rest as [|d rest']; [discriminate|].
        apply contains_tail.
        destruct (Ascii.eqb d q).
        -- apply contains_tail. apply (IH (Some q)); [simpl in Hlen; lia | exact H].
        -- apply (IH None); [lia | exact H].
      * apply contains_tail. apply (IH (Some q)); [lia | exact H].
    + destruct (is_quote c).
      * apply contains_tail. apply (IH (Some c)); [lia | exact H].
      * destruct (Ascii.eqb_spec c ";"%char) as [->|_]; [reflexivity|].
        apply contains_tail. apply (IH None); [lia | exact H].
Qed.

(** The direction of C3 that holds: a semicolon outside string literals
    sends the query to multi-statement execution. *)
Lemma semicolon_outside_literals_dispatches (query : string) :
  semicolon_outside_literals query = true ->
  dispatch query = MultipleStatements.
Proof.
  intros H. unfold dispatch.
  now rewrite (semicolon_outside_literals_contains _ None query (le_n _) H).
Qed.

Lemma push_append (current : string) (c : ascii) (rest : string) :
  push current c ++ rest = current ++ String c rest.
Proof. unfold push. now rewrite append_assoc. Qed.

Lemma split_without_outside_semicolon (n : nat) :
  forall (st : option ascii) (sql : string) statements current,
    (String.length sql <= n)%nat ->
    semicolon_outside_literals_loop st sql = false ->
    split_statements_loop statements current st sql
    = flush statements (current ++ sql).
Proof.
  induction n as [|n IH]; intros st sql statements current Hlen H.
  - destruct sql; [|simpl in Hlen; lia]. simpl. now rewrite append_empty_r.
  - destruct sql as [|c rest]; [simpl; now rewrite append_empty_r|].
    simpl in Hlen. simpl in H. simpl.
    destruct st as [q|].
    + destruct (Ascii.eqb_spec c q) as [->|Hc].
      * destruct rest as [|d rest'].
        -- simpl. reflexivity.
        -- destruct (Ascii.eqb_spec d q) as [->|Hd].
           ++ rewrite (IH (Some q) rest'); [|simpl in Hlen; lia | exact H].
              now rewrite !push_append.
           ++ rewrite (IH None (String d rest')); [|lia | exact H].
              now rewrite push_append.
      * rewrite (IH (Some q) rest); [|lia | exact H].
        now rewrite push_append.
    + destruct (is_quote c).
      * rewrite (IH (Some c) rest); [|lia | exact H].
        now rewrite push_append.
      * destruct (Ascii.eqb c ";"%char); [discriminate|].
        rewrite (IH None rest); [|lia | exact H].
        now rewrite push_append.
Qed.

(** The notion of a semicolon outside literals is the one of
    [split_statements]: without such a semicolon the query is one statement
    at most, itself trimmed. *)
Lemma no_outside_semicolon_one_statement (query : string) :
  semicolon_outside_literals query = false ->
  split_statements query = flush [] query.
Proof.
  intros H. unfold split_statements.
  now rewrite (split_without_outside_semicolon _ None query [] EmptyString
                 (le_n _) H).
Qed.

(** C3, the failing input.  The only semicolon of the query lies inside a
    string literal and [split_statements] sees one statement, yet the
    dispatch takes the multi-statement branch; the parameter is not bound
    and the engine rejects the statement, where the single-statement branch
    returns the rows. *)
Lemma dispatch_counts_semicolon_inside_literal :
  semicolon_outside_literals literal_semicolon_query = false
  /\ split_statements literal_semicolon_query = [literal_semicolon_query]
  /\ dispatch literal_semicolon_query = MultipleStatements
  /\ SQLITE (Fixture.env Fixture.two_orders) literal_semicolon_query
       [VInt 101]
     = Text "Error: programming error: Incorrect number of bindings supplied. The current statement uses 1, and there are 0 supplied."
  /\ (r <- execute_query (Fixture.env Fixture.two_orders) tt
             (substitute_references literal_semicolon_query
                [("Orders", "orders")]) [VInt 101] ;;
      shape_stage (Fixture.env Fixture.two_orders) (snd r))
     = Return (mkTable ["OrderID"; "CustomerID"; "Total"]
                 [[VInt 1; VInt 101; VInt 150]; [VInt 3; VInt 101; VInt 75]]).
Proof. repeat split. Qed.

(** *** C5: literals and comments in reference extraction *)

(** C5, the failing inputs.  In each query a comment holds an apostrophe.
    [_remove_string_literals] runs before [_remove_comments] and takes the
    apostrophe for the start of a literal, so the text up to the next quote
    is blanked, comment markers included, and what follows is scanned as
    code.  The reference Archive is extracted although it stands inside a
    string literal (first query), a single-line comment (second) or a block
    comment (third); on the search projection of the specification the same
    loops find Orders alone. *)
Lemma extraction_reads_literals_and_comments :
  map original (extract_table_references apostrophe_then_literal)
  = ["Archive"]
  /\ references_in (search_projection apostrophe_then_literal) = ["Orders"]
  /\ map original (extract_table_references apostrophe_then_line_comment)
     = ["Archive"]
  /\ references_in (search_projection apostrophe_then_line_comment)
     = ["Orders"]
  /\ map original (extract_table_references apostrophe_then_block_comment)
     = ["Orders"; "Archive"]
  /\ references_in (search_projection apostrophe_then_block_comment)
     = ["Orders"]
  /\ contains "Archive" (search_projection apostrophe_then_literal) = false
  /\ contains "Archive" (search_projection apostrophe_then_line_comment)
     = false
  /\ contains "Archive" (search_projection apostrophe_then_block_comment)
     = false.
Proof. repeat split. Qed.

(** The tests of the repository, for comparison: without an apostrophe in a
    comment, comments and literals contribute nothing. *)
Lemma extraction_skips_plain_comments_and_literals :
  map original
    (extract_table_references
       ("-- This is a comment with FROM keyword" ++ String newline
        "SELECT * FROM Orders" ++ String newline
        "/* Another comment" ++ String newline
        "   with FROM in it */" ++ String newline
        "WHERE status = 'active'"))
  = ["Orders"]
  /\ map original
       (extract_table_references
          "SELECT * FROM Orders WHERE note = 'JOIN the team'")
     = ["Orders"].
Proof. repeat split. Qed.

(** *** C9: uniqueness of the extracted references *)

Local Open Scope list_scope.

Lemma ident_char_not_space (c : ascii) :
  ident_char c = true -> isspace c = false.
Proof.
  destruct c as [[] [] [] [] [] [] [] []]; vm_compute; congruence.
Qed.

Lemma is_quote_not_space (c : ascii) : is_quote c = true -> isspace c = false.
Proof.
  destruct c as [[] [] [] [] [] [] [] []]; vm_compute; congruence.
Qed.

Lemma tight_strip (t : string) : tight t -> strip t = t.
Proof. intros [Hl Hr]. unfold strip, strip_by. now rewrite Hl. Qed.

Lemma head_ok_lstrip (t : string) : head_ok t -> lstrip_by isspace t = t.
Proof. destruct t as [|c r]; simpl; [tauto | now intros ->]. Qed.

Lemma head_ok_append (a b : string) : head_ok a -> head_ok (a ++ b)%string.
Proof. destruct a; simpl; tauto. Qed.

Lemma head_tail_tight (t : string) : head_ok t -> tail_ok t -> tight t.
Proof. intros Hh Ht. split; [now apply head_ok_lstrip | exact Ht]. Qed.

Lemma tail_ok_append (p : ascii -> bool) (a b : string) :
  rstrip_by p b = b -> b <> EmptyString ->
  rstrip_by p (a ++ b)%string = (a ++ b)%string.
Proof.
  intros Hb Hne. induction a as [|c a IH]; simpl; [exact Hb|].
  rewrite IH. destruct (a ++ b)%string eqn:Hab; [|reflexivity].
  destruct a; simpl in Hab; [contradiction | discriminate].
Qed.

Lemma tail_ok_single (p : ascii -> bool) (c : ascii) :
  p c = false -> rstrip_by p (String c EmptyString) = String c EmptyString.
Proof. intros H. simpl. now rewrite H. Qed.

Lemma tail_ok_snoc (p : ascii -> bool) (a : string) (c : ascii) :
  p c = false ->
  rstrip_by p (a ++ String c EmptyString)%string
  = (a ++ String c EmptyString)%string.
Proof.
  intros H. apply tail_ok_append; [now apply tail_ok_single | discriminate].
Qed.

Lemma rstrip_idempotent (p : ascii -> bool) (s : string) :
  rstrip_by p (rstrip_by p s) = rstrip_by p s.
Proof.
  induction s as [|c r IH]; [reflexivity|].
  simpl. destruct (rstrip_by p r) as [|d t] eqn:Hr.
  - destruct (p c) eqn:Hc; [reflexivity|]. simpl. now rewrite Hc.
  - change (rstrip_by p (String c (String d t)))
      with (match rstrip_by p (String d t) with
            | EmptyString => if p c then EmptyString else String c EmptyString
            | String d' t' => String c (String d' t')
            end).
    now rewrite IH.
Qed.

Lemma rstrip_keeps_head (p : ascii -> bool) (c : ascii) (r : string) :
  p c = false -> exists r', rstrip_by p (String c r) = String c r'.
Proof.
  intros H. simpl. destruct (rstrip_by p r) as [|d t].
  - rewrite H. now exists EmptyString.
  - now exists (String d t).
Qed.

Lemma lstrip_head (p : ascii -> bool) (s : string) :
  lstrip_by p s = EmptyString
  \/ exists c r, lstrip_by p s = String c r /\ p c = false.
Proof.
  induction s as [|c r IH]; [now left|].
  simpl. destruct (p c) eqn:Hc; [exact IH|].
  right. now exists c, r.
Qed.

Lemma strip_tight (s : string) : tight (strip s).
Proof.
  unfold strip, strip_by. split; [|apply rstrip_idempotent].
  destruct (lstrip_head isspace s) as [->|(c & r & -> & Hc)]; [reflexivity|].
  destruct (rstrip_keeps_head isspace c r Hc) as [r' ->].
  simpl. now rewrite Hc.
Qed.

(** The shapes of the texts that [_extract_identifier] returns. *)
Lemma quoted_run_ends (q : ascii) (n : nat) :
  forall s t,
    (String.length s <= n)%nat ->
    quoted_run q s = Some t ->
    exists t', t = (t' ++ String q EmptyString)%string.
Proof.
  induction n as [|n IH]; intros s t Hlen H.
  - destruct s; [discriminate | simpl in Hlen; lia].
  - destruct s as [|c r]; [discriminate|].
    simpl in Hlen. simpl in H.
    destruct (Ascii.eqb_spec c q) as [->|Hc].
    + destruct r as [|d r'].
      * injection H as <-. now exists EmptyString.
      * destruct (Ascii.eqb d q).
        -- destruct (quoted_run q r') as [u|] eqn:Hu; [|discriminate].
           injection H as <-.
           destruct (IH r' u ltac:(simpl in Hlen; lia) Hu) as [t' ->].
           now exists (String q (String d t')).
        -- injection H as <-. now exists EmptyString.
    + destruct (quoted_run q r) as [u|] eqn:Hu; [|discriminate].
      injection H as <-.
      destruct (IH r u ltac:(lia) Hu) as [t' ->].
      now exists (String c t').
Qed.

Lemma take_span_tail_ok (p : ascii -> bool) (s : string) :
  (forall c, p c = true -> isspace c = false) ->
  tail_ok (take (span_length p s) s).
Proof.
  intros Hp. unfold tail_ok. induction s as [|c r IH]; [reflexivity|].
  simpl. destruct (p c) eqn:Hc; [|reflexivity].
  simpl. rewrite IH.
  destruct (take (span_length p r) r); [|reflexivity].
  now rewrite (Hp c Hc).
Qed.

Lemma extract_identifier_shape (s t : string) :
  _extract_identifier s = Some t -> head_ok t /\ tail_ok t.
Proof.
  unfold _extract_identifier. destruct s as [|c r]; [discriminate|].
  destruct (is_quote c) eqn:Hq.
  - destruct (quoted_run c r) as [u|] eqn:Hu; [|discriminate].
    intros H. injection H as <-. split.
    + simpl. now apply is_quote_not_space.
    + destruct (quoted_run_ends c _ r u (le_n _) Hu) as [t' ->].
      apply (tail_ok_snoc isspace (String c t')).
      now apply is_quote_not_space.
  - destruct (span_length ident_char (String c r)) as [|n] eqn:Hn;
      [discriminate|].
    intros H. rewrite <- Hn in H. injection H as <-. split.
    + simpl in Hn. simpl. destruct (ident_char c) eqn:Hc; [|discriminate].
      simpl. now apply ident_char_not_space.
    + exact (take_span_tail_ok ident_char (String c r) ident_char_not_space).
Qed.

Lemma truthy_text_some (o : option string) (t : string) :
  truthy_text o = Some t -> o = Some t /\ t <> EmptyString.
Proof.
  destruct o as [u|]; simpl; [|discriminate].
  destruct u; simpl; [discriminate|].
  intros H. injection H as <-. split; [reflexivity | discriminate].
Qed.

Lemma find_char_take (c : ascii) (r : string) (k : nat) :
  find_char c r = Some k ->
  exists pre, take (S k) r = (pre ++ String c EmptyString)%string.
Proof.
  revert k; induction r as [|d r IH]; intros k H; [discriminate|].
  simpl in H. destruct (Ascii.eqb_spec d c) as [->|Hd].
  - injection H as <-. now exists EmptyString.
  - destruct (find_char c r) as [j|] eqn:Hj; [|discriminate].
    injection H as <-. destruct (IH j eq_refl) as [pre Hpre].
    exists (String d pre). simpl. simpl in Hpre. now rewrite Hpre.
Qed.

Lemma tail_ok_after_separator (a : string) (sep : ascii) (rest : string) :
  tail_ok rest -> rest <> EmptyString ->
  tail_ok (a ++ String sep rest)%string.
Proof.
  intros Ht Hne.
  replace (a ++ String sep rest)%string
    with ((a ++ String sep EmptyString) ++ rest)%string
    by (rewrite append_assoc; reflexivity).
  now apply tail_ok_append.
Qed.

Lemma extract_reference_tight (s t : string) :
  _extract_reference_at_position s = Some t -> tight t.
Proof.
  unfold _extract_reference_at_position.
  destruct (lstrip_by isspace s) as [|c r]; [discriminate|].
  destruct (Ascii.eqb_spec c squote) as [->|Hc].
  - destruct (find_char squote r) as [k|]; [|discriminate].
    destruct (drop (S k) r) as [|sep after]; [discriminate|].
    destruct (is_sheet_separator sep); [|discriminate].
    destruct (truthy_text (_extract_identifier after)) as [rest|] eqn:Hrest;
      [|discriminate].
    intros H. injection H as <-.
    apply truthy_text_some in Hrest as [Hrest Hne].
    apply extract_identifier_shape in Hrest as [_ Htail].
    apply head_tail_tight.
    + reflexivity.
    + now apply (tail_ok_after_separator (String squote (take (S k) r))).
  - destruct (truthy_text (_extract_identifier (String c r)))
      as [identifier|] eqn:Hid; [|discriminate].
    apply truthy_text_some in Hid as [Hid Hidne].
    apply extract_identifier_shape in Hid as [Hhead Htail].
    assert (Halone : tight identifier) by now apply head_tail_tight.
    assert (Hjoin : forall sep rest,
               tail_ok rest -> rest <> EmptyString ->
               tight (identifier ++ String sep rest)%string).
    { intros sep rest Hr Hne. apply head_tail_tight.
      - now apply head_ok_append.
      - now apply tail_ok_after_separator. }
    destruct (drop (String.length identifier) (String c r)) as [|sep after];
      [intros H; now injection H as <-|].
    destruct (is_sheet_separator sep); [|intros H; now injection H as <-].
    match goal with
    | |- match truthy_text ?rest with _ => _ end = _ -> _ =>
        destruct (truthy_text rest) as [rest'|] eqn:Hrest;
          [|intros H; now injection H as <-]
    end.
    intros H. injection H as <-.
    apply truthy_text_some in Hrest as [Hrest Hne].
    apply Hjoin; [|exact Hne].
    destruct (lstrip_by isspace after) as [|c' r'] eqn:Hmore.
    + now apply extract_identifier_shape in Hrest.
    + destruct (Ascii.eqb_spec c' squote) as [->|Hc'].
      * destruct (find_char squote r') as [k|] eqn:Hk.
        -- destruct (find_char_take _ _ _ Hk) as [pre Hpre].
           rewrite Hpre in Hrest. injection Hrest as <-.
           apply (tail_ok_snoc isspace (String squote pre)). reflexivity.
        -- now apply extract_identifier_shape in Hrest.
      * now apply extract_identifier_shape in Hrest.
Qed.

Lemma parse_reference_original (t : string) (r : TableReference) :
  parse_reference t = Return r -> original r = strip t.
Proof.
  unfold parse_reference.
  destruct (negb (nonempty t) || negb (nonempty (strip t))); [discriminate|].
  destruct (sheet_pattern "!" matches_range (strip t)) as [[sheet rng]|].
  { intros H. now injection H as <-. }
  destruct (matches_range (strip t)).
  { intros H. now injection H as <-. }
  destruct (sheet_pattern "." one_line (strip t)) as [[sheet tbl]|];
    intros H; now injection H as <-.
Qed.

Lemma in_seen_false (t : string) (seen : list string) :
  in_seen t seen = false -> ~ In t seen.
Proof.
  unfold in_seen. intros H Hin.
  assert (existsb (String.eqb t) seen = true).
  { apply existsb_exists. exists t. split; [exact Hin | apply String.eqb_refl]. }
  congruence.
Qed.

Lemma register_invariant (t : string) (st : extraction_state) :
  tight t -> extraction_invariant st -> extraction_invariant (register t st).
Proof.
  intros Ht Hst. destruct st as [references seen]. unfold register.
  destruct (nonempty t && negb (in_seen t seen)) eqn:Hc; [|exact Hst].
  destruct (parse_reference t) as [ref|e] eqn:Hp; [|exact Hst].
  apply andb_true_iff in Hc as [_ Hc]. apply negb_true_iff in Hc.
  apply in_seen_false in Hc.
  pose proof (parse_reference_original _ _ Hp) as Ho.
  rewrite (tight_strip _ Ht) in Ho.
  unfold extraction_invariant in *. simpl in *.
  destruct Hst as (Hmap & Hnd & Hall & Hparse).
  refine (conj _ (conj _ (conj _ _))).
  - rewrite map_app, Hmap. simpl. now rewrite Ho.
  - now constructor.
  - now constructor.
  - apply Forall_app. split; [exact Hparse|].
    constructor; [|constructor]. now rewrite Ho.
Qed.

Lemma register_from_join_invariant (st : extraction_state) (after : string) :
  extraction_invariant st -> extraction_invariant (register_from_join st after).
Proof.
  intros Hst. unfold register_from_join.
  destruct (_extract_reference_at_position after) as [t|] eqn:Ht;
    [|exact Hst].
  apply register_invariant; [|exact Hst].
  now apply extract_reference_tight in Ht.
Qed.

Lemma register_group_invariant (st : extraction_state) (group : string) :
  extraction_invariant st -> extraction_invariant (register_group st group).
Proof.
  intros Hst. apply register_invariant; [apply strip_tight | exact Hst].
Qed.

Lemma fold_left_invariant {A B : Type} (P : A -> Prop) (f : A -> B -> A)
  (l : list B) :
  (forall a b, P a -> P (f a b)) -> forall a, P a -> P (fold_left f l a).
Proof.
  intros Hf. induction l as [|b l IH]; intros a Ha; simpl; [exact Ha|].
  apply IH, Hf, Ha.
Qed.

Lemma extraction_loops_invariant (cleaned_query : string) :
  extraction_invariant (extraction_loops cleaned_query).
Proof.
  unfold extraction_loops.
  apply fold_left_invariant; [apply register_group_invariant|].
  apply fold_left_invariant; [apply register_group_invariant|].
  apply fold_left_invariant; [apply register_from_join_invariant|].
  refine (conj eq_refl (conj _ (conj _ _))); constructor.
Qed.

(** The engine names of section 3 of the specification. *)

Local Open Scope string_scope.

Lemma all_chars_append (p : ascii -> bool) (a b : string) :
  all_chars p (a ++ b) = all_chars p a && all_chars p b.
Proof.
  induction a as [|c a IH]; simpl; [reflexivity|].
  now rewrite IH, andb_assoc.
Qed.

Lemma all_chars_lstrip (p q : ascii -> bool) (s : string) :
  all_chars p s = true -> all_chars p (lstrip_by q s) = true.
Proof.
  induction s as [|c r IH]; simpl; [reflexivity|].
  intros H. destruct (q c); [|exact H].
  apply andb_true_iff in H as [_ H]. now apply IH.
Qed.

Lemma all_chars_rstrip (p q : ascii -> bool) (s : string) :
  all_chars p s = true -> all_chars p (rstrip_by q s) = true.
Proof.
  induction s as [|c r IH]; simpl; [reflexivity|].
  intros H. apply andb_true_iff in H as [Hc H]. specialize (IH H).
  destruct (rstrip_by q r) as [|d t].
  - destruct (q c); simpl; [reflexivity | now rewrite Hc].
  - simpl in *. now rewrite Hc, IH.
Qed.

Lemma all_chars_collapse (keep : ascii -> bool) (in_run : bool)
  (part : string) :
  (forall c, keep (lower_char c) = true -> name_char (lower_char c) = true) ->
  all_chars name_char (collapse_runs keep in_run (lower part)) = true.
Proof.
  intros Hkeep. revert in_run.
  induction part as [|c r IH]; intros in_run; [reflexivity|].
  unfold lower in *. simpl.
  destruct (keep (lower_char c)) eqn:Hc.
  - simpl. now rewrite (Hkeep c Hc), IH.
  - destruct in_run; [apply IH|]. simpl. apply IH.
Qed.

Lemma ascii_word_lower_name_char (c : ascii) :
  ascii_word (lower_char c) = true -> name_char (lower_char c) = true.
Proof.
  destruct c as [[] [] [] [] [] [] [] []]; vm_compute; congruence.
Qed.

Lemma ascii_alnum_lower_name_char (c : ascii) :
  ascii_alnum (lower_char c) = true -> name_char (lower_char c) = true.
Proof.
  destruct c as [[] [] [] [] [] [] [] []]; vm_compute; congruence.
Qed.

Lemma all_chars_sanitize_part (keep : ascii -> bool) (part : string) :
  (forall c, keep (lower_char c) = true -> name_char (lower_char c) = true) ->
  all_chars name_char (sanitize_part keep part) = true.
Proof.
  intros H. unfold sanitize_part, strip_underscore, strip_by.
  apply all_chars_rstrip, all_chars_lstrip. now apply all_chars_collapse.
Qed.

Local Open Scope list_scope.

Lemma all_chars_name_part (keep : ascii -> bool) (part : option string) :
  (forall c, keep (lower_char c) = true -> name_char (lower_char c) = true) ->
  Forall (fun p => all_chars name_char p = true) (name_part keep part).
Proof.
  intros H. unfold name_part. destruct part as [p|]; [|constructor].
  destruct (nonempty p); constructor; [|constructor].
  now apply all_chars_sanitize_part.
Qed.

Lemma all_chars_join (parts : list string) :
  Forall (fun p => all_chars name_char p = true) parts ->
  all_chars name_char (join "_" parts) = true.
Proof.
  induction parts as [|p rest IH]; intros H; [reflexivity|].
  inversion H as [|? ? Hp Hrest]; subst.
  destruct rest as [|q rest']; [exact Hp|].
  change (join "_" (p :: q :: rest'))
    with (p ++ "_" ++ join "_" (q :: rest'))%string.
  rewrite !all_chars_append, Hp, (IH Hrest). reflexivity.
Qed.

Lemma name_char_digit (c : ascii) :
  name_char c = true -> str_isdigit c = isdigit c.
Proof.
  destruct c as [[] [] [] [] [] [] [] []]; vm_compute; congruence.
Qed.

(** The engine name of section 3: whatever the components are, the derived
    name is not empty, is made of lower-case letters, digits and underscores,
    and does not start with a digit. *)
Lemma generated_name_is_identifier
  (sheet table range : option string) :
  engine_identifier (_generate_sqlite_name sheet table range).
Proof.
  unfold _generate_sqlite_name.
  set (parts := name_part ascii_word sheet ++ name_part ascii_word table
                ++ name_part ascii_alnum range).
  assert (Hparts : all_chars name_char (join "_" parts) = true).
  { apply all_chars_join. unfold parts.
    repeat (apply Forall_app; split);
      apply all_chars_name_part;
      auto using ascii_word_lower_name_char, ascii_alnum_lower_name_char. }
  destruct (join "_" parts) as [|c r] eqn:Hj.
  - split; reflexivity.
  - assert (Hc : name_char c = true).
    { simpl in Hparts. now apply andb_true_iff in Hparts as [Hc _]. }
    rewrite (name_char_digit c Hc).
    destruct (isdigit c) eqn:Hd.
    + split; [|reflexivity].
      change (nonempty ("r_" ++ String c r)%string) with true. cbv iota.
      change ("r_" ++ String c r)%string
        with (String "r" (String "_" (String c r))).
      simpl. simpl in Hparts. exact Hparts.
    + split; [exact Hparts | exact Hd].
Qed.

Lemma all_chars_no_backslash (name : string) :
  all_chars name_char name = true ->
  contains (String backslash EmptyString) name = false.
Proof.
  induction name as [|c r IH]; [reflexivity|].
  intros H. simpl in H. apply andb_true_iff in H as [Hc H].
  change (contains (String backslash EmptyString) (String c r))
    with ((Ascii.eqb backslash c && true)
          || contains (String backslash EmptyString) r).
  rewrite (IH H).
  destruct (Ascii.eqb_spec backslash c) as [<-|Hne]; [discriminate Hc|].
  reflexivity.
Qed.

Lemma parse_reference_name (t : string) (r : TableReference) :
  parse_reference t = Return r ->
  original r <> EmptyString /\ engine_identifier (sqlite_name r).
Proof.
  intros H. pose proof (parse_reference_original _ _ H) as Ho.
  unfold parse_reference in H.
  destruct (nonempty t) eqn:Ht; simpl in H; [|discriminate].
  destruct (nonempty (strip t)) eqn:Hs; simpl in H; [|discriminate].
  split.
  { rewrite Ho. intros He. rewrite He in Hs. discriminate. }
  destruct (sheet_pattern "!" matches_range (strip t)) as [[sheet rng]|].
  { injection H as <-. apply generated_name_is_identifier. }
  destruct (matches_range (strip t)).
  { injection H as <-. apply generated_name_is_identifier. }
  destruct (sheet_pattern "." one_line (strip t)) as [[sheet tbl]|];
    injection H as <-; apply generated_name_is_identifier.
Qed.

(** C9 (as amended).  Within one invocation the extracted references are
    unique by their original text: for every query, no two entries of the
    list [extract_table_references] returns have the same [original].  Every
    entry is the parse of its own original text, so its engine name is the
    one [_generate_sqlite_name] derives from that text alone: a lower-case
    identifier of letters, digits and underscores that does not start with
    a digit.  Nothing makes the engine names of two entries differ. *)
Theorem extracted_references_have_distinct_originals :
  forall query : string,
    NoDup (map original (extract_table_references query))
    /\ Forall (fun r => parse_reference (original r) = Return r)
         (extract_table_references query)
    /\ Forall (fun r => engine_identifier (sqlite_name r))
         (extract_table_references query).
Proof.
  intros query. unfold extract_table_references.
  destruct (extraction_loops_invariant
              (_remove_comments (_remove_string_literals query)))
    as (Hmap & Hnd & _ & Hparse).
  refine (conj _ (conj Hparse _)).
  - rewrite Hmap. now apply NoDup_rev.
  - apply (Forall_impl _ (fun r H => proj2 (parse_reference_name _ r H)) Hparse).
Qed.

(** C9 as stated fails: Orders and orders are two references of one query
    with one engine name, and so are Sheet1.Orders and Sheet1_Orders. *)
Lemma extracted_references_share_engine_name :
  map (fun r => (original r, sqlite_name r))
    (extract_table_references
       "SELECT * FROM Orders o JOIN orders c ON o.id = c.id")
  = [("Orders", "orders"); ("orders", "orders")]
  /\ map (fun r => (original r, sqlite_name r))
       (extract_table_references
          "SELECT * FROM Sheet1.Orders a JOIN Sheet1_Orders b ON a.id = b.id")
     = [("Sheet1.Orders", "sheet1_orders"); ("Sheet1_Orders", "sheet1_orders")]
  /\ ~ NoDup (map sqlite_name
                (extract_table_references
                   "SELECT * FROM Orders o JOIN orders c ON o.id = c.id")).
Proof.
  split; [reflexivity|]. split; [reflexivity|].
  vm_compute. intros H. inversion H as [|x l Hin _]; subst.
  apply Hin. now left.
Qed.

Local Open Scope string_scope.

(** *** C4: the query rewriter *)

Lemma take_append (m r : string) : take (String.length m) (m ++ r) = m.
Proof. induction m as [|c m IH]; simpl; [now destruct r | now rewrite IH]. Qed.








Local Open Scope list_scope.


Lemma insert_by_length_permutation (item : string * string)
  (sorted : list (string * string)) :
  Permutation (insert_by_length item sorted) (item :: sorted).
Proof.
  induction sorted as [|other rest IH]; simpl; [reflexivity|].
  destruct (String.length (fst other) <=? String.length (fst item))%nat;
    [reflexivity|].
  rewrite IH. apply perm_swap.
Qed.

Lemma sorted_refs_permutation (mapping : list (string * string)) :
  Permutation (sorted_refs mapping) mapping.
Proof.
  induction mapping as [|item rest IH]; simpl; [constructor|].
  rewrite insert_by_length_permutation. now constructor.
Qed.






(** What the tests of the repository check, and the order of the passes:
    the longer key is replaced first, so Orders does not cut into
    Sheet1.Orders. *)
Lemma substitute_references_examples :
  substitute_references "SELECT * FROM Sheet1.Orders"
    [("Sheet1.Orders", "sheet1_orders")]
  = "SELECT * FROM sheet1_orders"
  /\ substitute_references
       "SELECT * FROM Orders JOIN Sheet1.Orders ON Orders.id = Sheet1.Orders.id"
       [("Orders", "orders_temp"); ("Sheet1.Orders", "sheet1_orders")]
     = "SELECT * FROM orders_temp JOIN sheet1_orders ON orders_temp.id = sheet1_orders.id".
Proof. split; reflexivity. Qed.

Local Open Scope string_scope.

(** *** The mappings of the pipeline *)

Local Open Scope list_scope.

Lemma dict_set_items (mapping : list (string * string)) (key name k v : string) :
  In (k, v) (dict_set mapping key name) ->
  In (k, v) mapping \/ (k, v) = (key, name).
Proof.
  induction mapping as [|[k0 v0] rest IH]; simpl.
  - intros [H|[]]. now right.
  - destruct (String.eqb_spec k0 key) as [->|Hne]; simpl.
    + intros [H|H]; [now right | left; now right].
    + intros [H|H]; [left; now left|].
      destruct (IH H) as [H'|H']; [left; now right | now right].
Qed.

Lemma load_references_items (E : Env) (references : list TableReference) :
  forall c mapping c' mapping',
    load_references E c references mapping = Return (c', mapping') ->
    forall k v,
      In (k, v) mapping' ->
      In (k, v) mapping
      \/ exists r, In r references /\ k = original r /\ v = sqlite_name r.
Proof.
  induction references as [|ref rest IH]; intros c mapping c' mapping' H k v Hin.
  - simpl in H. injection H as <- <-. now left.
  - simpl in H.
    destruct (resolve_reference E ref) as [df|e]; [|discriminate].
    simpl in H.
    destruct (validate_headers (labels df)) as [hs|e]; [|discriminate].
    simpl in H.
    destruct (load_table E c (sqlite_name ref) hs df) as [c1|e];
      [|discriminate].
    simpl in H.
    destruct (IH _ _ _ _ H k v Hin) as [Hm|(r & Hr & -> & ->)].
    + apply dict_set_items in Hm as [Hm|Hm]; [now left|].
      injection Hm as -> ->. right. exists ref. repeat split. now left.
    + right. exists r. repeat split. now right.
Qed.

(** The mapping the orchestrator hands to [substitute_references] is a plain
    one: its keys are the originals of the extracted references and its
    values their engine names. *)
Lemma pipeline_mapping_is_plain (E : Env) (query : string) (c c' : conn E)
  (mapping : list (string * string)) :
  load_references E c (extract_table_references query) [] = Return (c', mapping) ->
  plain_mapping mapping.
Proof.
  intros H key name Hin.
  destruct (load_references_items _ _ _ _ _ _ H key name Hin)
    as [[]|(r & Hr & -> & ->)].
  unfold extract_table_references in Hr.
  destruct (extraction_loops_invariant
              (_remove_comments (_remove_string_literals query)))
    as (_ & _ & _ & Hparse).
  rewrite Forall_forall in Hparse. specialize (Hparse r Hr).
  apply parse_reference_name in Hparse as [Ho [Hchars _]].
  split; [exact Ho | now apply all_chars_no_backslash].
Qed.

Local Open Scope string_scope.

(* ================================================================== *)
(** ** Further properties of the code *)
(* ================================================================== *)

Import SchemaBuilder More.

(** *** parser.py: engine names and parsed references *)

Lemma lower_char_idempotent (c : ascii) :
  lower_char (lower_char c) = lower_char c.
Proof. destruct c as [[] [] [] [] [] [] [] []]; reflexivity. Qed.

Lemma map_chars_compose (f g h : ascii -> ascii) (s : string) :
  (forall c, f (g c) = h c) -> map_chars f (map_chars g s) = map_chars h s.
Proof.
  intros H. induction s as [|c r IH]; simpl; [reflexivity|].
  now rewrite H, IH.
Qed.

Lemma lower_idempotent (s : string) : lower (lower s) = lower s.
Proof. apply map_chars_compose, lower_char_idempotent. Qed.

Lemma upper_append (a b : string) : upper (a ++ b) = upper a ++ upper b.
Proof.
  induction a as [|c r IH]; [reflexivity|].
  cbn [append upper]. now rewrite IH, append_assoc.
Qed.

Lemma upper_chars_idempotent (c : ascii) :
  upper (upper_chars c) = upper_chars c.
Proof. destruct c as [[] [] [] [] [] [] [] []]; reflexivity. Qed.

Lemma upper_chars_lower (c : ascii) :
  upper_chars (lower_char c) = upper_chars c.
Proof. destruct c as [[] [] [] [] [] [] [] []]; reflexivity. Qed.

Lemma upper_idempotent (s : string) : upper (upper s) = upper s.
Proof.
  induction s as [|c r IH]; [reflexivity|].
  cbn [upper]. now rewrite upper_append, upper_chars_idempotent, IH.
Qed.

Lemma upper_lower (s : string) : upper (lower s) = upper s.
Proof.
  induction s as [|c r IH]; [reflexivity|].
  unfold lower in *. cbn [map_chars upper].
  now rewrite upper_chars_lower, IH.
Qed.

Lemma nonempty_map_chars (f : ascii -> ascii) (s : string) :
  nonempty (map_chars f s) = nonempty s.
Proof. now destruct s. Qed.

Lemma name_part_case (keep : ascii -> bool) (part part' : option string) :
  option_map lower part = option_map lower part' ->
  name_part keep part = name_part keep part'.
Proof.
  destruct part as [p|], part' as [p'|]; simpl; try discriminate;
    [|reflexivity].
  intros H. injection H as H. unfold sanitize_part. rewrite H.
  rewrite <- (nonempty_map_chars lower_char p).
  rewrite <- (nonempty_map_chars lower_char p').
  fold (lower p) (lower p'). now rewrite H.
Qed.

(** X1.  Whatever the sheet, table and range components are,
    [_generate_sqlite_name] returns a non-empty name made of lower-case
    letters, digits and underscores that does not start with a digit; and
    the name depends on the components up to letter case only. *)
Theorem generate_sqlite_name_identifier_up_to_case :
  forall sheet table range : option string,
    engine_identifier (_generate_sqlite_name sheet table range)
    /\ (forall sheet' table' range',
           option_map lower sheet = option_map lower sheet' ->
           option_map lower table = option_map lower table' ->
           option_map lower range = option_map lower range' ->
           _generate_sqlite_name sheet table range
           = _generate_sqlite_name sheet' table' range').
Proof.
  intros sheet table range. split.
  - apply generated_name_is_identifier.
  - intros sheet' table' range' Hs Ht Hr. unfold _generate_sqlite_name.
    now rewrite (name_part_case ascii_word _ _ Hs),
      (name_part_case ascii_word _ _ Ht), (name_part_case ascii_alnum _ _ Hr).
Qed.

Lemma generate_sqlite_name_witness :
  _generate_sqlite_name (Some "Sheet1") (Some "Orders") None
  = _generate_sqlite_name (Some "SHEET1") (Some "orders") None.
Proof.
  apply (proj2 (generate_sqlite_name_identifier_up_to_case
                  (Some "Sheet1") (Some "Orders") None));
    reflexivity.
Defined.

(** X2.  [parse_reference] raises ValueError exactly for a reference that
    is empty once trimmed.  Any other text parses: the reference keeps the
    trimmed text as [original]; it has a table name or a range, never both
    and never neither; a range is upper-case; the engine name is the one
    derived from the three components; and there is a reference string to
    hand to the host. *)
Theorem parse_reference_contract :
  forall ref : string,
    (strip ref = EmptyString ->
     parse_reference ref = Raise (ValueError "Reference cannot be empty"))
    /\ (strip ref <> EmptyString ->
        exists r,
          parse_reference ref = Return r
          /\ original r = strip ref
          /\ is_named_table r = negb (is_range r)
          /\ (forall g, range_ref r = Some g -> upper g = g)
          /\ sqlite_name r
             = _generate_sqlite_name (sheet_name r) (table_name r)
                 (range_ref r)
          /\ excel_ref r <> None).
Proof.
  intros ref. split.
  - intros H. unfold parse_reference. rewrite H. simpl.
    now rewrite orb_true_r.
  - intros H. unfold parse_reference.
    assert (Hs : nonempty (strip ref) = true).
    { destruct (nonempty (strip ref)) eqn:Hn; [reflexivity|].
      apply nonempty_false in Hn. contradiction. }
    rewrite (not_blank_nonempty _ Hs), Hs. simpl.
    destruct (sheet_pattern "!" matches_range (strip ref)) as [[sheet rng]|].
    { eexists. split; [reflexivity|]. simpl. repeat split.
      - intros g Hg. injection Hg as <-. apply upper_idempotent.
      - unfold excel_ref. simpl. destruct (nonempty sheet); discriminate. }
    destruct (matches_range (strip ref)).
    { eexists. split; [reflexivity|]. simpl. repeat split.
      - intros g Hg. injection Hg as <-. apply upper_idempotent.
      - discriminate. }
    destruct (sheet_pattern "." one_line (strip ref)) as [[sheet tbl]|].
    { eexists. split; [reflexivity|]. simpl. repeat split.
      - discriminate.
      - unfold excel_ref. simpl. destruct (nonempty sheet); discriminate. }
    eexists. split; [reflexivity|]. simpl. repeat split; discriminate.
Qed.

Lemma parse_reference_contract_witness :
  exists r,
    parse_reference " Sheet2!a1:b50 " = Return r
    /\ original r = "Sheet2!a1:b50"
    /\ is_named_table r = negb (is_range r)
    /\ (forall g, range_ref r = Some g -> upper g = g)
    /\ sqlite_name r
       = _generate_sqlite_name (sheet_name r) (table_name r) (range_ref r)
    /\ excel_ref r <> None.
Proof.
  apply (proj2 (parse_reference_contract " Sheet2!a1:b50 ")).
  vm_compute. discriminate.
Defined.

(** *** parser.py: placeholders, literals and comments *)

Lemma count_char_nonneg (c : ascii) (s : string) : (0 <= count_char c s)%Z.
Proof.
  induction s as [|d r IH]; simpl; [lia|].
  destruct (Ascii.eqb d c); lia.
Qed.

Lemma count_parameters_loop_bounds (n : nat) :
  forall (st : option ascii) (query : string),
    (String.length query <= n)%nat ->
    (0 <= count_parameters_loop st query <= count_char "?" query)%Z.
Proof.
  induction n as [|n IH]; intros st query Hlen.
  - destruct query; [simpl; lia | simpl in Hlen; lia].
  - destruct query as [|c rest]; [simpl; lia|].
    simpl in Hlen.
    pose proof (count_char_nonneg "?" rest) as Hrest.
    change (count_char "?" (String c rest))
      with ((if Ascii.eqb c "?" then 1 else 0) + count_char "?" rest)%Z.
    cbn [count_parameters_loop].
    destruct st as [q|].
    + destruct (Ascii.eqb c q).
      * destruct rest as [|d rest'].
        -- cbn [count_parameters_loop count_char].
           destruct (Ascii.eqb c "?"); lia.
        -- destruct (Ascii.eqb d q).
           ++ pose proof (IH (Some q) rest' ltac:(simpl in Hlen; lia)) as H.
              pose proof (count_char_nonneg "?" rest').
              change (count_char "?" (String d rest'))
                with ((if Ascii.eqb d "?" then 1 else 0)
                      + count_char "?" rest')%Z.
              destruct (Ascii.eqb c "?"), (Ascii.eqb d "?"); lia.
           ++ pose proof (IH None (String d rest') ltac:(lia)) as H.
              destruct (Ascii.eqb c "?"); lia.
      * pose proof (IH (Some q) rest ltac:(lia)) as H.
        destruct (Ascii.eqb c "?"); lia.
    + destruct (is_quote c).
      * pose proof (IH (Some c) rest ltac:(lia)) as H.
        destruct (Ascii.eqb c "?"); lia.
      * pose proof (IH None rest ltac:(lia)) as H.
        destruct (Ascii.eqb c "?"); lia.
Qed.

Lemma count_parameters_loop_plain (query : string) :
  all_chars no_quote query = true ->
  count_parameters_loop None query = count_char "?" query.
Proof.
  induction query as [|c rest IH]; [reflexivity|].
  cbn [all_chars count_parameters_loop count_char].
  intros H. apply andb_true_iff in H as [Hc H].
  unfold no_quote in Hc. apply negb_true_iff in Hc. rewrite Hc.
  rewrite (IH H). destruct (Ascii.eqb c "?"); lia.
Qed.

(** X3.  [count_parameters] never counts more placeholders than the query
    has question marks, and never a negative number; for a query without
    any quote character it counts every question mark. *)
Theorem count_parameters_bounded_by_question_marks :
  forall query : string,
    (0 <= count_parameters query <= count_char "?" query)%Z
    /\ (all_chars no_quote query = true ->
        count_parameters query = count_char "?" query).
Proof.
  intros query. split.
  - apply (count_parameters_loop_bounds (String.length query)), le_n.
  - apply count_parameters_loop_plain.
Qed.

Lemma count_parameters_plain_witness :
  count_parameters "SELECT * FROM Orders WHERE a = ? AND b = ?" = 2%Z.
Proof.
  apply (proj2 (count_parameters_bounded_by_question_marks
                  "SELECT * FROM Orders WHERE a = ? AND b = ?")).
  reflexivity.
Defined.

Lemma masks_refl (s : string) : masks s s.
Proof. induction s; constructor; assumption. Qed.

Lemma masked_cases (q c : ascii) : masked q c = c \/ masked q c = " "%char.
Proof. unfold masked. destruct (Ascii.eqb q dquote); [now left | now right]. Qed.

Lemma masks_cons (c d : ascii) (s out : string) :
  d = c \/ d = " "%char -> masks s out -> masks (String c s) (String d out).
Proof. intros [->| ->] H; now constructor. Qed.

Lemma remove_string_literals_masks (n : nat) :
  forall (copy : nat) (st : option ascii) (query : string),
    (String.length query <= n)%nat ->
    masks query (remove_string_literals_loop copy st query).
Proof.
  induction n as [|n IH]; intros copy st query Hlen.
  - destruct query; [constructor | simpl in Hlen; lia].
  - destruct query as [|c rest]; [constructor|].
    simpl in Hlen. simpl.
    destruct copy as [|k].
    2:{ constructor. apply IH. lia. }
    destruct st as [q|].
    + destruct (Ascii.eqb_spec c q) as [->|Hc].
      * destruct rest as [|d rest'].
        -- apply masks_cons; [apply masked_cases | constructor].
        -- destruct (Ascii.eqb_spec d q) as [->|Hd].
           ++ apply masks_cons; [apply masked_cases|].
              apply masks_cons; [apply masked_cases|].
              apply IH. simpl in Hlen. lia.
           ++ apply masks_cons; [apply masked_cases|]. apply IH. lia.
      * apply masks_cons; [apply masked_cases|]. apply IH. lia.
    + destruct (Ascii.eqb c squote).
      * destruct (closing_quote rest) as [k|].
        -- destruct (followed_by_separator k rest).
           ++ constructor. apply IH. lia.
           ++ constructor. apply IH. lia.
        -- constructor. apply IH. lia.
      * destruct (Ascii.eqb c dquote); constructor; apply IH; lia.
Qed.

Lemma masks_length (s out : string) :
  masks s out -> String.length out = String.length s.
Proof. induction 1; simpl; congruence. Qed.

Lemma remove_string_literals_plain (query : string) :
  all_chars no_quote query = true ->
  remove_string_literals_loop 0 None query = query.
Proof.
  induction query as [|c rest IH]; [reflexivity|].
  simpl. intros H. apply andb_true_iff in H as [Hc H].
  unfold no_quote, is_quote in Hc. apply negb_true_iff in Hc.
  apply orb_false_iff in Hc as [-> ->]. now rewrite (IH H).
Qed.

(** X4.  [_remove_string_literals] preserves positions: its result has the
    length of the query and differs from it only where a character has
    become a space.  A query without any quote character is returned
    unchanged. *)
Theorem remove_string_literals_preserves_positions :
  forall query : string,
    masks query (_remove_string_literals query)
    /\ String.length (_remove_string_literals query) = String.length query
    /\ (all_chars no_quote query = true ->
        _remove_string_literals query = query).
Proof.
  intros query.
  pose proof (remove_string_literals_masks (String.length query) 0 None query
                (le_n _)) as H.
  refine (conj H (conj (masks_length _ _ H) _)).
  apply remove_string_literals_plain.
Qed.

Lemma remove_string_literals_plain_witness :
  _remove_string_literals "SELECT * FROM Orders" = "SELECT * FROM Orders".
Proof.
  apply (proj2 (proj2 (remove_string_literals_preserves_positions
                         "SELECT * FROM Orders"))).
  reflexivity.
Defined.

Lemma remove_line_comments_length (n : nat) :
  forall (in_comment : bool) (s : string),
    (String.length s <= n)%nat ->
    (String.length (remove_line_comments in_comment s) <= String.length s)%nat.
Proof.
  induction n as [|n IH]; intros in_comment s Hlen.
  - destruct s; [simpl; lia | simpl in Hlen; lia].
  - destruct s as [|c r]; [simpl; lia|]. simpl in Hlen. simpl.
    destruct in_comment.
    + destruct (Ascii.eqb c newline); simpl.
      * specialize (IH false r ltac:(lia)). lia.
      * specialize (IH true r ltac:(lia)). lia.
    + destruct r as [|d r']; [simpl; lia|].
      destruct (Ascii.eqb c "-" && Ascii.eqb d "-").
      * specialize (IH true r' ltac:(simpl in Hlen; lia)). simpl. lia.
      * specialize (IH false (String d r') ltac:(lia)). simpl in *. lia.
Qed.

Lemma remove_block_comments_length (s : string) :
  forall skip : nat,
    (String.length (remove_block_comments skip s) <= String.length s)%nat.
Proof.
  induction s as [|c r IH]; intros skip; [simpl; lia|].
  destruct skip as [|k].
  - change (remove_block_comments 0 (String c r))
      with (if startswith "/*" (String c r)
            then match find_sub "*/" (drop 2 (String c r)) with
                 | Some k => String " "%char (remove_block_comments (k + 3) r)
                 | None => String c (remove_block_comments 0 r)
                 end
            else String c (remove_block_comments 0 r)).
    destruct (startswith "/*" (String c r)).
    + destruct (find_sub "*/" (drop 2 (String c r))) as [k|].
      * specialize (IH (k + 3)%nat). cbn [String.length]. lia.
      * specialize (IH 0%nat). cbn [String.length]. lia.
    + specialize (IH 0%nat). cbn [String.length]. lia.
  - specialize (IH k). cbn [remove_block_comments String.length]. lia.
Qed.

Lemma not_contains_tail (sub : string) (c : ascii) (s : string) :
  contains sub (String c s) = false ->
  startswith sub (String c s) = false /\ contains sub s = false.
Proof. intros H. simpl in H. now apply orb_false_iff in H. Qed.

Lemma remove_line_comments_plain (s : string) :
  contains "--" s = false -> remove_line_comments false s = s.
Proof.
  induction s as [|c r IH]; [reflexivity|].
  intros H. apply not_contains_tail in H as [Hs Hr].
  specialize (IH Hr).
  destruct r as [|d r']; [reflexivity|].
  change (remove_line_comments false (String c (String d r')))
    with (if Ascii.eqb c "-"%char && Ascii.eqb d "-"%char
          then String " "%char (remove_line_comments true r')
          else String c (remove_line_comments false (String d r'))).
  change (startswith "--" (String c (String d r')))
    with (Ascii.eqb "-"%char c && (Ascii.eqb "-"%char d && true)) in Hs.
  rewrite andb_true_r in Hs.
  rewrite (Ascii.eqb_sym c), (Ascii.eqb_sym d), Hs. now rewrite IH.
Qed.

Lemma remove_block_comments_plain (s : string) :
  contains "/*" s = false -> remove_block_comments 0 s = s.
Proof.
  induction s as [|c r IH]; [reflexivity|].
  intros H. apply not_contains_tail in H as [Hs Hr].
  specialize (IH Hr).
  change (remove_block_comments 0 (String c r))
    with (if startswith "/*" (String c r)
          then match find_sub "*/" (drop 2 (String c r)) with
               | Some k => String " "%char (remove_block_comments (k + 3) r)
               | None => String c (remove_block_comments 0 r)
               end
          else String c (remove_block_comments 0 r)).
  now rewrite Hs, IH.
Qed.

(** X5.  [_remove_comments] never makes the query longer, and returns a
    query that holds neither two dashes in a row nor a slash followed by a
    star unchanged.  (A comment becomes one space, so positions are not
    preserved once a comment is removed.) *)
Theorem remove_comments_never_longer :
  forall query : string,
    (String.length (_remove_comments query) <= String.length query)%nat
    /\ (contains "--" query = false -> contains "/*" query = false ->
        _remove_comments query = query).
Proof.
  intros query. unfold _remove_comments. split.
  - etransitivity; [apply remove_block_comments_length|].
    apply (remove_line_comments_length (String.length query)), le_n.
  - intros Hd Hb. rewrite (remove_line_comments_plain _ Hd).
    now apply remove_block_comments_plain.
Qed.

Lemma remove_comments_plain_witness :
  _remove_comments "SELECT a - b FROM Orders" = "SELECT a - b FROM Orders".
Proof.
  apply (proj2 (remove_comments_never_longer "SELECT a - b FROM Orders"));
    reflexivity.
Defined.

Lemma re_sub_no_occurrence (key repl : string) :
  forall (s : string) (prev_word : bool),
    contains_ci key s = false ->
    re_sub (reference_pattern key) repl prev_word 0 s = s.
Proof.
  induction s as [|c r IH]; intros prev_word H.
  - simpl in H. rewrite orb_false_r in H.
    simpl. unfold reference_pattern. now rewrite H.
  - cbn [contains_ci] in H. apply orb_false_iff in H as [Hs Hr].
    cbn [re_sub]. unfold reference_pattern at 1. rewrite Hs.
    now rewrite (IH _ Hr).
Qed.

Lemma fold_substitute_no_occurrence (query : string) :
  forall items : list (string * string),
    Forall (unused_entry query) items ->
    fold_left substitute_one items query = query.
Proof.
  induction items as [|[key name] items IH]; intros H; [reflexivity|].
  inversion H as [|? ? [Hkey _] Hrest]; subst. simpl in Hkey.
  cbn [fold_left substitute_one].
  rewrite (re_sub_no_occurrence key name query false Hkey).
  now apply IH.
Qed.

(** X6.  [substitute_references] returns the query as it is when no key of
    the mapping occurs in it, letter case apart: a rewrite happens only at
    an occurrence of a key.  (The names hold no backslash, as every engine
    name does, so that none is read as a replacement template.) *)
Theorem substitute_references_without_occurrence :
  forall (query : string) (mapping : list (string * string)),
    Forall (unused_entry query) mapping ->
    substitute_references query mapping = query.
Proof.
  intros query mapping H. unfold substitute_references.
  destruct mapping as [|item rest]; [reflexivity|].
  apply fold_substitute_no_occurrence.
  eapply Permutation_Forall; [|exact H].
  apply Permutation_sym, sorted_refs_permutation.
Qed.

Lemma substitute_references_without_occurrence_witness :
  substitute_references "SELECT 1 AS one"
    [("Sheet1.Orders", "Sheet1_Orders"); ("A1:B2", "_range_A1_B2")]
  = "SELECT 1 AS one".
Proof.
  apply substitute_references_without_occurrence.
  repeat constructor.
Defined.

Lemma replace2_other (a b n c : ascii) (t : string) :
  Ascii.eqb c a = false ->
  replace2 a b n (String c t) = String c (replace2 a b n t).
Proof.
  intros H. destruct t as [|d r]; [reflexivity|].
  cbn [replace2]. now rewrite H.
Qed.

Lemma replace2_double_quotes (s : string) :
  replace2 dquote dquote dquote (double_quotes s) = s.
Proof.
  induction s as [|c r IH]; [reflexivity|].
  cbn [double_quotes].
  destruct (Ascii.eqb_spec c dquote) as [->|Hc].
  - cbn [replace2]. rewrite Ascii.eqb_refl. cbn [andb]. now rewrite IH.
  - apply Ascii.eqb_neq in Hc. rewrite (replace2_other _ _ _ _ _ Hc).
    now rewrite IH.
Qed.

Lemma substring_all (s : string) :
  substring 0 (String.length s) s = s.
Proof. induction s as [|c r IH]; simpl; [reflexivity | now rewrite IH]. Qed.

Lemma substring_suffix (s t : string) :
  substring (String.length s) (String.length t) (s ++ t) = t.
Proof.
  induction s as [|c r IH]; simpl; [apply substring_all | exact IH].
Qed.

Lemma endswith_append (s t : string) : endswith t (s ++ t) = true.
Proof.
  unfold endswith. rewrite length_append.
  replace (String.length s + String.length t - String.length t)%nat
    with (String.length s) by lia.
  rewrite substring_suffix, String.eqb_refl, andb_true_r.
  apply Nat.leb_le. lia.
Qed.

Lemma unquote_quote_identifier (name : string) :
  unquote_table (quote_identifier name) = name.
Proof.
  unfold unquote_table, quote_identifier.
  change (String dquote (double_quotes name ++ String dquote EmptyString))
    with (String dquote (double_quotes name) ++ String dquote EmptyString).
  rewrite endswith_append.
  cbn [append startswith]. rewrite Ascii.eqb_refl. cbn [andb drop].
  cbn [String.length]. rewrite length_append. cbn [String.length].
  replace (S (String.length (double_quotes name) + 1) - 2)%nat
    with (String.length (double_quotes name)) by lia.
  rewrite take_append. apply replace2_double_quotes.
Qed.

Lemma unquote_valid_identifier (name : string) :
  valid_identifier name = true -> unquote_table name = name.
Proof.
  destruct name as [|c r]; [discriminate|].
  intros H. unfold valid_identifier in H.
  apply andb_true_iff in H as [Hc _].
  unfold unquote_table. cbn [startswith].
  destruct (Ascii.eqb_spec dquote c) as [<-|_]; [discriminate Hc|].
  reflexivity.
Qed.

(** X7.  What [sanitize_identifier] writes, the unquoting of
    [parse_reference] reads back: the name is recovered from the identifier,
    so two different names never get the same identifier. *)
Theorem sanitize_identifier_round_trip :
  forall name : string,
    unquote_table (sanitize_identifier name) = name
    /\ forall other : string,
         sanitize_identifier other = sanitize_identifier name ->
         other = name.
Proof.
  assert (H : forall name, unquote_table (sanitize_identifier name) = name).
  { intros name. unfold sanitize_identifier.
    destruct (valid_identifier name) eqn:Hv.
    - now apply unquote_valid_identifier.
    - apply unquote_quote_identifier. }
  intros name. split; [apply H|].
  intros other Heq. rewrite <- (H other), Heq. apply H.
Qed.

Lemma is_reserved_quoted (r : string) : is_reserved (String dquote r) = false.
Proof. reflexivity. Qed.

Lemma sanitize_column_name_cases (name : string) :
  (sanitize_column_name name = name
   /\ valid_identifier name = true /\ is_reserved name = false)
  \/ (sanitize_column_name name = quote_identifier name
      /\ (valid_identifier name = false \/ is_reserved name = true)).
Proof.
  unfold sanitize_column_name.
  destruct (valid_identifier name); [|right; auto].
  destruct (is_reserved name); [right; auto | left; auto].
Qed.

(** X8.  [sanitize_column_name] returns a name as it is exactly when the
    name matches the identifier pattern and is no reserved word, whatever
    its letter case; the dollar of the pattern lets a final newline
    through, so that a reserved word followed by a newline is returned as
    it is, newline included.  Every other name comes back between double
    quotes with its own double quotes doubled.  The result is never a
    reserved word, and the name is recovered from it by the unquoting of
    [parse_reference]: distinct column names keep distinct SQLite names. *)
Theorem sanitize_column_name_safe :
  forall name : string,
    (valid_identifier name = true /\ is_reserved name = false ->
     sanitize_column_name name = name)
    /\ (valid_identifier name = false \/ is_reserved name = true ->
        sanitize_column_name name = quote_identifier name)
    /\ is_reserved (sanitize_column_name name) = false
    /\ unquote_table (sanitize_column_name name) = name
    /\ forall other : string,
         sanitize_column_name other = sanitize_column_name name ->
         other = name.
Proof.
  assert (H : forall name, unquote_table (sanitize_column_name name) = name).
  { intros name.
    destruct (sanitize_column_name_cases name) as [(-> & Hv & _)|(-> & _)].
    - now apply unquote_valid_identifier.
    - apply unquote_quote_identifier. }
  intros name.
  refine (conj _ (conj _ (conj _ (conj (H name) _)))).
  - intros [Hv Hr]. unfold sanitize_column_name. now rewrite Hv, Hr.
  - intros Hq. unfold sanitize_column_name.
    destruct Hq as [-> | ->]; [reflexivity | now rewrite andb_false_r].
  - destruct (sanitize_column_name_cases name) as [(-> & _ & Hr)|(-> & _)].
    + exact Hr.
    + apply is_reserved_quoted.
  - intros other Heq. rewrite <- (H other), Heq. apply H.
Qed.

Lemma sanitize_column_name_witness :
  sanitize_column_name "Order" = quote_identifier "Order"
  /\ sanitize_column_name "unit price" = quote_identifier "unit price"
  /\ sanitize_column_name "Total" = "Total"
  /\ sanitize_column_name ("select" ++ String newline EmptyString)
     = "select" ++ String newline EmptyString.
Proof.
  refine (conj _ (conj _ (conj _ _))).
  - apply (proj1 (proj2 (sanitize_column_name_safe "Order"))). now right.
  - apply (proj1 (proj2 (sanitize_column_name_safe "unit price"))). now left.
  - apply (proj1 (sanitize_column_name_safe "Total")). now split.
  - apply (proj1 (sanitize_column_name_safe
                    ("select" ++ String newline EmptyString))).
    now split.
Defined.

Local Open Scope list_scope.

Lemma strip_strip (s : string) : strip (strip s) = strip s.
Proof. apply tight_strip, strip_tight. Qed.

Lemma trimmed_string_spec (h : header) :
  trimmed_string h = true <-> h = HStr (entry_name h).
Proof.
  destruct h as [|s|t]; simpl; unfold entry_name; simpl.
  - split; discriminate.
  - rewrite String.eqb_eq. split; [intros ->|intros [= H]]; congruence.
  - split; discriminate.
Qed.

Lemma label_found (hs : list header) (name : string) :
  existsb (fun h => match h with
                    | HStr s => String.eqb s name
                    | _ => false
                    end) hs = true
  <-> In (HStr name) hs.
Proof.
  rewrite existsb_exists. split.
  - intros ([|s|t] & Hin & Heq); try discriminate.
    apply String.eqb_eq in Heq. now subst.
  - intros Hin. exists (HStr name). split; [exact Hin|].
    apply String.eqb_refl.
Qed.

Lemma NoDup_map_same {A B : Type} (f : A -> B) (l : list A) (x y : A) :
  NoDup (map f l) -> In x l -> In y l -> f x = f y -> x = y.
Proof.
  induction l as [|a l IH]; simpl; [contradiction|].
  intros Hnd Hx Hy Hf. inversion Hnd as [|? ? Hnot Hnd']; subst.
  destruct Hx as [->|Hx], Hy as [->|Hy]; auto.
  - exfalso. apply Hnot. rewrite Hf. now apply in_map.
  - exfalso. apply Hnot. rewrite <- Hf. now apply in_map.
Qed.

Lemma lookup_type_label (infer : DataFrame -> header -> string)
  (df : DataFrame) (h : header) :
  acceptable (labels df) -> In h (labels df) ->
  lookup_type infer df (entry_name h)
  = if trimmed_string h then Return (infer df h)
    else Raise (KeyError (entry_name h)).
Proof.
  intros [_ Hnd] Hin. unfold lookup_type.
  destruct (trimmed_string h) eqn:Ht.
  - apply trimmed_string_spec in Ht.
    rewrite (proj2 (label_found _ _)) by (now rewrite <- Ht).
    now rewrite <- Ht.
  - destruct (existsb _ (labels df)) eqn:Hfound; [|reflexivity].
    apply label_found in Hfound.
    assert (Hsame : HStr (entry_name h) = h).
    { apply (NoDup_map_same folded_name (labels df)); auto.
      change (folded_name (HStr (entry_name h)))
        with (lower (strip (strip (str_of_header h)))).
      now rewrite strip_strip. }
    assert (trimmed_string h = true) by (now apply trimmed_string_spec).
    congruence.
Qed.

Lemma column_schemas_labels (infer : DataFrame -> header -> string)
  (df : DataFrame) :
  acceptable (labels df) ->
  forall hs : list header,
    incl hs (labels df) ->
    match column_schemas infer df (map entry_name hs) with
    | Return columns =>
        forallb trimmed_string hs = true
        /\ columns = map (column_of infer df) hs
    | Raise e =>
        exists before h after,
          hs = before ++ h :: after
          /\ forallb trimmed_string before = true
          /\ trimmed_string h = false
          /\ e = KeyError (entry_name h)
    end.
Proof.
  intros Hacc. induction hs as [|h hs IH]; intros Hincl; [now split|].
  cbn [map column_schemas].
  rewrite (lookup_type_label infer df h Hacc) by (apply Hincl; now left).
  destruct (trimmed_string h) eqn:Ht.
  - cbn [bind]. specialize (IH (fun x Hx => Hincl x (or_intror Hx))).
    destruct (column_schemas infer df (map entry_name hs)) as [columns|e].
    + destruct IH as [Hall ->]. cbn [bind forallb]. now rewrite Ht.
    + destruct IH as (before & x & after & -> & Hb & Hx & ->).
      cbn [bind]. exists (h :: before), x, after.
      cbn [forallb]. now rewrite Ht.
  - cbn [bind]. now exists [], h, hs.
Qed.

(** X9.  [build_table_schema] returns a schema exactly when the labels of
    the frame pass [validate_headers] and each label is a string with no
    blank at either end; the schema then has one nullable column per label,
    in order, under the sanitized name, and the row count of the frame.  A
    label that passes validation but is not such a string (a number, or a
    string with a blank at an end) makes the lookup [types[col_name]] fail:
    the call raises KeyError for the trimmed name of the first such
    label.  (Type inference is taken as a total function.) *)
Theorem build_table_schema_contract :
  forall (infer : DataFrame -> header -> string) (df : DataFrame)
         (table_name : string),
    (forall schema,
        build_table_schema infer df table_name = Return schema
        <-> acceptable (labels df)
            /\ forallb trimmed_string (labels df) = true
            /\ schema = mkSchema table_name (sanitize_column_name table_name)
                          (map (column_of infer df) (labels df))
                          (Z.of_nat (List.length (records df))))
    /\ (forall before h after,
           acceptable (labels df) ->
           labels df = before ++ h :: after ->
           forallb trimmed_string before = true ->
           trimmed_string h = false ->
           build_table_schema infer df table_name
           = Raise (KeyError (entry_name h))).
Proof.
  intros infer df table_name. unfold build_table_schema.
  pose proof (validate_headers_loop_spec (labels df) [] 0%Z [] []
                loop_state_initial) as Hv.
  unfold validate_headers. cbn [app] in Hv.
  destruct (validate_headers_loop 0 [] [] (labels df)) as [names|e].
  - destruct Hv as [Hacc ->]. cbn [bind].
    pose proof (column_schemas_labels infer df Hacc (labels df)
                  (incl_refl _)) as Hc.
    destruct (column_schemas infer df (map entry_name (labels df)))
      as [columns|e]; cbn [bind].
    + destruct Hc as [Hall ->]. split.
      * intros schema. split.
        -- intros [= <-]. auto.
        -- now intros (_ & _ & ->).
      * intros before h after _ Heq _ Hh. exfalso.
        rewrite Heq, forallb_app in Hall. cbn [forallb] in Hall.
        rewrite Hh, andb_false_r in Hall. discriminate.
    + destruct Hc as (before & h & after & Heq & Hb & Hh & ->). split.
      * intros schema. split; [discriminate|].
        intros (_ & Hall & _). exfalso.
        rewrite Heq, forallb_app in Hall. cbn [forallb] in Hall.
        rewrite Hh, andb_false_r in Hall. discriminate.
      * intros before' h' after' _ Heq' Hb' Hh'. f_equal. f_equal.
        rewrite Heq in Heq'.
        enough (before = before' /\ h = h') as [_ ->] by reflexivity.
        clear - Heq' Hb Hh Hb' Hh'.
        revert before' Heq' Hb'.
        induction before as [|x before IH]; intros [|y before'] Heq' Hb'.
        -- now injection Heq'.
        -- injection Heq' as -> _. cbn [forallb] in Hb'.
           rewrite Hh in Hb'. discriminate.
        -- injection Heq' as -> _. cbn [forallb] in Hb.
           rewrite Hh' in Hb. discriminate.
        -- injection Heq' as -> Heq'. cbn [forallb] in Hb, Hb'.
           apply andb_true_iff in Hb as [_ Hb].
           apply andb_true_iff in Hb' as [_ Hb'].
           destruct (IH Hb before' Heq' Hb') as [-> ->]. now split.
  - destruct Hv as (mid & h & after & Heq & Hmid & Hrej). cbn [bind].
    split.
    + intros schema. split; [discriminate|].
      intros (Hacc & _). exfalso.
      rewrite Heq in Hacc. apply acceptable_middle in Hacc as [Hne Hfresh].
      destruct Hrej as [[He _]|(_ & (a & Ha & Hsame) & _)];
        [contradiction|].
      apply Hfresh. rewrite <- Hsame. now apply in_map.
    + intros before' h' after' Hacc _ _ _. exfalso.
      rewrite Heq in Hacc. apply acceptable_middle in Hacc as [Hne Hfresh].
      destruct Hrej as [[He _]|(_ & (a & Ha & Hsame) & _)];
        [contradiction|].
      apply Hfresh. rewrite <- Hsame. now apply in_map.
Qed.

Local Open Scope string_scope.

Lemma build_table_schema_key_error_witness :
  build_table_schema (fun _ _ => SQLITE_TEXT)
    (mkFrame [HStr "id"; HStr " Name "] []) "Orders"
  = Raise (KeyError "Name").
Proof.
  apply (proj2 (build_table_schema_contract (fun _ _ => SQLITE_TEXT)
                  (mkFrame [HStr "id"; HStr " Name "] []) "Orders")
           [HStr "id"] (HStr " Name ") []); try reflexivity.
  split.
  - repeat constructor; intros [H|H]; discriminate.
  - vm_compute. repeat constructor; simpl; intuition discriminate.
Defined.

(** *** schema.py: resolving a reference *)

Lemma parse_reference_excel_ref (t : string) (r : TableReference) :
  parse_reference t = Return r -> exists target, excel_ref r = Some target.
Proof.
  unfold parse_reference.
  destruct (negb (nonempty t) || negb (nonempty (strip t))); [discriminate|].
  destruct (sheet_pattern "!" matches_range (strip t)) as [[sheet rng]|].
  { intros [= <-]. unfold excel_ref. simpl. destruct (nonempty sheet); eauto. }
  destruct (matches_range (strip t)).
  { intros [= <-]. unfold excel_ref. simpl. eauto. }
  destruct (sheet_pattern "." one_line (strip t)) as [[sheet tbl]|];
    intros [= <-]; unfold excel_ref; simpl; [|eauto].
  destruct (nonempty sheet); eauto.
Qed.

(** X10.  For a reference that [extract_table_references] found in a query,
    [resolve_reference] always has a reference string for the host.  When
    it returns, the host is available and the frame is the one the host
    gave for that string, with at least one row and one column.  Every
    failure is a RangeResolution error with a reason or an EmptyRange
    error, naming the [original] of the reference: the text the extractor
    put together, which leaves out blanks that follow a sheet separator in
    the query. *)
Theorem resolve_extracted_reference :
  forall (E : Env) (query : string) (r : TableReference),
    In r (extract_table_references query) ->
    exists target,
      excel_ref r = Some target
      /\ match resolve_reference E r with
         | Return df =>
             xl_available E = true
             /\ xl E (Some target) = XlFrame df
             /\ records df <> [] /\ labels df <> []
         | Raise e =>
             (exists reason,
                 nonempty reason = true
                 /\ e = Excel (RangeResolutionError (original r)
                                 (Some reason)))
             \/ e = Excel (EmptyRangeError (original r))
         end.
Proof.
  intros E query r Hin.
  destruct (extraction_loops_invariant
              (_remove_comments (_remove_string_literals query)))
    as (_ & _ & _ & Hparse).
  rewrite Forall_forall in Hparse. specialize (Hparse r Hin).
  destruct (parse_reference_excel_ref _ _ Hparse) as [target Ht].
  exists target. split; [exact Ht|].
  unfold resolve_reference. rewrite Ht.
  destruct (xl_available E); cbn [negb].
  - destruct (xl E (Some target)) as [text| |type_name|df] eqn:Hxl.
    + left. eexists. split; [|reflexivity]. reflexivity.
    + left. eexists. split; [|reflexivity]. reflexivity.
    + left. eexists. split; [|reflexivity]. reflexivity.
    + destruct (records df) as [|row more] eqn:Hrec; [now right|].
      destruct (labels df) as [|h hs] eqn:Hlab.
      * left. eexists. split; [|reflexivity]. reflexivity.
      * repeat split; congruence.
  - left. eexists. split; [|reflexivity]. reflexivity.
Qed.

Lemma resolve_extracted_reference_witness :
  exists target,
    excel_ref (mkRef "Orders" None (Some "Orders") None "orders")
    = Some target
    /\ match resolve_reference (Fixture.env Fixture.two_orders)
               (mkRef "Orders" None (Some "Orders") None "orders") with
       | Return df =>
           xl_available (Fixture.env Fixture.two_orders) = true
           /\ xl (Fixture.env Fixture.two_orders) (Some target) = XlFrame df
           /\ records df <> [] /\ labels df <> []
       | Raise e =>
           (exists reason,
               nonempty reason = true
               /\ e = Excel (RangeResolutionError "Orders" (Some reason)))
           \/ e = Excel (EmptyRangeError "Orders")
       end.
Proof.
  apply (resolve_extracted_reference (Fixture.env Fixture.two_orders)
           "SELECT * FROM Orders"
           (mkRef "Orders" None (Some "Orders") None "orders")).
  vm_compute. now left.
Defined.

(** *** executor.py: query types and statement splitting *)

Lemma upper_chars_blank (c : ascii) :
  isspace c = true -> upper_chars c = String c EmptyString.
Proof. destruct c as [[] [] [] [] [] [] [] []]; intros H; try reflexivity;
  discriminate H. Qed.

Lemma upper_chars_head (c : ascii) :
  isspace c = false ->
  exists d t, upper_chars c = String d t /\ isspace d = false.
Proof.
  intros H. unfold upper_chars.
  destruct (Nat.eqb (code c) 223); [now exists "S"%char, "S"|].
  destruct (islower c || latin_lower c) eqn:Hl; [|now exists c, EmptyString].
  eexists _, _. split; [reflexivity|].
  revert H Hl. destruct c as [[] [] [] [] [] [] [] []]; vm_compute; congruence.
Qed.

Lemma rstrip_upper_chars (c : ascii) :
  rstrip_by isspace (upper_chars c)
  = if isspace c then EmptyString else upper_chars c.
Proof. destruct c as [[] [] [] [] [] [] [] []]; reflexivity. Qed.

Lemma rstrip_append (p : ascii -> bool) (a b : string) :
  rstrip_by p (a ++ b)
  = match rstrip_by p b with
    | EmptyString => rstrip_by p a
    | String d t => a ++ String d t
    end.
Proof.
  induction a as [|c r IH]; cbn [append].
  - now destruct (rstrip_by p b).
  - cbn [rstrip_by]. rewrite IH.
    destruct (rstrip_by p b) as [|d t]; [reflexivity|].
    now destruct r.
Qed.

Lemma lstrip_upper (s : string) :
  lstrip_by isspace (upper s) = upper (lstrip_by isspace s).
Proof.
  induction s as [|c r IH]; [reflexivity|].
  cbn [upper lstrip_by]. destruct (isspace c) eqn:Hc.
  - rewrite (upper_chars_blank c Hc). cbn [append lstrip_by]. now rewrite Hc.
  - destruct (upper_chars_head c Hc) as (d & t & Hu & Hd).
    cbn [upper]. rewrite Hu. cbn [append lstrip_by]. now rewrite Hd.
Qed.

Lemma upper_nonempty (c : ascii) (r : string) :
  exists d t, upper (String c r) = String d t.
Proof.
  cbn [upper]. unfold upper_chars.
  destruct (Nat.eqb (code c) 223); [now eexists _, _|].
  destruct (islower c || latin_lower c); now eexists _, _.
Qed.

Lemma rstrip_upper (s : string) :
  rstrip_by isspace (upper s) = upper (rstrip_by isspace s).
Proof.
  induction s as [|c r IH]; [reflexivity|].
  cbn [upper]. rewrite rstrip_append, IH. cbn [rstrip_by].
  destruct (rstrip_by isspace r) as [|d t].
  - cbn [upper]. rewrite rstrip_upper_chars.
    destruct (isspace c); [reflexivity|].
    cbn [upper]. now rewrite append_empty_r.
  - change (upper (String c (String d t)))
      with (upper_chars c ++ upper (String d t)).
    destruct (upper_nonempty d t) as (e & u & He). now rewrite He.
Qed.

Lemma strip_upper (s : string) : strip (upper s) = upper (strip s).
Proof. unfold strip, strip_by. now rewrite lstrip_upper, rstrip_upper. Qed.

Lemma isspace_lower_char (c : ascii) : isspace (lower_char c) = isspace c.
Proof. destruct c as [[] [] [] [] [] [] [] []]; reflexivity. Qed.

Lemma lstrip_map_chars (f : ascii -> ascii) (s : string) :
  (forall c, isspace (f c) = isspace c) ->
  lstrip_by isspace (map_chars f s) = map_chars f (lstrip_by isspace s).
Proof.
  intros Hf. induction s as [|c r IH]; [reflexivity|].
  cbn [map_chars lstrip_by]. rewrite Hf.
  destruct (isspace c); [exact IH | reflexivity].
Qed.

Lemma rstrip_map_chars (f : ascii -> ascii) (s : string) :
  (forall c, isspace (f c) = isspace c) ->
  rstrip_by isspace (map_chars f s) = map_chars f (rstrip_by isspace s).
Proof.
  intros Hf. induction s as [|c r IH]; [reflexivity|].
  cbn [map_chars rstrip_by]. rewrite IH, Hf.
  destruct (rstrip_by isspace r); cbn [map_chars]; [|reflexivity].
  destruct (isspace c); reflexivity.
Qed.

Lemma strip_map_chars (f : ascii -> ascii) (s : string) :
  (forall c, isspace (f c) = isspace c) ->
  strip (map_chars f s) = map_chars f (strip s).
Proof.
  intros Hf. unfold strip, strip_by.
  now rewrite lstrip_map_chars, rstrip_map_chars.
Qed.

Lemma detect_query_type_stripped (a b : string) :
  upper (strip a) = upper (strip b) ->
  detect_query_type a = detect_query_type b.
Proof. intros H. unfold detect_query_type. now rewrite H. Qed.

(** X11.  [detect_query_type] does not depend on the letter case of the
    query nor on blanks around it, and its answer is OTHER or one of the
    eight statement keywords. *)
Theorem detect_query_type_ignores_case_and_blanks :
  forall query : string,
    detect_query_type (upper query) = detect_query_type query
    /\ detect_query_type (lower query) = detect_query_type query
    /\ detect_query_type (strip query) = detect_query_type query
    /\ In (detect_query_type query) ("OTHER" :: statement_keywords).
Proof.
  intros query. refine (conj _ (conj _ (conj _ _))).
  - apply detect_query_type_stripped. rewrite strip_upper.
    apply upper_idempotent.
  - apply detect_query_type_stripped. unfold lower.
    rewrite (strip_map_chars _ _ isspace_lower_char).
    apply upper_lower.
  - apply detect_query_type_stripped. now rewrite strip_strip.
  - unfold detect_query_type.
    destruct (startswith "WITH" (upper (strip query))).
    + destruct (contains "SELECT" (upper (strip query))); simpl; auto.
    + destruct (find _ statement_keywords) as [k|] eqn:Hf; [|now left].
      right. now apply find_some in Hf.
Qed.

Local Open Scope list_scope.




Lemma flush_shape (statements : list string) (current : string) :
  Forall statement_shape statements ->
  Forall statement_shape (flush statements current).
Proof.
  intros H. unfold flush.
  destruct (nonempty (strip current)) eqn:Hn; [|exact H].
  apply Forall_app. split; [exact H|].
  constructor; [|constructor]. split; [exact Hn | apply strip_strip].
Qed.

Lemma split_statements_loop_shape (n : nat) :
  forall (sql : string) statements current st,
    (String.length sql <= n)%nat ->
    Forall statement_shape statements ->
    Forall statement_shape (split_statements_loop statements current st sql).
Proof.
  induction n as [|n IH]; intros sql statements current st Hlen H.
  - destruct sql; [|simpl in Hlen; lia]. now apply flush_shape.
  - destruct sql as [|c rest]; [now apply flush_shape|].
    simpl in Hlen. cbn [split_statements_loop].
    destruct st as [q|].
    + destruct (Ascii.eqb c q).
      * destruct rest as [|d rest'].
        -- apply IH; [simpl; lia | exact H].
        -- destruct (Ascii.eqb d q).
           ++ apply IH; [simpl in Hlen; lia | exact H].
           ++ apply IH; [lia | exact H].
      * apply IH; [lia | exact H].
    + destruct (is_quote c); [apply IH; [lia | exact H]|].
      destruct (Ascii.eqb c ";"%char).
      * apply IH; [lia | now apply flush_shape].
      * apply IH; [lia | exact H].
Qed.

Local Open Scope string_scope.

Lemma no_semicolon_prefix (n : nat) :
  forall (a b : string) (st : option ascii),
    (String.length a <= n)%nat ->
    semicolon_outside_literals_loop st (a ++ b) = false ->
    semicolon_outside_literals_loop st a = false.
Proof.
  induction n as [|n IH]; intros a b st Hlen H.
  - destruct a; [reflexivity | simpl in Hlen; lia].
  - destruct a as [|c r]; [reflexivity|].
    simpl in Hlen. cbn [append semicolon_outside_literals_loop] in *.
    destruct st as [q|].
    + destruct (Ascii.eqb c q).
      * destruct r as [|d r']; [reflexivity|].
        cbn [append] in H. destruct (Ascii.eqb d q).
        -- apply (IH r' b); [simpl in Hlen; lia | exact H].
        -- apply (IH (String d r') b); [lia | exact H].
      * apply (IH r b); [lia | exact H].
    + destruct (is_quote c); [apply (IH r b); [lia | exact H]|].
      destruct (Ascii.eqb c ";"%char); [discriminate|].
      apply (IH r b); [lia | exact H].
Qed.

Lemma rstrip_prefix (p : ascii -> bool) (s : string) :
  exists b, s = rstrip_by p s ++ b.
Proof.
  induction s as [|c r [b Hb]]; [now exists EmptyString|].
  cbn [rstrip_by]. destruct (rstrip_by p r) as [|d t].
  - destruct (p c).
    + now exists (String c r).
    + exists b. cbn [append] in *. now rewrite <- Hb.
  - exists b. cbn [append] in *. now rewrite <- Hb.
Qed.

Lemma space_not_special (c : ascii) :
  isspace c = true -> is_quote c = false /\ Ascii.eqb c ";" = false.
Proof. destruct c as [[] [] [] [] [] [] [] []]; now intros. Qed.

Lemma no_semicolon_lstrip (s : string) :
  semicolon_outside_literals_loop None s = false ->
  semicolon_outside_literals_loop None (lstrip_by isspace s) = false.
Proof.
  induction s as [|c r IH]; [reflexivity|].
  intros H. cbn [lstrip_by]. destruct (isspace c) eqn:Hc; [|exact H].
  apply IH. cbn [semicolon_outside_literals_loop] in H.
  destruct (space_not_special c Hc) as [Hq Hs]. now rewrite Hq, Hs in H.
Qed.

Lemma no_semicolon_strip (s : string) :
  semicolon_outside_literals_loop None s = false ->
  semicolon_outside_literals (strip s) = false.
Proof.
  intros H. apply no_semicolon_lstrip in H.
  unfold semicolon_outside_literals, strip, strip_by.
  destruct (rstrip_prefix isspace (lstrip_by isspace s)) as [b Hb].
  rewrite Hb in H.
  now apply (no_semicolon_prefix _ _ b None (le_n _)) in H.
Qed.

Lemma flush_single (statements : list string) (current : string)
  (st avoid : option ascii) :
  scanned current st avoid ->
  Forall single_statement statements ->
  Forall single_statement (flush statements current).
Proof.
  intros Hs H. unfold flush.
  destruct (nonempty (strip current)) eqn:Hn; [|exact H].
  apply Forall_app. split; [exact H|].
  constructor; [|constructor]. split.
  - split; [exact Hn | apply strip_strip].
  - apply no_semicolon_strip.
    specialize (Hs EmptyString). rewrite append_empty_r in Hs.
    rewrite Hs; [now destruct st | now destruct avoid].
Qed.

Lemma scanned_push (current : string) (st st' avoid avoid' : option ascii)
  (c : ascii) :
  scanned current st avoid ->
  respects avoid (String c EmptyString) ->
  (forall tail,
      respects avoid' tail ->
      semicolon_outside_literals_loop st (String c tail)
      = semicolon_outside_literals_loop st' tail) ->
  scanned (push current c) st' avoid'.
Proof.
  intros Hs Hc Hstep tail Ht. rewrite push_append.
  rewrite Hs; [now apply Hstep|].
  destruct avoid; [exact Hc | exact I].
Qed.

Lemma split_statements_loop_single (n : nat) :
  forall (sql : string) statements current st avoid,
    (String.length sql <= n)%nat ->
    scanned current st avoid ->
    respects avoid sql ->
    Forall single_statement statements ->
    Forall single_statement (split_statements_loop statements current st sql).
Proof.
  induction n as [|n IH]; intros sql statements current st avoid Hlen Hs Hr H.
  - destruct sql; [|simpl in Hlen; lia]. now apply (flush_single _ _ st avoid).
  - destruct sql as [|c rest]; [now apply (flush_single _ _ st avoid)|].
    simpl in Hlen. cbn [split_statements_loop].
    assert (Hc : respects avoid (String c EmptyString))
      by (destruct avoid; exact Hr).
    destruct st as [q|].
    + destruct (Ascii.eqb_spec c q) as [->|Hne].
      * destruct rest as [|d rest'].
        -- apply (IH _ _ _ None (Some q)); [simpl; lia | | exact I | exact H].
           apply (scanned_push _ _ _ _ _ _ Hs Hc).
           intros tail Ht. cbn [semicolon_outside_literals_loop].
           rewrite Ascii.eqb_refl. destruct tail as [|e t]; [reflexivity|].
           simpl in Ht. apply Ascii.eqb_neq in Ht. now rewrite Ht.
        -- destruct (Ascii.eqb_spec d q) as [->|Hd].
           ++ apply (IH _ _ _ (Some q) None);
                [simpl in Hlen; lia | | exact I | exact H].
              intros tail _. unfold push. rewrite !append_assoc.
              cbn [append]. rewrite (Hs (String q (String q tail))).
              ** cbn [semicolon_outside_literals_loop].
                 now rewrite Ascii.eqb_refl.
              ** destruct avoid; [exact Hr | exact I].
           ++ apply (IH _ _ _ None (Some q)); [lia | | exact Hd | exact H].
              apply (scanned_push _ _ _ _ _ _ Hs Hc).
              intros tail Ht. cbn [semicolon_outside_literals_loop].
              rewrite Ascii.eqb_refl. destruct tail as [|e t]; [reflexivity|].
              simpl in Ht. apply Ascii.eqb_neq in Ht. now rewrite Ht.
      * apply (IH _ _ _ (Some q) None); [lia | | exact I | exact H].
        apply (scanned_push _ _ _ _ _ _ Hs Hc).
        intros tail _. cbn [semicolon_outside_literals_loop].
        apply Ascii.eqb_neq in Hne. now rewrite Hne.
    + destruct (is_quote c) eqn:Hq.
      * apply (IH _ _ _ (Some c) None); [lia | | exact I | exact H].
        apply (scanned_push _ _ _ _ _ _ Hs Hc).
        intros tail _. cbn [semicolon_outside_literals_loop]. now rewrite Hq.
      * destruct (Ascii.eqb c ";"%char) eqn:Hsemi.
        -- apply (IH _ _ _ None None); [lia | | exact I |].
           ++ intros tail _. reflexivity.
           ++ now apply (flush_single _ _ None avoid).
        -- apply (IH _ _ _ None None); [lia | | exact I | exact H].
           apply (scanned_push _ _ _ _ _ _ Hs Hc).
           intros tail _. cbn [semicolon_outside_literals_loop].
           now rewrite Hq, Hsemi.
Qed.

Local Open Scope list_scope.

(** X12.  Every statement [split_statements] returns is non-empty, has no
    blank at either end, and is one statement for [split_statements]
    itself: splitting it again gives it back alone. *)
Theorem split_statements_returns_single_statements :
  forall sql : string,
    Forall (fun stmt =>
              nonempty stmt = true /\ strip stmt = stmt
              /\ split_statements stmt = [stmt])
      (split_statements sql).
Proof.
  intros sql.
  assert (H : Forall single_statement (split_statements sql)).
  { apply (split_statements_loop_single (String.length sql) sql [] EmptyString
             None None (le_n _)); [|exact I | constructor].
    intros tail _. reflexivity. }
  apply (Forall_impl _ (P := single_statement)); [|exact H].
  intros stmt [[Hn Hstrip] Hsemi]. refine (conj Hn (conj Hstrip _)).
  rewrite (no_outside_semicolon_one_statement _ Hsemi).
  unfold flush. now rewrite Hstrip, Hn.
Qed.

(** X13.  [execute_multiple_statements] on a text without a semicolon
    outside string literals runs one statement: it is [execute_query] on
    the trimmed text with no parameters (a parameter tuple is never passed
    on this path); on a blank text it returns the EMPTY result without
    calling the engine. *)
Theorem execute_multiple_statements_single :
  forall (E : Env) (c : conn E) (sql : string),
    semicolon_outside_literals sql = false ->
    execute_multiple_statements E c sql
    = if nonempty (strip sql) then execute_query E c (strip sql) []
      else Return (c, empty_result).
Proof.
  intros E c sql H. unfold execute_multiple_statements.
  rewrite (no_outside_semicolon_one_statement _ H). unfold flush.
  destruct (nonempty (strip sql)) eqn:Hn; [|reflexivity].
  cbn [app run_statements]. rewrite strip_strip, Hn. cbn [negb].
  destruct (execute_query E c (strip sql) []) as [[c' result]|e];
    [|reflexivity].
  cbn [bind run_statements]. now destruct (is_select result).
Qed.

Lemma execute_multiple_statements_single_witness :
  execute_multiple_statements (Fixture.env Fixture.two_orders) tt
    " SELECT 'a;b' "
  = execute_query (Fixture.env Fixture.two_orders) tt "SELECT 'a;b'" [].
Proof.
  apply (execute_multiple_statements_single
           (Fixture.env Fixture.two_orders) tt " SELECT 'a;b' ").
  reflexivity.
Defined.

Local Open Scope string_scope.

(** *** output.py and main.py: limits and shaping *)

Lemma all_chars_rev (p : ascii -> bool) (s : string) :
  all_chars p s = true -> all_chars p (rev_string s) = true.
Proof.
  induction s as [|c r IH]; [reflexivity|].
  cbn [all_chars rev_string]. intros H. apply andb_true_iff in H as [Hc Hr].
  rewrite all_chars_append, (IH Hr). cbn [all_chars]. now rewrite Hc.
Qed.

Lemma all_chars_group3 (n : nat) :
  forall s : string,
    (String.length s <= n)%nat ->
    all_chars numeral_char s = true ->
    all_chars numeral_char (group3 s) = true.
Proof.
  induction n as [|n IH]; intros s Hlen H.
  - destruct s; [reflexivity | simpl in Hlen; lia].
  - destruct s as [|a [|b [|c [|d r]]]]; try exact H.
    change (group3 (String a (String b (String c (String d r)))))
      with (String a (String b (String c
              (String ","%char (group3 (String d r)))))).
    assert (Hrest : all_chars numeral_char (String d r) = true).
    { cbn [all_chars] in H.
      apply andb_true_iff in H as [_ H]. apply andb_true_iff in H as [_ H].
      now apply andb_true_iff in H as [_ H]. }
    cbn [all_chars] in H.
    apply andb_true_iff in H as [Ha H]. apply andb_true_iff in H as [Hb H].
    apply andb_true_iff in H as [Hc _].
    change (all_chars numeral_char
              (String a (String b (String c
                 (String ","%char (group3 (String d r)))))))
      with (numeral_char a && (numeral_char b && (numeral_char c
              && (true && all_chars numeral_char (group3 (String d r)))))).
    rewrite Ha, Hb, Hc. cbn [andb].
    apply IH; [simpl in Hlen; simpl; lia | exact Hrest].
Qed.

Lemma all_chars_digits (d : Decimal.uint) :
  all_chars numeral_char (NilEmpty.string_of_uint d) = true.
Proof.
  induction d as [|d IH|d IH|d IH|d IH|d IH|d IH|d IH|d IH|d IH|d IH];
    [reflexivity|..];
    (change (true && all_chars numeral_char (NilEmpty.string_of_uint d)
             = true);
     now rewrite IH).
Qed.

Lemma all_chars_string_of_uint (d : Decimal.uint) :
  all_chars numeral_char (NilZero.string_of_uint d) = true.
Proof.
  destruct d; [reflexivity|..];
    exact (all_chars_digits _).
Qed.

Lemma all_chars_str_of_Z (n : Z) : all_chars numeral_char (str_of_Z n) = true.
Proof.
  unfold str_of_Z. destruct (Z.to_int n) as [d|d].
  - apply all_chars_string_of_uint.
  - change (true && all_chars numeral_char (NilZero.string_of_uint d) = true).
    now rewrite all_chars_string_of_uint.
Qed.

Lemma all_chars_format_thousands (n : Z) :
  all_chars numeral_char (format_thousands n) = true.
Proof.
  unfold format_thousands.
  apply all_chars_rev, (all_chars_group3 _ _ (le_n _)), all_chars_rev,
    all_chars_str_of_Z.
Qed.

Lemma numeral_char_not_e (c : ascii) :
  numeral_char c = true -> Ascii.eqb "e" c = false.
Proof. destruct c as [[] [] [] [] [] [] [] []]; now intros. Qed.

Lemma contains_skips_numeral (sub' digits rest : string) :
  all_chars numeral_char digits = true ->
  contains (String "e" sub') (digits ++ rest)
  = contains (String "e" sub') rest.
Proof.
  induction digits as [|c r IH]; [reflexivity|].
  cbn [all_chars]. intros H. apply andb_true_iff in H as [Hc Hr].
  cbn [append contains startswith].
  now rewrite (numeral_char_not_e c Hc), (IH Hr).
Qed.

(** X14.  A result within the limits of a sheet, at most 1,048,576 rows and
    16,384 columns, is never refused by the limit check: the soft warning
    above 100,000 rows is dropped and the result is shaped by
    [format_result]. *)
Theorem results_within_limits_are_shaped :
  forall (E : Env) (result : ExecutionResult),
    (len (rows result) <= EXCEL_MAX_ROWS)%Z ->
    (len (columns result) <= EXCEL_MAX_COLS)%Z ->
    shape_stage E result = format_result E result.
Proof.
  intros E result Hr Hc.
  unfold shape_stage, check_output_limits, len in *.
  destruct (Z.gtb_spec (Z.of_nat (List.length (rows result))) EXCEL_MAX_ROWS)
    as [H|_]; [lia|].
  destruct (Z.gtb_spec (Z.of_nat (List.length (columns result)))
              EXCEL_MAX_COLS) as [H|_]; [lia|].
  destruct (Z.of_nat (List.length (rows result)) >? RECOMMENDED_MAX_ROWS)%Z;
    [|reflexivity].
  set (digits := format_thousands (Z.of_nat (List.length (rows result)))).
  change (contains "exceeding"
            ("Warning: Result has "
               ++ digits
               ++ " rows. Large outputs may "
               ++ "impact Excel performance. Consider using LIMIT clause."))
    with (contains "exceeding"
            (digits
               ++ " rows. Large outputs may "
               ++ "impact Excel performance. Consider using LIMIT clause.")).
  rewrite contains_skips_numeral by apply all_chars_format_thousands.
  reflexivity.
Qed.

Lemma results_within_limits_witness :
  shape_stage (Fixture.env Fixture.two_orders)
    (mkResult ["n"] [[VInt 1]] 1%Z None "SELECT")
  = format_result (Fixture.env Fixture.two_orders)
      (mkResult ["n"] [[VInt 1]] 1%Z None "SELECT").
Proof.
  apply results_within_limits_are_shaped; vm_compute; discriminate.
Defined.

(** X15.  For a statement whose detected type is not SELECT, PRAGMA or
    EXPLAIN, [execute_query] reads nothing from the cursor but its row
    count and last row id, and [format_result] shows, without building a
    frame from rows: the row count for INSERT, UPDATE and DELETE, OK for
    CREATE and DROP, and the empty frame for any other type. *)
Theorem statement_without_rows_is_reported :
  forall (E : Env) (c c' : conn E) (query : string) (params : list value)
         (result : ExecutionResult),
    row_producing (detect_query_type query) = false ->
    execute_query E c query params = Return (c', result) ->
    (exists cursor,
        cursor_execute E c query params = Return (c', cursor)
        /\ result = mkResult [] [] (cursor_rowcount cursor)
                      (cursor_lastrowid cursor) (detect_query_type query))
    /\ format_result E result
       = Return (status_frame (detect_query_type query) (rowcount result))
    /\ result_to_list_of_lists result true = [].
Proof.
  intros E c c' query params result Hrows. unfold execute_query.
  destruct (cursor_execute E c query params) as [[c1 cursor]|e];
    [|discriminate].
  cbn [bind]. rewrite Hrows. intros [= <- <-].
  split; [now exists cursor|]. split; [|reflexivity].
  unfold format_result, status_frame. cbn [columns rows query_type rowcount
    is_nil orb].
  destruct (is_dml (detect_query_type query)); [reflexivity|].
  now destruct (is_ddl (detect_query_type query)).
Qed.

Lemma statement_without_rows_witness :
  format_result (Fixture.env Fixture.two_orders)
    (mkResult [] [] (-1)%Z None "DELETE")
  = Return (result_frame "-1 rows affected").
Proof.
  apply (statement_without_rows_is_reported (Fixture.env Fixture.two_orders)
           tt tt "DELETE FROM t" []
           (mkResult [] [] (-1)%Z None "DELETE")); reflexivity.
Defined.

(** *** errors.py: the text of an engine error *)

Lemma before_first_absent (sep s : string) :
  contains sep s = false -> before_first sep s = s.
Proof.
  induction s as [|c r IH]; intros H.
  - simpl in *. rewrite orb_false_r in H. now rewrite H.
  - apply not_contains_tail in H as [Hs Hr].
    cbn [before_first]. now rewrite Hs, (IH Hr).
Qed.

(** X16.  The text shown for an operational error of the engine is the
    engine's message after "Error: ": for "no such table: <name>" and
    "no such column: <name>" with the name trimmed, and unchanged for a
    message that mentions neither a missing table nor a missing column. *)
Theorem operational_error_text_is_kept :
  forall text : string,
    (contains "no such table:" text = false ->
     format_error_for_excel
       (Foreign OperationalError ("no such table: " ++ text))
     = "Error: no such table: " ++ strip text)
    /\ (contains "no such table" text = false ->
        contains "no such column:" text = false ->
        format_error_for_excel
          (Foreign OperationalError ("no such column: " ++ text))
        = "Error: no such column: " ++ strip text)
    /\ (contains "no such table" text = false ->
        contains "no such column" text = false ->
        format_error_for_excel (Foreign OperationalError text)
        = "Error: " ++ text).
Proof.
  intros text. refine (conj _ (conj _ _)).
  - intros H.
    unfold format_error_for_excel, normalize_sqlite_error, class_of, str_exn,
      normalize_operational.
    change (contains "no such table" ("no such table: " ++ text)) with true.
    cbv iota.
    change (second_part "no such table:" ("no such table: " ++ text))
      with (Some (strip (String " " (before_first "no such table:" text)))).
    rewrite (before_first_absent _ _ H). reflexivity.
  - intros Ht Hc.
    unfold format_error_for_excel, normalize_sqlite_error, class_of, str_exn,
      normalize_operational.
    change (contains "no such table" ("no such column: " ++ text))
      with (contains "no such table" text).
    rewrite Ht.
    change (contains "no such column" ("no such column: " ++ text)) with true.
    cbv iota.
    change (second_part "no such column:" ("no such column: " ++ text))
      with (Some (strip (String " " (before_first "no such column:" text)))).
    rewrite (before_first_absent _ _ Hc). reflexivity.
  - intros Ht Hc.
    unfold format_error_for_excel, normalize_sqlite_error, class_of, str_exn,
      normalize_operational.
    rewrite Ht, Hc.
    destruct (contains "syntax error" (lower text)) eqn:Hs; [|reflexivity].
    unfold QuerySyntaxError. cbn [truthy].
    destruct text as [|c r]; [discriminate Hs | reflexivity].
Qed.

Lemma operational_error_text_witness :
  format_error_for_excel
    (Foreign OperationalError "no such table: Orders")
  = "Error: no such table: Orders".
Proof.
  apply (proj1 (operational_error_text_is_kept "Orders")). reflexivity.
Defined.

(** *** main.py: the orchestrator *)

Local Open Scope list_scope.

Lemma dict_set_absent (mapping : list (string * string)) (key name : string) :
  ~ In key (map fst mapping) ->
  dict_set mapping key name = mapping ++ [(key, name)].
Proof.
  induction mapping as [|[k v] rest IH]; [reflexivity|].
  cbn [map fst In dict_set app]. intros H.
  destruct (String.eqb_spec k key) as [->|_]; [exfalso; apply H; now left|].
  rewrite IH; [reflexivity|]. intros Hin. apply H. now right.
Qed.

Lemma load_references_appends (E : Env) (references : list TableReference) :
  forall c mapping c' mapping',
    NoDup (map fst mapping ++ map original references) ->
    load_references E c references mapping = Return (c', mapping') ->
    mapping' = mapping ++ map mapping_entry references.
Proof.
  induction references as [|ref rest IH]; intros c mapping c' mapping' Hnd H.
  - injection H as <- <-. now rewrite app_nil_r.
  - cbn [load_references] in H.
    destruct (resolve_reference E ref) as [df|e]; [|discriminate].
    cbn [bind] in H.
    destruct (validate_headers (labels df)) as [hs|e]; [|discriminate].
    cbn [bind] in H.
    destruct (load_table E c (sqlite_name ref) hs df) as [c1|e];
      [|discriminate].
    cbn [bind] in H. cbn [map] in Hnd.
    assert (Habsent : ~ In (original ref) (map fst mapping)).
    { intros Hin. apply NoDup_remove_2 in Hnd. apply Hnd.
      apply in_or_app. now left. }
    rewrite (dict_set_absent _ _ _ Habsent) in H.
    apply IH in H.
    + rewrite H, <- app_assoc. reflexivity.
    + rewrite map_app, <- app_assoc. exact Hnd.
Qed.

(** X17.  When the loading loop of [_execute_sqlite] succeeds, the mapping
    handed to [substitute_references] has exactly one entry per reference
    of the query, in the order of [extract_table_references]: the text of
    the reference and its engine name. *)
Theorem loaded_mapping_lists_the_references :
  forall (E : Env) (query : string) (c c' : conn E)
         (mapping : list (string * string)),
    load_references E c (extract_table_references query) []
    = Return (c', mapping) ->
    mapping = map mapping_entry (extract_table_references query).
Proof.
  intros E query c c' mapping H.
  apply load_references_appends in H; [exact H|].
  cbn [map app]. unfold extract_table_references.
  destruct (extraction_loops_invariant
              (_remove_comments (_remove_string_literals query)))
    as (Hmap & Hnd & _).
  rewrite Hmap. now apply NoDup_rev.
Qed.

Lemma loaded_mapping_witness :
  [("Orders", "orders")]
  = map mapping_entry (extract_table_references "SELECT * FROM Orders").
Proof.
  apply (loaded_mapping_lists_the_references
           (Fixture.env Fixture.two_orders) "SELECT * FROM Orders" tt tt).
  reflexivity.
Defined.

Local Open Scope string_scope.

(** X18.  Outside Python in Excel, where [xl] cannot be imported, a call
    that passes the two opening checks and whose query names a table or a
    range returns the RangeResolution text for the first reference, and no
    statement is sent to the engine. *)
Theorem SQLITE_without_host_names_first_reference :
  forall (E : Env) (query : string) (params : list value) (c : conn E)
         (r : TableReference) (rest : list TableReference),
    validate_call query params = Return tt ->
    connect E = Return c ->
    xl_available E = false ->
    extract_table_references query = (r :: rest)%list ->
    _execute_sqlite E query params = Raise (Excel (xl_unavailable (original r)))
    /\ SQLITE E query params
       = Text ("Error: cannot resolve range: " ++ original r
                 ++ " (xl() function not available - must run in Python in Excel environment)").
Proof.
  intros E query params c r rest Hv Hc Hx Hrefs.
  assert (H : _execute_sqlite E query params
              = Raise (Excel (xl_unavailable (original r)))).
  { unfold _execute_sqlite, execution_result, execute_stage.
    rewrite Hv, Hc, Hrefs. cbn [bind load_references].
    unfold resolve_reference. rewrite Hx. reflexivity. }
  split; [exact H|]. unfold SQLITE. rewrite H. reflexivity.
Qed.

Lemma SQLITE_without_host_witness :
  SQLITE (offline_env Fixture.two_orders) "SELECT * FROM Orders" []
  = Text "Error: cannot resolve range: Orders (xl() function not available - must run in Python in Excel environment)".
Proof.
  apply (SQLITE_without_host_names_first_reference
           (offline_env Fixture.two_orders) "SELECT * FROM Orders" [] tt
           (mkRef "Orders" None (Some "Orders") None "orders") []);
    reflexivity.
Defined.

(** X19.  A query in which [extract_table_references] finds no reference is
    run as it is written: nothing is asked of the host, no table is loaded,
    and the text sent to the engine is the query itself. *)
Theorem query_without_references_runs_as_written :
  forall (E : Env) (query : string) (params : list value),
    extract_table_references query = []%list ->
    _execute_sqlite E query params
    = (_ <- validate_call query params ;;
       c <- connect E ;;
       r <- run_branch E c query query params ;;
       shape_stage E (snd r)).
Proof.
  intros E query params Hrefs.
  unfold _execute_sqlite, execution_result, execute_stage.
  rewrite Hrefs.
  destruct (validate_call query params) as [[]|e]; [|reflexivity].
  cbn [bind]. destruct (connect E) as [c|e]; [|reflexivity].
  cbn [bind load_references substitute_references].
  now destruct (run_branch E c query query params) as [[c' result]|e].
Qed.

Lemma query_without_references_witness :
  _execute_sqlite (offline_env Fixture.two_orders) "SELECT 1" []
  = (_ <- validate_call "SELECT 1" [] ;;
     c <- connect (offline_env Fixture.two_orders) ;;
     r <- run_branch (offline_env Fixture.two_orders) c "SELECT 1" "SELECT 1"
            [] ;;
     shape_stage (offline_env Fixture.two_orders) (snd r)).
Proof.
  apply query_without_references_runs_as_written. reflexivity.
Defined.

(** *** schema.py: the generated statements *)

Lemma ascii_word_plain (c : ascii) :
  ascii_word c = true -> plain_char c = true.
Proof. destruct c as [[] [] [] [] [] [] [] []]; now intros. Qed.

Lemma identifier_tail_plain (r : string) :
  match drop (span_length ascii_word r) r with
  | EmptyString => true
  | String d EmptyString => Ascii.eqb d newline
  | _ => false
  end = true ->
  all_chars plain_char r = true.
Proof.
  induction r as [|c r IH]; [reflexivity|].
  cbn [span_length]. destruct (ascii_word c) eqn:Hc.
  - cbn [drop all_chars]. intros H. now rewrite (ascii_word_plain c Hc), (IH H).
  - cbn [drop]. destruct r as [|d r']; [|discriminate].
    intros H. apply Ascii.eqb_eq in H. now subst c.
Qed.

Lemma valid_identifier_plain (name : string) :
  valid_identifier name = true -> all_chars plain_char name = true.
Proof.
  destruct name as [|c r]; [discriminate|].
  unfold valid_identifier. intros H. apply andb_true_iff in H as [Hc Hr].
  cbn [all_chars]. rewrite (identifier_tail_plain r Hr), andb_true_r.
  apply ascii_word_plain. unfold ascii_word, ascii_alnum.
  apply orb_true_iff in Hc as [->| ->]; [reflexivity | apply orb_true_r].
Qed.

Lemma respects_append (q : ascii) (a b : string) :
  a <> EmptyString -> respects (Some q) a -> respects (Some q) (a ++ b).
Proof. destruct a; [contradiction | now intros]. Qed.

Section Scanner.

Context {A : Type} (scan : option ascii -> string -> A).

Hypothesis scan_plain_char :
  forall c rest, plain_char c = true ->
                 scan None (String c rest) = scan None rest.
Hypothesis scan_open :
  forall c rest, is_quote c = true ->
                 scan None (String c rest) = scan (Some c) rest.
Hypothesis scan_escaped :
  forall q rest, scan (Some q) (String q (String q rest)) = scan (Some q) rest.
Hypothesis scan_close :
  forall q rest, respects (Some q) rest ->
                 scan (Some q) (String q rest) = scan None rest.
Hypothesis scan_inside :
  forall q c rest, c <> q -> scan (Some q) (String c rest) = scan (Some q) rest.

Lemma scan_plain (p rest : string) :
  all_chars plain_char p = true -> scan None (p ++ rest) = scan None rest.
Proof.
  induction p as [|c r IH]; [reflexivity|].
  cbn [all_chars append]. intros H. apply andb_true_iff in H as [Hc Hr].
  now rewrite (scan_plain_char _ _ Hc), (IH Hr).
Qed.

Lemma scan_quoted_body (name rest : string) :
  respects (Some dquote) rest ->
  scan (Some dquote) (double_quotes name ++ String dquote rest)
  = scan None rest.
Proof.
  intros Hrest. induction name as [|c r IH].
  - now apply scan_close.
  - cbn [double_quotes]. destruct (Ascii.eqb_spec c dquote) as [->|Hc].
    + cbn [append]. now rewrite scan_escaped.
    + cbn [append]. now rewrite (scan_inside _ _ _ Hc).
Qed.

Lemma passes_quoted (name : string) : passes scan (quote_identifier name).
Proof.
  intros rest Hrest. unfold quote_identifier.
  cbn [append]. rewrite append_assoc. cbn [append].
  rewrite scan_open by reflexivity. now apply scan_quoted_body.
Qed.

Lemma passes_sanitized (name : string) :
  passes scan (sanitize_column_name name).
Proof.
  destruct (sanitize_column_name_cases name) as [(-> & Hv & _)|(-> & _)].
  - intros rest _. now apply scan_plain, valid_identifier_plain.
  - apply passes_quoted.
Qed.

Lemma passes_join (sep : string) (parts : list string) :
  all_chars plain_char sep = true ->
  sep <> EmptyString ->
  respects (Some dquote) sep ->
  Forall (passes scan) parts ->
  passes scan (join sep parts).
Proof.
  intros Hplain Hne Hsep. induction parts as [|p parts IH]; intros H rest Hrest.
  - reflexivity.
  - inversion H as [|? ? Hp Hparts]; subst.
    destruct parts as [|p' parts']; [now apply Hp|].
    change (join sep (p :: p' :: parts'))
      with (p ++ sep ++ join sep (p' :: parts')).
    rewrite !append_assoc.
    rewrite Hp by (now apply respects_append).
    rewrite (scan_plain _ _ Hplain). now apply IH.
Qed.

Lemma scan_join_any (sep : string) (parts : list string) (rest : string) :
  all_chars plain_char sep = true ->
  Forall (fun p => forall rest, scan None (p ++ rest) = scan None rest) parts ->
  scan None (join sep parts ++ rest) = scan None rest.
Proof.
  intros Hplain. induction parts as [|p parts IH]; intros H; [reflexivity|].
  inversion H as [|? ? Hp Hparts]; subst.
  destruct parts as [|p' parts']; [now apply Hp|].
  change (join sep (p :: p' :: parts'))
    with (p ++ sep ++ join sep (p' :: parts')).
  rewrite !append_assoc. rewrite Hp, (scan_plain _ _ Hplain). now apply IH.
Qed.

Lemma scan_col_def (col : ColumnSchema) (name rest : string) :
  col_sqlite_name col = sanitize_column_name name ->
  In (col_sqlite_type col) sqlite_types ->
  scan None (col_def col ++ rest) = scan None rest.
Proof.
  intros Hname Htype. unfold col_def. rewrite Hname, !append_assoc.
  rewrite (scan_plain "    ") by reflexivity.
  rewrite (passes_sanitized name) by (cbn; discriminate).
  rewrite (scan_plain " ") by reflexivity.
  assert (Hplain : all_chars plain_char (col_sqlite_type col) = true).
  { destruct Htype as [<-|[<-|[<-|[]]]]; reflexivity. }
  rewrite (scan_plain _ _ Hplain).
  destruct (col_nullable col); [reflexivity|].
  now rewrite (scan_plain " NOT NULL").
Qed.

Lemma scan_create_table_ddl (table : string)
  (columns : list ColumnSchema) :
  Forall (fun col =>
            (exists name, col_sqlite_name col = sanitize_column_name name)
            /\ In (col_sqlite_type col) sqlite_types) columns ->
  scan None (create_table_ddl (sanitize_column_name table) columns)
  = scan None (String newline ")").
Proof.
  intros H. unfold create_table_ddl.
  rewrite (scan_plain "CREATE TABLE ") by reflexivity.
  rewrite (passes_sanitized table) by (cbn; discriminate).
  rewrite (scan_plain " (") by reflexivity.
  rewrite (scan_plain (String newline EmptyString)) by reflexivity.
  apply scan_join_any; [reflexivity|].
  apply Forall_map. eapply Forall_impl; [|exact H].
  intros col [[name Hname] Htype] rest. now apply (scan_col_def col name).
Qed.

Lemma scan_insert_head (schema : TableSchema) (table : string) :
  tbl_sqlite_name schema = sanitize_column_name table ->
  Forall (fun col =>
            exists name, col_sqlite_name col = sanitize_column_name name)
    (tbl_columns schema) ->
  scan None (insert_sql schema)
  = scan None (join ", " (map (fun _ => "?") (tbl_columns schema)) ++ ")").
Proof.
  intros Htable H. unfold insert_sql. rewrite Htable.
  rewrite (scan_plain "INSERT INTO ") by reflexivity.
  rewrite (passes_sanitized table) by (cbn; discriminate).
  rewrite (scan_plain " (") by reflexivity.
  assert (Hcols : passes scan
            (join ", " (map col_sqlite_name (tbl_columns schema)))).
  { apply passes_join; [reflexivity | discriminate | cbn; discriminate |].
    apply Forall_map. eapply Forall_impl; [|exact H].
    intros col [name ->]. apply passes_sanitized. }
  rewrite Hcols by (cbn; discriminate).
  now rewrite (scan_plain ") VALUES (") by reflexivity.
Qed.

End Scanner.

Lemma plain_char_cases (c : ascii) :
  plain_char c = true ->
  is_quote c = false /\ Ascii.eqb c ";" = false /\ Ascii.eqb c "?" = false.
Proof.
  unfold plain_char. intros H.
  apply andb_true_iff in H as [H Hq]. apply andb_true_iff in H as [Hquote Hs].
  now rewrite negb_true_iff in *.
Qed.

Lemma count_plain_char (c : ascii) (rest : string) :
  plain_char c = true ->
  count_parameters_loop None (String c rest) = count_parameters_loop None rest.
Proof.
  intros H. destruct (plain_char_cases c H) as (Hq & _ & Hp).
  cbn [count_parameters_loop]. now rewrite Hq, Hp.
Qed.

Lemma count_open (c : ascii) (rest : string) :
  is_quote c = true ->
  count_parameters_loop None (String c rest)
  = count_parameters_loop (Some c) rest.
Proof. intros H. cbn [count_parameters_loop]. now rewrite H. Qed.

Lemma count_escaped (q : ascii) (rest : string) :
  count_parameters_loop (Some q) (String q (String q rest))
  = count_parameters_loop (Some q) rest.
Proof. cbn [count_parameters_loop]. now rewrite !Ascii.eqb_refl. Qed.

Lemma count_close (q : ascii) (rest : string) :
  respects (Some q) rest ->
  count_parameters_loop (Some q) (String q rest)
  = count_parameters_loop None rest.
Proof.
  intros H. cbn [count_parameters_loop]. rewrite Ascii.eqb_refl.
  destruct rest as [|d r]; [reflexivity|].
  simpl in H. apply Ascii.eqb_neq in H. now rewrite H.
Qed.

Lemma count_inside (q c : ascii) (rest : string) :
  c <> q ->
  count_parameters_loop (Some q) (String c rest)
  = count_parameters_loop (Some q) rest.
Proof.
  intros H. cbn [count_parameters_loop].
  apply Ascii.eqb_neq in H. now rewrite H.
Qed.

Lemma semicolon_plain_char (c : ascii) (rest : string) :
  plain_char c = true ->
  semicolon_outside_literals_loop None (String c rest)
  = semicolon_outside_literals_loop None rest.
Proof.
  intros H. destruct (plain_char_cases c H) as (Hq & Hs & _).
  cbn [semicolon_outside_literals_loop]. now rewrite Hq, Hs.
Qed.

Lemma semicolon_open (c : ascii) (rest : string) :
  is_quote c = true ->
  semicolon_outside_literals_loop None (String c rest)
  = semicolon_outside_literals_loop (Some c) rest.
Proof. intros H. cbn [semicolon_outside_literals_loop]. now rewrite H. Qed.

Lemma semicolon_escaped (q : ascii) (rest : string) :
  semicolon_outside_literals_loop (Some q) (String q (String q rest))
  = semicolon_outside_literals_loop (Some q) rest.
Proof. cbn [semicolon_outside_literals_loop]. now rewrite !Ascii.eqb_refl. Qed.

Lemma semicolon_close (q : ascii) (rest : string) :
  respects (Some q) rest ->
  semicolon_outside_literals_loop (Some q) (String q rest)
  = semicolon_outside_literals_loop None rest.
Proof.
  intros H. cbn [semicolon_outside_literals_loop]. rewrite Ascii.eqb_refl.
  destruct rest as [|d r]; [reflexivity|].
  simpl in H. apply Ascii.eqb_neq in H. now rewrite H.
Qed.

Lemma semicolon_inside (q c : ascii) (rest : string) :
  c <> q ->
  semicolon_outside_literals_loop (Some q) (String c rest)
  = semicolon_outside_literals_loop (Some q) rest.
Proof.
  intros H. cbn [semicolon_outside_literals_loop].
  apply Ascii.eqb_neq in H. now rewrite H.
Qed.

Lemma count_placeholders (columns : list ColumnSchema) (rest : string) :
  count_parameters_loop None
    (join ", " (map (fun _ => "?") columns) ++ rest)
  = (len columns + count_parameters_loop None rest)%Z.
Proof.
  unfold len. induction columns as [|col columns IH]; [reflexivity|].
  destruct columns as [|col' columns'].
  - cbn [map join append count_parameters_loop]. reflexivity.
  - change (join ", " (map (fun _ => "?") (col :: col' :: columns')))
      with ("?" ++ ", " ++ join ", " (map (fun _ => "?") (col' :: columns'))).
    rewrite !append_assoc.
    change (count_parameters_loop None
              ("?" ++ ", " ++ join ", " (map (fun _ => "?") (col' :: columns'))
                 ++ rest))
      with (1 + count_parameters_loop None
                  (join ", " (map (fun _ => "?") (col' :: columns')) ++ rest))%Z.
    rewrite IH. cbn [List.length]. lia.
Qed.

Lemma semicolon_placeholders (columns : list ColumnSchema) (rest : string) :
  semicolon_outside_literals_loop None
    (join ", " (map (fun _ => "?") columns) ++ rest)
  = semicolon_outside_literals_loop None rest.
Proof.
  induction columns as [|col columns IH]; [reflexivity|].
  destruct columns as [|col' columns']; [reflexivity|].
  change (join ", " (map (fun _ => "?") (col :: col' :: columns')))
    with ("?" ++ ", " ++ join ", " (map (fun _ => "?") (col' :: columns'))).
  rewrite !append_assoc. exact IH.
Qed.

Lemma ends_with_paren_tight (body : string) :
  head_ok body -> tight (body ++ ")").
Proof.
  intros H. apply head_tail_tight; [now apply head_ok_append|].
  apply tail_ok_append; [reflexivity | discriminate].
Qed.

Lemma single_statement_splits (stmt : string) :
  tight stmt -> stmt <> EmptyString ->
  semicolon_outside_literals stmt = false ->
  split_statements stmt = [stmt]%list.
Proof.
  intros Ht Hne H. rewrite (no_outside_semicolon_one_statement _ H).
  unfold flush. rewrite (tight_strip _ Ht).
  destruct stmt; [contradiction | reflexivity].
Qed.

Lemma build_table_schema_returns
  (infer : DataFrame -> header -> string) (df : DataFrame)
  (table_name : string) (schema : TableSchema) :
  build_table_schema infer df table_name = Return schema ->
  schema = mkSchema table_name (sanitize_column_name table_name)
             (map (column_of infer df) (labels df))
             (Z.of_nat (List.length (records df))).
Proof.
  unfold build_table_schema.
  pose proof (validate_headers_loop_spec (labels df) [] 0%Z [] []
                loop_state_initial) as Hv.
  unfold validate_headers. cbn [app] in Hv.
  destruct (validate_headers_loop 0 [] [] (labels df)) as [names|e];
    [|discriminate].
  destruct Hv as [Hacc ->]. cbn [bind].
  pose proof (column_schemas_labels infer df Hacc (labels df)
                (incl_refl _)) as Hc.
  destruct (column_schemas infer df (map entry_name (labels df)))
    as [columns|e]; [|discriminate].
  destruct Hc as [_ ->]. cbn [bind]. now intros [= <-].
Qed.

Lemma built_columns_sanitized (infer : DataFrame -> header -> string)
  (df : DataFrame) :
  (forall d h, In (infer d h) sqlite_types) ->
  Forall (fun col =>
            (exists name, col_sqlite_name col = sanitize_column_name name)
            /\ In (col_sqlite_type col) sqlite_types)
    (map (column_of infer df) (labels df)).
Proof.
  intros Hinfer. apply Forall_map, Forall_forall. intros h _. split.
  - now exists (entry_name h).
  - apply Hinfer.
Qed.

(** X20.  The two statements generated for a table that
    [build_table_schema] describes, the CREATE TABLE of [create_table_ddl]
    and the INSERT of [load_data_to_sqlite], are read by the package's own
    scanners as intended whatever characters the header names hold: each
    is one statement for [split_statements], the CREATE TABLE has no
    placeholder for [count_parameters], and the INSERT has one placeholder
    per column.  ([infer_column_type] returns INTEGER, REAL or TEXT.) *)
Theorem generated_statements_scan_as_intended :
  forall (infer : DataFrame -> header -> string) (df : DataFrame)
         (table_name : string) (schema : TableSchema),
    (forall d h, In (infer d h) sqlite_types) ->
    build_table_schema infer df table_name = Return schema ->
    split_statements
      (create_table_ddl (tbl_sqlite_name schema) (tbl_columns schema))
    = [create_table_ddl (tbl_sqlite_name schema) (tbl_columns schema)]%list
    /\ count_parameters
         (create_table_ddl (tbl_sqlite_name schema) (tbl_columns schema))
       = 0%Z
    /\ split_statements (insert_sql schema) = [insert_sql schema]%list
    /\ count_parameters (insert_sql schema) = len (labels df).
Proof.
  intros infer df table_name schema Hinfer H.
  apply build_table_schema_returns in H. subst schema.
  cbn [tbl_sqlite_name tbl_columns].
  pose proof (built_columns_sanitized infer df Hinfer) as Hcols.
  assert (Hnames :
    Forall (fun col =>
              exists name, col_sqlite_name col = sanitize_column_name name)
      (map (column_of infer df) (labels df))).
  { eapply Forall_impl; [|exact Hcols]. now intros col [Hn _]. }
  refine (conj _ (conj _ (conj _ _))).
  - apply single_statement_splits.
    + unfold create_table_ddl.
      rewrite <- !append_assoc.
      change (String newline ")") with (String newline EmptyString ++ ")").
      rewrite <- append_assoc. apply ends_with_paren_tight.
      rewrite !append_assoc. reflexivity.
    + discriminate.
    + unfold semicolon_outside_literals.
      now rewrite (scan_create_table_ddl _ semicolon_plain_char
                     semicolon_open semicolon_escaped semicolon_close
                     semicolon_inside).
  - unfold count_parameters.
    now rewrite (scan_create_table_ddl _ count_plain_char count_open
                   count_escaped count_close count_inside).
  - apply single_statement_splits.
    + unfold insert_sql. rewrite <- !append_assoc.
      apply ends_with_paren_tight. rewrite !append_assoc. reflexivity.
    + discriminate.
    + unfold semicolon_outside_literals.
      rewrite (scan_insert_head _ semicolon_plain_char semicolon_open
                 semicolon_escaped semicolon_close semicolon_inside
                 _ table_name) by (reflexivity || exact Hnames).
      now rewrite semicolon_placeholders.
  - unfold count_parameters.
    rewrite (scan_insert_head _ count_plain_char count_open count_escaped
               count_close count_inside _ table_name)
      by (reflexivity || exact Hnames).
    rewrite count_placeholders.
    change (count_parameters_loop None ")") with 0%Z.
    cbn [tbl_columns]. unfold len. rewrite length_map. lia.
Qed.

Lemma generated_statements_witness :
  count_parameters
    (insert_sql
       (mkSchema "t" "t"
          [mkColumn "id" "id" "TEXT" true;
           mkColumn "why?" (quote_identifier "why?") "TEXT" true] 1%Z))
  = 2%Z.
Proof.
  apply (generated_statements_scan_as_intended (fun _ _ => SQLITE_TEXT)
           (mkFrame [HStr "id"; HStr "why?"] [[VInt 1; VInt 2]]) "t"
           (mkSchema "t" "t"
              [mkColumn "id" "id" "TEXT" true;
               mkColumn "why?" (quote_identifier "why?") "TEXT" true] 1%Z)).
  - intros d h. right. right. now left.
  - reflexivity.
Defined.

(** *** main.py: SQLITE_EXPLAIN and the opening checks *)

Lemma inert_char_cases (c : ascii) :
  inert_char c = true ->
  is_quote c = false /\ Ascii.eqb c "-" = false /\ Ascii.eqb c "/" = false.
Proof.
  unfold inert_char. intros H.
  apply andb_true_iff in H as [H Hs]. apply andb_true_iff in H as [Hq Hd].
  now rewrite negb_true_iff in *.
Qed.

Lemma remove_string_literals_prefix (p query : string) :
  all_chars inert_char p = true ->
  remove_string_literals_loop 0 None (p ++ query)
  = p ++ remove_string_literals_loop 0 None query.
Proof.
  induction p as [|c r IH]; [reflexivity|].
  cbn [all_chars append]. intros H. apply andb_true_iff in H as [Hc Hr].
  destruct (inert_char_cases c Hc) as (Hq & _ & _).
  unfold is_quote in Hq. apply orb_false_iff in Hq as [Hs Hd].
  cbn [remove_string_literals_loop]. now rewrite Hs, Hd, (IH Hr).
Qed.

Lemma remove_line_comments_prefix (p query : string) :
  all_chars inert_char p = true ->
  remove_line_comments false (p ++ query)
  = p ++ remove_line_comments false query.
Proof.
  induction p as [|c r IH]; [reflexivity|].
  cbn [all_chars append]. intros H. apply andb_true_iff in H as [Hc Hr].
  destruct (inert_char_cases c Hc) as (_ & Hd & _).
  specialize (IH Hr).
  destruct (r ++ query) as [|d t] eqn:Ht.
  - destruct r; [|discriminate]. cbn [append] in *. subst query.
    reflexivity.
  - change (remove_line_comments false (String c (String d t)))
      with (if Ascii.eqb c "-"%char && Ascii.eqb d "-"%char
            then String " "%char (remove_line_comments true t)
            else String c (remove_line_comments false (String d t))).
    rewrite Hd. cbn [andb]. now rewrite IH.
Qed.

Lemma remove_block_comments_prefix (p query : string) :
  all_chars inert_char p = true ->
  remove_block_comments 0 (p ++ query) = p ++ remove_block_comments 0 query.
Proof.
  induction p as [|c r IH]; [reflexivity|].
  cbn [all_chars append]. intros H. apply andb_true_iff in H as [Hc Hr].
  destruct (inert_char_cases c Hc) as (_ & _ & Hs).
  change (remove_block_comments 0 (String c (r ++ query)))
    with (if startswith "/*" (String c (r ++ query))
          then match find_sub "*/" (drop 2 (String c (r ++ query))) with
               | Some k =>
                   String " "%char (remove_block_comments (k + 3) (r ++ query))
               | None => String c (remove_block_comments 0 (r ++ query))
               end
          else String c (remove_block_comments 0 (r ++ query))).
  cbn [startswith]. rewrite (Ascii.eqb_sym "/" c), Hs. cbn [andb].
  now rewrite (IH Hr).
Qed.

Lemma finditer_no_match {A : Type} (m : bool -> string -> option (nat * A))
  (prev_word : bool) (c : ascii) (r : string) :
  m prev_word (String c r) = None ->
  finditer m prev_word 0 (String c r) = finditer m (isword c) 0 r.
Proof. intros H. cbn [finditer]. now rewrite H. Qed.

Lemma extraction_loops_explain (cleaned_query : string) :
  extraction_loops (explain_prefix ++ cleaned_query)
  = extraction_loops cleaned_query.
Proof.
  unfold extraction_loops, explain_prefix. cbn [append].
  assert (Hfrom : finditer from_join_pattern false 0
                    ("EXPLAIN QUERY PLAN " ++ cleaned_query)
                  = finditer from_join_pattern false 0 cleaned_query).
  { cbn [append]. now repeat (rewrite finditer_no_match by reflexivity). }
  assert (Hupdate : finditer update_pattern false 0
                      ("EXPLAIN QUERY PLAN " ++ cleaned_query)
                    = finditer update_pattern false 0 cleaned_query).
  { cbn [append]. now repeat (rewrite finditer_no_match by reflexivity). }
  assert (Hinsert : finditer insert_pattern false 0
                      ("EXPLAIN QUERY PLAN " ++ cleaned_query)
                    = finditer insert_pattern false 0 cleaned_query).
  { cbn [append]. now repeat (rewrite finditer_no_match by reflexivity). }
  cbn [append] in Hfrom, Hupdate, Hinsert.
  now rewrite Hfrom, Hupdate, Hinsert.
Qed.

Lemma rstrip_keeps_prefix (p t : string) :
  p <> EmptyString -> rstrip_by isspace p = p ->
  exists t', rstrip_by isspace (p ++ t) = p ++ t'.
Proof.
  induction p as [|c r IH]; [contradiction|]. intros _ Hp.
  destruct r as [|d r'].
  - cbn [append rstrip_by] in *.
    destruct (isspace c) eqn:Hc; [discriminate|].
    destruct (rstrip_by isspace t) as [|e u].
    + now exists EmptyString.
    + now exists (String e u).
  - assert (Hr : rstrip_by isspace (String d r') = String d r').
    { change (rstrip_by isspace (String c (String d r')))
        with (match rstrip_by isspace (String d r') with
              | EmptyString =>
                  if isspace c then EmptyString else String c EmptyString
              | String e u => String c (String e u)
              end) in Hp.
      destruct (rstrip_by isspace (String d r')) as [|e u].
      - destruct (isspace c); discriminate.
      - injection Hp as -> ->. reflexivity. }
    destruct (IH ltac:(discriminate) Hr) as [t' Ht'].
    exists t'. cbn [append] in *.
    change (rstrip_by isspace (String c (String d (r' ++ t))))
      with (match rstrip_by isspace (String d (r' ++ t)) with
            | EmptyString =>
                if isspace c then EmptyString else String c EmptyString
            | String e u => String c (String e u)
            end).
    now rewrite Ht'.
Qed.

(** X21.  The statement [SQLITE_EXPLAIN] builds passes the opening checks
    of [SQLITE] even for an empty query, is typed EXPLAIN, and is read like
    the query itself: the same table references are extracted, the same
    branch is taken, and the same placeholders are counted. *)
Theorem SQLITE_EXPLAIN_reads_the_query :
  forall query : string,
    validate_call (explain_prefix ++ query) [] = Return tt
    /\ detect_query_type (explain_prefix ++ query) = "EXPLAIN"
    /\ extract_table_references (explain_prefix ++ query)
       = extract_table_references query
    /\ dispatch (explain_prefix ++ query) = dispatch query
    /\ count_parameters (explain_prefix ++ query) = count_parameters query
    /\ forall E, SQLITE_EXPLAIN E query
                 = SQLITE E (explain_prefix ++ query) [].
Proof.
  intros query.
  destruct (rstrip_keeps_prefix "EXPLAIN QUERY PLAN"
              (String " " query) ltac:(discriminate) eq_refl) as [t' Ht'].
  assert (Hstrip : strip (explain_prefix ++ query)
                   = "EXPLAIN QUERY PLAN" ++ t').
  { unfold strip, strip_by, explain_prefix. cbn [append lstrip_by].
    change (isspace "E") with false. cbv iota.
    cbn [append] in Ht'. exact Ht'. }
  refine (conj _ (conj _ (conj _ (conj _ (conj _ _))))).
  - unfold validate_call, check_parameter_count. now rewrite Hstrip.
  - unfold detect_query_type. now rewrite Hstrip.
  - unfold extract_table_references, _remove_string_literals,
      _remove_comments.
    rewrite remove_string_literals_prefix by reflexivity.
    rewrite remove_line_comments_prefix by reflexivity.
    rewrite remove_block_comments_prefix by reflexivity.
    now rewrite extraction_loops_explain.
  - reflexivity.
  - reflexivity.
  - reflexivity.
Qed.

(** X22.  A query that is empty or blank is refused before anything else
    is looked at: whatever the parameters and the environment, [SQLITE]
    returns the text of the empty-query error. *)
Theorem SQLITE_blank_query_is_refused :
  forall (E : Env) (query : string) (params : list value),
    strip query = EmptyString ->
    SQLITE E query params = Text "Error: empty query".
Proof.
  intros E query params H.
  unfold SQLITE, _execute_sqlite, execution_result, validate_call.
  rewrite H. cbn [nonempty negb]. now rewrite orb_true_r.
Qed.

Lemma SQLITE_blank_query_witness :
  SQLITE (offline_env Fixture.two_orders) "   " [VInt 1]
  = Text "Error: empty query".
Proof. apply SQLITE_blank_query_is_refused. reflexivity. Defined.

(** *** executor.py and main.py: a batch of statements *)

Local Open Scope list_scope.

Lemma first_some_assoc {A : Type} (a b c : option A) :
  first_some (first_some a b) c = first_some a (first_some b c).
Proof. now destruct a. Qed.

Lemma first_some_none_r {A : Type} (a : option A) : first_some a None = a.
Proof. now destruct a. Qed.

Lemma run_statements_reports (E : Env) (statements : list string) :
  Forall statement_shape statements ->
  forall (c : conn E) (last_select_result last_result : option ExecutionResult),
    run_statements E c statements last_select_result last_result
    = (r <- run_each E c statements ;;
       Return (fst r,
               first_some
                 (first_some (last_opt (filter is_select (snd r)))
                    last_select_result)
                 (first_some (last_opt (snd r)) last_result))).
Proof.
  induction 1 as [|stmt rest [Hne Hstrip] _ IH]; intros c ls lr;
    [reflexivity|].
  cbn [run_statements run_each]. rewrite Hstrip, Hne. cbn [negb].
  destruct (execute_query E c stmt []) as [[c' result]|e]; [|reflexivity].
  cbn [bind]. rewrite IH.
  destruct (run_each E c' rest) as [[c'' rs]|e]; [|reflexivity].
  cbn [bind fst snd filter last_opt]. do 2 f_equal.
  rewrite (first_some_assoc (last_opt rs)). cbn [first_some].
  destruct (is_select result); cbn [last_opt];
    now rewrite ?first_some_assoc.
Qed.

(** X23.  [execute_multiple_statements] runs the statements of
    [split_statements] in order, each without parameters, and stops at the
    first that raises.  It returns the result of the last statement typed
    SELECT; when none is typed SELECT, the result of the last statement;
    when there is no statement, the EMPTY result. *)
Theorem execute_multiple_statements_reports_last_select :
  forall (E : Env) (c : conn E) (sql : string),
    execute_multiple_statements E c sql
    = (r <- run_each E c (split_statements sql) ;;
       Return (fst r, reported (snd r))).
Proof.
  intros E c sql. unfold execute_multiple_statements.
  assert (Hshape : Forall statement_shape (split_statements sql)).
  { apply (split_statements_loop_shape (String.length sql)); [|constructor].
    apply le_n. }
  destruct (split_statements sql) as [|stmt rest]; [reflexivity|].
  rewrite (run_statements_reports E _ Hshape).
  destruct (run_each E c (stmt :: rest)) as [[c' rs]|e]; [|reflexivity].
  cbn [bind fst snd]. unfold reported. rewrite !first_some_none_r.
  now destruct (first_some (last_opt (filter is_select rs)) (last_opt rs)).
Qed.

Local Open Scope string_scope.

(** X24.  In a query that holds a semicolon the parameters are checked for
    their number and then left unused: once the opening checks pass,
    [SQLITE] returns what it returns for the same query without
    parameters. *)
Theorem SQLITE_batch_ignores_parameters :
  forall (E : Env) (query : string) (params : list value),
    contains ";" query = true ->
    validate_call query params = Return tt ->
    SQLITE E query params = SQLITE E query []%list.
Proof.
  intros E query params Hsemi Hv.
  assert (Hv' : validate_call query []%list = Return tt).
  { unfold validate_call in *.
    destruct (negb (nonempty query) || negb (nonempty (strip query)));
      [discriminate | reflexivity]. }
  unfold SQLITE, _execute_sqlite, execution_result, execute_stage, run_branch,
    dispatch.
  now rewrite Hv, Hv', Hsemi.
Qed.

Lemma SQLITE_batch_ignores_parameters_witness :
  SQLITE (Fixture.env Fixture.two_orders) "SELECT ?; SELECT 2" [VInt 7]
  = SQLITE (Fixture.env Fixture.two_orders) "SELECT ?; SELECT 2" []%list.
Proof.
  apply SQLITE_batch_ignores_parameters; reflexivity.
Defined.
